(** * Zygisk entry point, environment sanitizer and companion daemon

    A shallow embedding of [native/src/zygisk/main.cpp]:

    - the environment sanitizer ([is_valid_environment_variable],
      [env_match], [is_unsafe_environment_variable],
      [sanitize_environment_variables]) over a byte-addressed memory and an
      array of [char*];
    - the three protocol entry points ([app_process_main], [zygiskd],
      [zygisk_main]) as programs over the calls they make to libc and to the
      helpers of the daemon library, run against an arbitrary environment. *)

From Stdlib Require Import ZArith List Ascii String Bool Lia DecimalString.
From stdpp Require Import base list.
Import ListNotations.

Local Open Scope Z_scope.

(** ** Memory, pointers and C strings *)

(** A [char*] is an address; [nullptr] is address 0. *)
Abbreviation ptr := Z (only parsing).
Definition nullptr : ptr := 0.

(** Byte-addressed memory. *)
Definition memory := Z -> ascii.

Definition NUL : ascii := Ascii.zero.

(** [s[i]] for [const char* s]. *)
Definition deref (m : memory) (s : ptr) (i : Z) : ascii := m (s + i).

(** ** The environment sanitizer *)

Module Sanitizer.

(** [const int MAX_ENV_LEN = 32*4096;] *)
Definition MAX_ENV_LEN : Z := 32 * 4096.

(** The [while (pos < MAX_ENV_LEN)] loop of [is_valid_environment_variable].
    Every iteration increments [pos], so [MAX_ENV_LEN - pos] iterations
    always suffice; [fuel] only makes the recursion structural. Returns the
    final [(pos, first_equal_pos)]. *)
Fixpoint scan_env (m : memory) (fuel : nat) (name : ptr)
    (pos first_equal_pos : Z) : Z * Z :=
  match fuel with
  | O => (pos, first_equal_pos)
  | S fuel' =>
      if pos <? MAX_ENV_LEN then
        if Ascii.eqb (deref m name pos) NUL then (pos, first_equal_pos)
        else
          let first_equal_pos' :=
            if Ascii.eqb (deref m name pos) "="%char && (first_equal_pos <? 0)
            then pos else first_equal_pos in
          scan_env m fuel' name (pos + 1) first_equal_pos'
      else (pos, first_equal_pos)
  end.

Definition is_valid_environment_variable (m : memory) (name : ptr) : bool :=
  if name =? nullptr then false
  else
    let '(pos, first_equal_pos) :=
      scan_env m (Z.to_nat MAX_ENV_LEN) name 0 (-1) in
    if pos >=? MAX_ENV_LEN then false
    else if first_equal_pos <? 1 then false
    else true.

(** [env_match(envstr, name)]: [name] is a string literal, that is its
    characters followed by a terminating NUL. The recursion follows the
    characters of [name]; [i] is the loop index. The result is [None] for
    [nullptr] and [Some (envstr + i + 1)] otherwise. *)
Fixpoint env_match_from (m : memory) (envstr : ptr) (name : string) (i : Z)
    : option ptr :=
  match name with
  | String c rest =>
      if Ascii.eqb c NUL then
        (* name[i] == '\0': the loop stops here *)
        if Ascii.eqb (deref m envstr i) "="%char
        then Some (envstr + i + 1) else None
      else if Ascii.eqb (deref m envstr i) c then
        env_match_from m envstr rest (i + 1)
      else
        (* envstr[i] != name[i] and name[i] != '\0' *)
        None
  | EmptyString =>
      if Ascii.eqb (deref m envstr i) "="%char
      then Some (envstr + i + 1) else None
  end.

Definition env_match (m : memory) (envstr : ptr) (name : string) : option ptr :=
  env_match_from m envstr name 0.

Definition UNSAFE_VARIABLE_NAMES : list string :=
  [ "ANDROID_DNS_MODE";
    "GCONV_PATH";
    "GETCONF_DIR";
    "HOSTALIASES";
    "JE_MALLOC_CONF";
    "LD_AOUT_LIBRARY_PATH";
    "LD_AOUT_PRELOAD";
    "LD_AUDIT";
    "LD_CONFIG_FILE";
    "LD_DEBUG";
    "LD_DEBUG_OUTPUT";
    "LD_DYNAMIC_WEAK";
    "LD_LIBRARY_PATH";
    "LD_ORIGIN_PATH";
    "LD_PROFILE";
    "LD_SHOW_AUXV";
    "LD_USE_LOAD_BIAS";
    "LIBC_DEBUG_MALLOC_OPTIONS";
    "LIBC_HOOKS_ENABLE";
    "LOCALDOMAIN";
    "LOCPATH";
    "MALLOC_CHECK_";
    "MALLOC_CONF";
    "MALLOC_TRACE";
    "NIS_PATH";
    "NLSPATH";
    "RESOLV_HOST_CONF";
    "RES_OPTIONS";
    "SCUDO_OPTIONS";
    "TMPDIR";
    "TZDIR" ]%string.

(** The [for] loop over the table returns [true] at the first match. *)
Definition is_unsafe_environment_variable (m : memory) (name : ptr) : bool :=
  existsb (fun unsafe_variable_name =>
             match env_match m name unsafe_variable_name with
             | Some _ => true
             | None => false
             end)
          UNSAFE_VARIABLE_NAMES.

(** [sanitize_environment_variables(char** env)]. The array [env] is a list
    of pointers, [src] and [dst] are indices into it, and [dst[0] = src[0]]
    is an update of the same array. Reading past the end of the array (an
    array without null sentinel) is undefined behaviour, shown as [None].
    Every iteration advances [src], so [S (length env)] iterations always
    suffice. *)
Fixpoint sanitize_loop (m : memory) (fuel : nat) (env : list ptr)
    (src dst : nat) : option (list ptr) :=
  match fuel with
  | O => None
  | S fuel' =>
      match env !! src with
      | None => None
      | Some p =>
          if p =? nullptr then Some (<[dst := nullptr]> env)
          else if negb (is_valid_environment_variable m p) then
            sanitize_loop m fuel' env (S src) dst
          else if is_unsafe_environment_variable m p then
            sanitize_loop m fuel' env (S src) dst
          else
            sanitize_loop m fuel' (<[dst := p]> env) (S src) (S dst)
      end
  end.

Definition sanitize_environment_variables (m : memory) (env : list ptr)
    : option (list ptr) :=
  sanitize_loop m (S (length env)) env 0 0.

End Sanitizer.

(** ** Reading the sanitizer's input: layout predicates *)

Module Layout.
Import Sanitizer.

(** The characters of [s] are stored from address [p] on ([s] itself, no
    terminator implied). *)
Fixpoint has_prefix (m : memory) (p : ptr) (s : string) : bool :=
  match s with
  | EmptyString => true
  | String c rest => Ascii.eqb (m p) c && has_prefix m (p + 1) rest
  end.

(** No character of [s] is [c]. *)
Fixpoint free_of (c : ascii) (s : string) : bool :=
  match s with
  | EmptyString => true
  | String d rest => negb (Ascii.eqb d c) && free_of c rest
  end.

(** [name] is the substring of the entry at [p] before its first ['=']. *)
Definition name_is (m : memory) (p : ptr) (name : string) : bool :=
  free_of "="%char name && has_prefix m p (name ++ "=")%string.

(** The [n] characters stored from [p] on. *)
Fixpoint chars_at (m : memory) (p : ptr) (n : nat) : string :=
  match n with
  | O => EmptyString
  | S n' => String (m p) (chars_at m (p + 1) n')
  end.

(** [a] is a strict prefix of [b]. *)
Definition strict_prefix (a b : string) : bool :=
  String.prefix a b && negb (String.eqb a b).

(** The C string at [p] has length [n]. *)
Definition terminates_at (m : memory) (p : ptr) (n : Z) : Prop :=
  0 <= n /\ deref m p n = NUL /\ forall i, 0 <= i < n -> deref m p i <> NUL.

(** The first ['='] from [p] on is at index [k]. *)
Definition first_equal_at (m : memory) (p : ptr) (k : Z) : Prop :=
  0 <= k /\ deref m p k = "="%char /\
  forall i, 0 <= i < k -> deref m p i <> "="%char.

(** A well-formed entry: it ends within the bound and its first ['='] is
    inside the string at an index of at least 1. *)
Definition well_formed (m : memory) (p : ptr) : Prop :=
  exists n k, terminates_at m p n /\ n < MAX_ENV_LEN /\
              first_equal_at m p k /\ 1 <= k < n.



Definition unterminated (m : memory) (p : ptr) : Prop :=
  forall i, 0 <= i < MAX_ENV_LEN -> deref m p i <> NUL.

(** What the sanitizer keeps. *)
Definition kept (m : memory) (p : ptr) : bool :=
  is_valid_environment_variable m p &&
  negb (is_unsafe_environment_variable m p).

(** The environment record an array holds: the entries before the first
    null pointer. *)
Fixpoint until_null (env : list ptr) : list ptr :=
  match env with
  | [] => []
  | p :: rest => if p =? nullptr then [] else p :: until_null rest
  end.

(** The length of a string, as an offset. *)
Definition slen (s : string) : Z := Z.of_nat (String.length s).

(** The C string [s] is stored at [p]: its characters, then NUL. *)
Definition holds (m : memory) (p : ptr) (s : string) : Prop :=
  has_prefix m p s = true /\ m (p + slen s) = NUL.

(** Writing the C string [s] (with its terminator) at address [a]. *)
Fixpoint store_string (s : string) (a : ptr) (m : memory) : memory :=
  match s with
  | EmptyString => fun x => if x =? a then NUL else m x
  | String c rest =>
      fun x => if x =? a then c else store_string rest (a + 1) m x
  end.

(** A memory holding "A" everywhere: no string in it ever ends. *)
Definition endless : memory := fun _ => "A"%char.

(** A small example memory: seven entries at addresses 4096, 8192, ... *)
Definition example_memory : memory :=
  store_string "PATH=/system/bin" 4096
  (store_string "LD_LIBRARY_PATH=/data/local/tmp" 8192
  (store_string "NOEQUALS" 12288
  (store_string "=oops" 16384
  (store_string "LD_LIBRARY_PATHOLOGY=1" 20480
  (store_string "LD_PRELOAD=/system/bin/appwidget" 24576
  (store_string "LD_DEBUG_OUTPUT=1" 28672
  (store_string "LD_DEBUG=1" 32768
  (store_string "LD_=1" 36864
  (fun _ => NUL))))))))).

Definition example_environ : list ptr :=
  [4096; 8192; 12288; 16384; 20480; 24576; 28672; 32768; 36864; 0; 77; 78].

End Layout.

(** ** The process and the calls it makes *)

Module Sys.
Import Sanitizer Layout.

(** The part of the process image the entry point works on: memory, the
    [environ] array (a [char**], null sentinel included) and the first free
    address, from which libc allocates. *)
Record process := {
  mem : memory;
  environ : list ptr;
  brk : ptr;
}.

(** [struct stat], the fields the program reads. *)
Record stat := {
  st_dev : Z;
  st_ino : Z;
  st_mode : Z;
}.

Definition S_IFMT : Z := 61440.   (* 0170000 *)
Definition S_IFREG : Z := 32768.  (* 0100000 *)
Definition S_ISREG (mode : Z) : bool := Z.land mode S_IFMT =? S_IFREG.

Definition F_GETFD : Z := 1.
Definition F_SETFD : Z := 2.
Definition FD_CLOEXEC : Z := 1.
Definition POLLIN : Z := 1.
Definition MNT_DETACH : Z := 2.
Definition RTLD_LAZY : Z := 1.
Definition ANDROID_DLEXT_USE_LIBRARY_FD : Z := 16.
Definition AF_UNIX : Z := 1.
Definition SOCK_STREAM : Z := 1.
Definition SOCK_CLOEXEC : Z := 524288.

(** The request codes of the main daemon that this file uses. *)
Inductive ZygiskRequest := SETUP | PASSTHROUGH.
Inductive MainRequest := ZYGISK_PASSTHROUGH.

(** A [FILE*] argument. *)
Inductive stream := stderr | file_ptr (fp : Z).

(** What an [exec*] call does: replace the image, or fail and return. *)
Inductive exec_result := ImageReplaced | ExecFailed (rc : Z).

(** The calls to libc and to the daemon library, each with the type of what
    it gives back. For a call that fills a buffer ([fscanf], [xreadlink],
    [socketpair], [fstat], [poll]) that is the content of the buffer after
    the call. *)
Inductive call : Type -> Type :=
| android_logging : call unit
| selinux_enabled : call bool
| open_file (path mode : string) : call Z
| xopen_file (path mode : string) : call Z
| fscanf_s (fp : Z) : call string
| fprintf (out : stream) (text : string) : call unit
| socketpair (domain type protocol : Z) : call (Z * Z)
| fork_dont_care : call Z
| fcntl (fd cmd arg : Z) : call Z
| execlp (file : string) (args : list string) : call exec_result
| fexecve (fd : Z) (argv : list string) (env : process) : call exec_result
| execve (path : string) (argv : list string) (env : process)
    : call exec_result
| close (fd : Z) : call Z
| read_int (fd : Z) : call Z
| write_int (fd val : Z) : call unit
| xwrite (fd : Z) (buf : list Byte.byte) : call Z
| recv_fd (fd : Z) : call Z
| send_fd (fd payload : Z) : call Z
| recv_fds (fd : Z) : call (list Z)
| read_string (fd : Z) : call string
| xreadlink (path : string) : call string
| xumount2 (path : string) (flags : Z) : call Z
| zygisk_request (req : ZygiskRequest) : call Z
| connect_daemon (req : MainRequest) : call Z
| getuid : call Z
| set_nice_name (name : string) : call unit
| LOGI (msg : string) : call unit
| LOGW (msg : string) : call unit
| fstat (fd : Z) : call (Z * stat)
| android_dlopen_ext (filename : string) (flag flags library_fd : Z) : call Z
| dlsym (handle : Z) (symbol : string) : call Z
| dlerror : call string
| poll (fd events : Z) : call Z
| companion_entry (entry client : Z) : call unit.

(** How a process ends without returning from its entry point. *)
Inductive termination :=
| Exited (status : Z)   (* exit(status) *)
| Replaced              (* a successful exec *)
| Undefined.            (* undefined behaviour *)

(** Programs: a tree of calls. [Forever] is [for (;;)], [Spawn] hands a
    closure to the thread pool ([exec_task]) and goes on. *)
Inductive io : Type -> Type :=
| Ret {R : Type} (r : R) : io R
| Stop {R : Type} (t : termination) : io R
| Vis {R X : Type} (c : call X) (k : X -> io R) : io R
| Spawn {R : Type} (task : io unit) (k : io R) : io R
| Forever {R : Type} (body : io unit) : io R.

Fixpoint bind {A B : Type} (p : io A) : (A -> io B) -> io B :=
  match p in io A' return (A' -> io B) -> io B with
  | Ret r => fun k => k r
  | Stop t => fun _ => Stop t
  | Vis c h => fun k => Vis c (fun x => bind (h x) k)
  | Spawn task h => fun k => Spawn task (bind h k)
  | Forever body => fun _ => Forever body
  end.

Definition perform {X : Type} (c : call X) : io X := Vis c Ret.

(** An [exec*] call: on success nothing of the program runs any more. *)
Definition exec (c : call exec_result) : io Z :=
  Vis c (fun r => match r with
                  | ImageReplaced => Stop Replaced
                  | ExecFailed rc => Ret rc
                  end).

Definition exit {R : Type} (status : Z) : io R := Stop (Exited status).

Definition exec_task (task : io unit) : io unit := Spawn task (Ret tt).

Declare Scope io_scope.
Delimit Scope io_scope with io.
Notation "x <- p ;; q" := (bind p (fun x => q))
  (at level 100, p at next level, q at level 200, right associativity)
  : io_scope.
Notation "p ;; q" := (bind p (fun _ => q))
  (at level 100, q at level 200, right associativity) : io_scope.

(** *** Running a program *)

(** One entry of a trace: a call with what it gave back, or a task handed
    to the thread pool. *)
Inductive event :=
| Event {X : Type} (c : call X) (x : X)
| Spawned (task : io unit).

Inductive outcome (R : Type) :=
| Returned (r : R)
| Stopped (t : termination)
| Running.   (* still inside a [for (;;)] when the observation ends *)
Arguments Returned {R} r.
Arguments Stopped {R} t.
Arguments Running {R}.

(** The environment of the process: what the [n]-th call of a run gives
    back. Any sequence of answers is such a function. *)
Definition world := nat -> forall X : Type, call X -> X.

(** [for (;;) body]: at most [r] iterations of [body] are observed, the
    first of them starting at call number [n]. The loop itself never
    returns. *)
Fixpoint iterate {R : Type} (body : nat -> list event * outcome unit)
    (r : nat) (n : nat) : list event * outcome R :=
  match r with
  | O => ([], Running)
  | S r' =>
      let '(tr, out) := body n in
      match out with
      | Returned _ =>
          let '(tr', out') := iterate body r' (n + length tr)%nat in
          (tr ++ tr', out')
      | Stopped t => (tr, Stopped t)
      | Running => (tr, Running)
      end
  end.

(** [run rounds w p n]: the trace and outcome of [p] in [w], its first call
    being call number [n] ([exec_task] counts as a call). Every [for (;;)] is
    observed for at most [rounds] iterations. *)
Fixpoint run {R : Type} (rounds : nat) (w : world) (p : io R) (n : nat)
    {struct p} : list event * outcome R :=
  match p in io R' return list event * outcome R' with
  | Ret r => ([], Returned r)
  | Stop t => ([], Stopped t)
  | Vis c k =>
      let x := w n _ c in
      let '(tr, out) := run rounds w (k x) (S n) in
      (Event c x :: tr, out)
  | Spawn task k =>
      let '(tr, out) := run rounds w k (S n) in
      (Spawned task :: tr, out)
  | Forever body => iterate (run rounds w body) rounds n
  end.

(** How a run goes on with [k] after the outcome [r] of a first part. *)
Definition continue {A B : Type} (rounds : nat) (w : world) (k : A -> io B)
    (n : nat) (r : list event * outcome A) : list event * outcome B :=
  match snd r with
  | Returned a =>
      let '(tr', out') := run rounds w (k a) (n + length (fst r))%nat in
      (fst r ++ tr', out')
  | Stopped t => (fst r, Stopped t)
  | Running => (fst r, Running)
  end.

(** *** Messages on a connection *)

Inductive message :=
| Int (n : Z)
| Bytes (b : list Byte.byte)
| Fd (fd : Z)
| Fds (fds : list Z)
| Str (s : string).

Inductive direction := Sent | Received.

(** The message a call moves over a descriptor, seen from the process. *)
Definition transfer (e : event) : option (Z * (direction * message)) :=
  match e with
  | Event c x =>
      match c in call X return X -> option (Z * (direction * message)) with
      | read_int fd => fun v => Some (fd, (Received, Int v))
      | write_int fd v => fun _ => Some (fd, (Sent, Int v))
      | xwrite fd b => fun _ => Some (fd, (Sent, Bytes b))
      | recv_fd fd => fun r => Some (fd, (Received, Fd r))
      | send_fd fd payload => fun _ => Some (fd, (Sent, Fd payload))
      | recv_fds fd => fun l => Some (fd, (Received, Fds l))
      | read_string fd => fun s => Some (fd, (Received, Str s))
      | _ => fun _ => None
      end x
  | Spawned _ => None
  end.

(** The exchange over descriptor [fd] in a trace. *)
Fixpoint exchange (fd : Z) (tr : list event) : list (direction * message) :=
  match tr with
  | [] => []
  | e :: rest =>
      match transfer e with
      | Some (fd', msg) =>
          if fd' =? fd then msg :: exchange fd rest else exchange fd rest
      | None => exchange fd rest
      end
  end.

(** What the process sends in a trace, with the descriptor it goes to. *)
Definition sent_message (e : event) : option (Z * message) :=
  match transfer e with
  | Some (fd, (Sent, msg)) => Some (fd, msg)
  | _ => None
  end.

Definition sent (tr : list event) : list (Z * message) := omap sent_message tr.

(** The descriptors closed, the tasks dispatched and the entry points called
    in a trace. *)
Definition closed_fd (e : event) : option Z :=
  match e with
  | Event c _ => match c with close fd => Some fd | _ => None end
  | Spawned _ => None
  end.

Definition spawned_task (e : event) : option (io unit) :=
  match e with
  | Spawned task => Some task
  | Event _ _ => None
  end.

Definition entry_called (e : event) : option (Z * Z) :=
  match e with
  | Event c _ =>
      match c with
      | companion_entry entry client => Some (entry, client)
      | _ => None
      end
  | Spawned _ => None
  end.

Definition closes (tr : list event) : list Z := omap closed_fd tr.
Definition dispatches (tr : list event) : list (io unit) := omap spawned_task tr.
Definition entry_calls (tr : list event) : list (Z * Z) := omap entry_called tr.

End Sys.

(** ** libc on the environment block *)

Module Libc.
Import Sanitizer Layout Sys.

(** The C string a [std::string] or a literal denotes: its characters up to
    the first NUL. *)
Fixpoint c_str (s : string) : string :=
  match s with
  | EmptyString => EmptyString
  | String c rest =>
      if Ascii.eqb c NUL then EmptyString else String c (c_str rest)
  end.

(** The C string stored at [p], read up to [limit] characters. *)
Fixpoint string_from (m : memory) (limit : nat) (p : ptr) : string :=
  match limit with
  | O => EmptyString
  | S limit' =>
      if Ascii.eqb (m p) NUL then EmptyString
      else String (m p) (string_from m limit' (p + 1))
  end.

(** [std::string(p)]: the C string at [p]; the allocated memory ends at
    [brk]. *)
Definition string_at (st : process) (p : ptr) : string :=
  string_from (mem st) (Z.to_nat (brk st - p)) p.

(** [getenv(name)]: the value of the first entry of [environ] whose name is
    [name], as a pointer into that entry. *)
Fixpoint find_value (m : memory) (env : list ptr) (name : string)
    : option ptr :=
  match env with
  | [] => None
  | p :: rest =>
      if p =? nullptr then None
      else match env_match m p name with
           | Some value => Some value
           | None => find_value m rest name
           end
  end.

Definition getenv (st : process) (name : string) : option ptr :=
  find_value (mem st) (environ st) name.

(** The slot of [name] in [environ] is pointed to [p]; without such a slot
    [p] is appended in a new array. *)
Fixpoint set_entry (m : memory) (env : list ptr) (name : string) (p : ptr)
    : list ptr :=
  match env with
  | [] => [p; nullptr]
  | q :: rest =>
      if q =? nullptr then [p; nullptr]
      else match env_match m q name with
           | Some _ => p :: rest
           | None => q :: set_entry m rest name p
           end
  end.

(** The string [name=value] that [setenv] stores. *)
Definition entry_of (name value : string) : string :=
  (c_str name ++ "=" ++ c_str value)%string.

(** [setenv(name, value, 1)]: a fresh string [name=value] is allocated and
    takes the slot of [name]. An empty name or one with ['='] is refused
    ([EINVAL]) and nothing changes. *)
Definition setenv (st : process) (name value : string) : process :=
  if String.eqb (c_str name) "" || negb (free_of "="%char (c_str name))
  then st
  else
    {| mem := store_string (entry_of name value) (brk st) (mem st);
       environ := set_entry (mem st) (environ st) (c_str name) (brk st);
       brk := brk st + slen (entry_of name value) + 1 |}.

End Libc.

(** ** The entry points of [main.cpp] *)

Module Zygisk.
Import Sanitizer Layout Sys Libc.
Local Open Scope string_scope.
Local Open Scope Z_scope.
Local Open Scope io_scope.

(** What the build fixes and this file takes from headers: the embedded
    loader ([embed.hpp]), the hijack path and the name of the runtime
    directory variable ([magisk.hpp]), the word size, [parse_int]
    ([base.hpp]) and the values of the request enumerators
    ([zygisk.hpp]). *)
Record build := {
  zygisk_ld : list Byte.byte;
  HIJACK_BIN : string;
  MAGISKTMP_ENV : string;
  LP64 : bool;
  parse_int : string -> Z;
  request_code : ZygiskRequest -> Z;
}.

(** Conversion of a [size_t] to the [int] that [write_int] takes. *)
Definition to_int (n : Z) : Z := (n + 2 ^ 31) mod 2 ^ 32 - 2 ^ 31.

Definition newline : string := String (ascii_of_nat 10) EmptyString.

(** What [%s] prints for a [char*] that may be null. Passing a null pointer
    is undefined in C; Android's libc prints [(null)]. *)
Definition percent_s (arg : option string) : string :=
  match arg with
  | Some s => s
  | None => "(null)"
  end.

(** [ssprintf(buf, sizeof(buf), "%d", n)]. *)
Definition decimal (n : Z) : string :=
  DecimalString.NilEmpty.string_of_int (Z.to_int n).

Section Programs.
Context (b : build).

(** [sizeof(zygisk_ld)] as [write_int] sends it. *)
Definition loader_size : Z := to_int (Z.of_nat (length (zygisk_ld b))).

(** Lines 135-146: is this the zygote? *)
Definition is_zygote (argv : list string) : io bool :=
  se <- perform selinux_enabled ;;
  if negb se then
    Ret (existsb (fun arg => String.eqb arg "--zygote") argv)
  else
    fp <- perform (open_file "/proc/self/attr/current" "r") ;;
    if fp =? 0 then Ret false
    else
      buf <- perform (fscanf_s fp) ;;
      Ret (String.eqb buf "u:r:zygote:s0").

(** Lines 148-183: not the zygote, get the real app_process through a
    forked helper. [argv[0]] is null when [argc] is 0. *)
Definition passthrough_branch (argv : list string) (st : process) : io Z :=
  fds <- perform (socketpair AF_UNIX (Z.lor SOCK_STREAM SOCK_CLOEXEC) 0) ;;
  pid <- perform fork_dont_care ;;
  if pid =? 0 then
    perform (fcntl (snd fds) F_SETFD 0) ;;
    exec (execlp "magisk"
            [""; "zygisk"; "passthrough"; decimal (snd fds);
             if LP64 b then "1" else "0"]) ;;
    exit (-1)
  else
    perform (close (snd fds)) ;;
    status <- perform (read_int (fst fds)) ;;
    if negb (status =? 0) then
      perform (fprintf stderr
                 ("Failed to connect magiskd, try umount " ++
                  percent_s (argv !! 0%nat) ++ " or reboot." ++ newline)) ;;
      Ret 1
    else
      app_proc_fd <- perform (recv_fd (fst fds)) ;;
      if app_proc_fd <? 0 then Ret 1
      else
        perform (close (fst fds)) ;;
        perform (fcntl app_proc_fd F_SETFD FD_CLOEXEC) ;;
        exec (fexecve app_proc_fd argv st) ;;
        Ret 1.

(** The value given to [LD_PRELOAD]: the hijack path, after the previous
    value and a ':' when there is one. *)
Definition preload_value (st : process) : string :=
  match getenv st "LD_PRELOAD" with
  | Some ld => string_at st ld ++ ":" ++ HIJACK_BIN b
  | None => HIJACK_BIN b
  end.

(** Lines 186-215: the body of [do { ... } while (false)]. It gives back the
    process as it is when the block is left, by [break] or by a failed
    [fexecve]. *)
Definition setup_block (socket : Z) (argv : list string) (st : process)
    : io process :=
  status <- perform (read_int socket) ;;
  if negb (status =? 0) then Ret st
  else
    (* Send over zygisk loader *)
    perform (write_int socket loader_size) ;;
    perform (xwrite socket (zygisk_ld b)) ;;
    app_proc_fd <- perform (recv_fd socket) ;;
    if app_proc_fd <? 0 then Ret st
    else
      tmp <- perform (read_string socket) ;;
      let st1 := setenv st "LD_PRELOAD" (preload_value st) in
      let st2 := setenv st1 (MAGISKTMP_ENV b) tmp in
      perform (close socket) ;;
      perform (fcntl app_proc_fd F_SETFD FD_CLOEXEC) ;;
      fp <- perform (xopen_file "/proc/self/attr/current" "w") ;;
      perform (fprintf (file_ptr fp) "u:r:init:s0") ;;
      match sanitize_environment_variables (mem st2) (environ st2) with
      | None => Stop Undefined
      | Some env =>
          let st3 := {| mem := mem st2; environ := env; brk := brk st2 |} in
          exec (fexecve app_proc_fd argv st3) ;;
          Ret st3
      end.

(** Lines 220-224: unmount and execute the original app_process. *)
Definition fallback (argv : list string) (st : process) : io Z :=
  buf <- perform (xreadlink "/proc/self/exe") ;;
  perform (xumount2 "/proc/self/exe" MNT_DETACH) ;;
  exec (execve buf argv st) ;;
  Ret 1.

(** Lines 185-224: the zygote asks the daemon to set it up. *)
Definition setup_branch (argv : list string) (st : process) : io Z :=
  socket <- perform (zygisk_request SETUP) ;;
  st' <- (if socket >=? 0 then
            st' <- setup_block socket argv st ;;
            perform (close socket) ;;
            Ret st'
          else Ret st) ;;
  fallback argv st'.


(** Lines 244-260: one module of the startup batch. *)
Definition load_module (fd : Z) : io Z :=
  s <- perform (fstat fd) ;;
  entry <- (if (fst s =? 0) && S_ISREG (st_mode (snd s)) then
              h <- perform (android_dlopen_ext "/jit-cache" RTLD_LAZY
                              ANDROID_DLEXT_USE_LIBRARY_FD fd) ;;
              if negb (h =? 0) then
                perform (dlsym h "zygisk_companion_entry")
              else
                msg <- perform dlerror ;;
                perform (LOGW ("Failed to dlopen zygisk module: " ++ msg ++
                               newline)) ;;
                Ret nullptr
            else Ret nullptr) ;;
  perform (close fd) ;;
  Ret entry.

(** [for (int fd : module_fds) { ...; modules.push_back(entry); ... }] *)
Fixpoint load_modules (module_fds : list Z) (modules : list Z)
    : io (list Z) :=
  match module_fds with
  | [] => Ret modules
  | fd :: rest =>
      entry <- load_module fd ;;
      load_modules rest (modules ++ [entry])
  end.

(** Lines 281-294: the closure given to [exec_task]. *)
Definition companion_task (entry client : Z) : io unit :=
  s1 <- perform (fstat client) ;;
  perform (companion_entry entry client) ;;
  s2 <- perform (fstat client) ;;
  if fst s2 =? 0 then
    if (st_dev (snd s1) =? st_dev (snd s2)) &&
       (st_ino (snd s1) =? st_ino (snd s2))
    then perform (close client) ;; Ret tt
    else Ret tt
  else Ret tt.

(** Lines 269-297: the body of [for (;;)]. *)
Definition serve (socket : Z) (modules : list Z) : io unit :=
  revents <- perform (poll socket POLLIN) ;;
  if negb (revents =? 0) && (Z.land revents POLLIN =? 0) then exit 0
  else
    client <- perform (recv_fd socket) ;;
    if client <? 0 then exit 0
    else
      module_id <- perform (read_int client) ;;
      if (module_id >=? 0) && (module_id <? Z.of_nat (length modules)) &&
         negb (nth (Z.to_nat module_id) modules nullptr =? nullptr)
      then
        exec_task (companion_task (nth (Z.to_nat module_id) modules nullptr)
                                  client)
      else
        perform (close client) ;; Ret tt.

(** Lines 239-264: the registry is built, then acknowledged. *)
Definition startup (socket : Z) : io (list Z) :=
  module_fds <- perform (recv_fds socket) ;;
  modules <- load_modules module_fds [] ;;
  perform (write_int socket 0) ;;
  Ret modules.

Definition zygiskd (socket : Z) : io unit :=
  uid <- perform getuid ;;
  refused <- (if negb (uid =? 0) then Ret true
              else r <- perform (fcntl socket F_GETFD 0) ;; Ret (r <? 0)) ;;
  if refused : bool then exit (-1)
  else
    perform (set_nice_name (if LP64 b then "zygiskd64" else "zygiskd32")) ;;
    perform (LOGI (if LP64 b then "* Launching zygiskd64" ++ newline
                   else "* Launching zygiskd32" ++ newline)) ;;
    modules <- startup socket ;;
    Forever (serve socket modules).

(** Lines 308-328: the passthrough helper. *)
Definition passthrough (client is_64_bit : Z) : io Z :=
  r <- perform (fcntl client F_GETFD 0) ;;
  if r <? 0 then Ret 1
  else
    magiskd <- perform (connect_daemon ZYGISK_PASSTHROUGH) ;;
    if magiskd >=? 0 then
      perform (write_int magiskd (request_code b PASSTHROUGH)) ;;
      perform (write_int magiskd is_64_bit) ;;
      status <- perform (read_int magiskd) ;;
      if negb (status =? 0) then
        perform (write_int client 1) ;;
        Ret 0
      else
        perform (write_int client 0) ;;
        real_app_fd <- perform (recv_fd magiskd) ;;
        perform (send_fd client real_app_fd) ;;
        Ret 0
    else
      perform (write_int client 1) ;;
      Ret 0.

Definition zygisk_main (argv : list string) : io Z :=
  perform android_logging ;;
  if (length argv =? 3)%nat && String.eqb (nth 1 argv "") "companion" then
    zygiskd (parse_int b (nth 2 argv "")) ;;
    Ret 0
  else if (length argv =? 4)%nat && String.eqb (nth 1 argv "") "passthrough"
  then
    passthrough (parse_int b (nth 2 argv "")) (parse_int b (nth 3 argv ""))
  else Ret 0.

End Programs.

End Zygisk.

(** ** Shapes of behaviour, for stating what the entry points do *)

Module Behaviour.
Import Sanitizer Layout Sys Libc Zygisk.
Local Open Scope string_scope.
Local Open Scope Z_scope.

(** The fallback of [app_process_main]: [tail] is what the process does and
    [out] how it ends, the image being executed with [argv] and the
    process [st]. *)
Definition falls_back (argv : list string) (st : process)
    (tail : list event) (out : outcome Z) : Prop :=
  exists buf rc res,
    tail = [Event (xreadlink "/proc/self/exe") buf;
            Event (xumount2 "/proc/self/exe" MNT_DETACH) rc;
            Event (execve buf argv st) res] /\
    out = match res with
          | ImageReplaced => Stopped Replaced
          | ExecFailed _ => Returned 1
          end.

(** What loading the module behind [fd] looks like, and the registry slot
    [entry] it yields. *)
Definition slot_trace (fd entry : Z) (tr : list event) : Prop :=
  exists rc s closed,
    ((rc <> 0 \/ S_ISREG (st_mode s) = false) /\ entry = nullptr /\
     tr = [Event (fstat fd) (rc, s); Event (close fd) closed]) \/
    (rc = 0 /\ S_ISREG (st_mode s) = true /\
     exists h,
       (h = 0 /\ entry = nullptr /\
        exists msg,
          tr = [Event (fstat fd) (rc, s);
                Event (android_dlopen_ext "/jit-cache" RTLD_LAZY
                         ANDROID_DLEXT_USE_LIBRARY_FD fd) h;
                Event dlerror msg;
                Event (LOGW ("Failed to dlopen zygisk module: " ++ msg ++
                             newline)) tt;
                Event (close fd) closed]) \/
       (h <> 0 /\
        tr = [Event (fstat fd) (rc, s);
              Event (android_dlopen_ext "/jit-cache" RTLD_LAZY
                       ANDROID_DLEXT_USE_LIBRARY_FD fd) h;
              Event (dlsym h "zygisk_companion_entry") entry;
              Event (close fd) closed])).

(** The startup batch [fds] yields the registry [modules] with the trace
    [tr]: one slot per descriptor, in order. *)
Inductive registry_trace : list Z -> list Z -> list event -> Prop :=
| registry_nil : registry_trace [] [] []
| registry_cons fd entry tr fds modules rest :
    slot_trace fd entry tr ->
    registry_trace fds modules rest ->
    registry_trace (fd :: fds) (entry :: modules) (tr ++ rest).

(** The process once [LD_PRELOAD] is set, once the runtime directory
    variable is set too, and the entry that carries the preload. *)
Definition with_preload (b : build) (st : process) : process :=
  setenv st "LD_PRELOAD" (preload_value b st).

Definition prepared (b : build) (st : process) (tmp : string) : process :=
  setenv (with_preload b st) (MAGISKTMP_ENV b) tmp.


(** The exchange the other way round: after status 0 the loader payload
    comes from the daemon, length first, then the descriptor and the path. *)
Definition payload_from_daemon (x : list (direction * message)) : Prop :=
  exists len payload fd path,
    Z.of_nat (length payload) = len /\
    x = [(Received, Int 0); (Received, Int len); (Received, Bytes payload);
         (Received, Fd fd); (Received, Str path)].

(** The prefix rule read without exception: a well-formed entry whose name
    stands in a strict-prefix relation with a deny-listed name survives. *)
Definition prefix_rule_without_exception : Prop :=
  forall (m : memory) (env env' : list ptr) (p : ptr) (name d : string),
    In nullptr env -> In p (until_null env) ->
    well_formed m p -> name_is m p name = true ->
    In d UNSAFE_VARIABLE_NAMES ->
    strict_prefix d name = true \/ strict_prefix name d = true ->
    sanitize_environment_variables m env = Some env' ->
    In p (until_null env').

End Behaviour.

(** ** Concrete inputs *)

Module Examples.
Import Sanitizer Layout Sys Libc Zygisk.
Local Open Scope string_scope.
Local Open Scope Z_scope.

(** An environment that lets every call succeed: the daemon answers status
    0, hands out descriptor 7 and the path [/data/x]; files are regular and
    modules load. *)
Definition obliging (X : Type) (c : call X) : X :=
  match c in call X return X with
  | android_logging => tt
  | selinux_enabled => true
  | open_file _ _ => 10
  | xopen_file _ _ => 11
  | fscanf_s _ => "u:r:zygote:s0"
  | fprintf _ _ => tt
  | socketpair _ _ _ => (3, 4)
  | fork_dont_care => 1
  | fcntl _ _ _ => 0
  | execlp _ _ => ExecFailed (-1)
  | fexecve _ _ _ => ImageReplaced
  | execve _ _ _ => ImageReplaced
  | close _ => 0
  | read_int _ => 0
  | write_int _ _ => tt
  | xwrite _ buf => Z.of_nat (length buf)
  | recv_fd _ => 7
  | send_fd _ _ => 0
  | recv_fds _ => [20; 21]
  | read_string _ => "/data/x"
  | xreadlink _ => "/system/bin/app_process64"
  | xumount2 _ _ => 0
  | zygisk_request _ => 5
  | connect_daemon _ => 6
  | getuid => 0
  | set_nice_name _ => tt
  | LOGI _ => tt
  | LOGW _ => tt
  | fstat _ => (0, {| st_dev := 1; st_ino := 100; st_mode := S_IFREG |})
  | android_dlopen_ext _ _ _ _ => 4096
  | dlsym _ _ => 8192
  | dlerror => ""
  | poll _ _ => POLLIN
  | companion_entry _ _ => tt
  end.

Definition obliging_world : world := fun _ X c => obliging X c.

(** The same, but no descriptor arrives. *)
Definition no_descriptor_world : world :=
  fun _ X c =>
    match c in call X return X with
    | recv_fd _ => -1
    | c' => obliging _ c'
    end.

(** The module closes the client descriptor and the number is taken by
    another connection: the second [fstat] (call number 2) sees another
    inode. *)
Definition reused_descriptor_world : world :=
  fun n X c =>
    match c in call X return X with
    | fstat _ =>
        (0, {| st_dev := 1; st_ino := if (n =? 2)%nat then 200 else 100;
               st_mode := 49152 |})
    | c' => obliging _ c'
    end.

Fixpoint parse_digits (s : string) (acc : Z) : Z :=
  match s with
  | EmptyString => acc
  | String c rest =>
      let d := Z.of_nat (nat_of_ascii c) - 48 in
      if (0 <=? d) && (d <=? 9) then parse_digits rest (10 * acc + d) else -1
  end.

Definition example_build : build :=
  {| zygisk_ld := repeat Byte.x7f 12;
     HIJACK_BIN := "/system/bin/appwidget";
     MAGISKTMP_ENV := "MAGISKTMP";
     LP64 := true;
     parse_int := fun s => parse_digits s 0;
     request_code := fun r => match r with SETUP => 0 | PASSTHROUGH => 5 end |}.

Definition example_process : process :=
  {| mem := example_memory; environ := example_environ; brk := 65536 |}.



End Examples.

(** ** How runs end, and two more scenarios *)

Module Outcomes.
Import Sanitizer Layout Sys Libc Zygisk.
Local Open Scope Z_scope.


(** A task made from the registry [modules]: the entry of a populated slot,
    with a client descriptor. *)
Definition registered_task (modules : list Z) (task : io unit) : Prop :=
  exists id entry client,
    modules !! id = Some entry /\ entry <> nullptr /\ 0 <= client /\
    task = companion_task entry client.

End Outcomes.

Module Scenarios.
Import Sanitizer Layout Sys Libc Zygisk Examples.
Local Open Scope Z_scope.


(** A process whose environment does not set [LD_PRELOAD]. *)
Definition bare_process : process :=
  {| mem := example_memory; environ := [4096; 0]; brk := 65536 |}.

End Scenarios.

(** ** The entry point of [init.cpp] *)

Module Init.
Local Open Scope Z_scope.

(** [enum xz_ret] of [xz.h]. *)
Inductive xz_ret :=
| XZ_OK
| XZ_STREAM_END
| XZ_UNSUPPORTED_CHECK
| XZ_MEM_ERROR
| XZ_MEMLIMIT_ERROR
| XZ_FORMAT_ERROR
| XZ_OPTIONS_ERROR
| XZ_DATA_ERROR
| XZ_BUF_ERROR.

Inductive xz_mode := XZ_SINGLE | XZ_PREALLOC | XZ_DYNALLOC.

(** [ret != XZ_OK && ret != XZ_STREAM_END] *)
Definition xz_failed (ret : xz_ret) : bool :=
  match ret with
  | XZ_OK | XZ_STREAM_END => false
  | _ => true
  end.

(** What [xz_dec_run] leaves in [struct xz_buf]: the result, the new
    [in_pos], and the bytes [out[0 .. out_pos)]. *)
Record xz_step := {
  ret : xz_ret;
  in_pos : Z;
  out : list Byte.byte;
}.

(** [struct BootConfig], the fields [main] reads. *)
Record BootConfig := {
  skip_initramfs : bool;
  force_normal_boot : bool;
}.

(** A call into code that may hand the process over to another image: it
    comes back, or the process is gone. *)
Inductive control := Comes_back | Gone.

(** The classes of [init.hpp] whose [start] is defined elsewhere. *)
Inductive init_class :=
| SecondStageInit
| LegacySARInit
| FirstStageInit
| RootFSInit.

Definition O_WRONLY : Z := 1.
Definition O_CREAT : Z := 64.        (* 0100 *)
Definition O_TRUNC : Z := 512.       (* 01000 *)
Definition O_CLOEXEC : Z := 524288.  (* 02000000 *)
Definition F_OK : Z := 0.

(** The calls of [init.cpp]. A [char*] argument that may be null is an
    [option string]. [start_init c argv config] is [new c(argv, &config)]
    followed by [start()] on the new object. *)
Inductive call : Type -> Type :=
| umask (mask : Z) : call Z
| basename (path : option string) : call string
| magisk_proxy_main (argv : list string) : call Z
| xopen (path : option string) (flags mode : Z) : call Z
| close (fd : Z) : call Z
| write (fd : Z) (buf : list Byte.byte) : call Z
| xz_crc32_init : call unit
| xz_dec_init (mode : xz_mode) (dict_max : Z) : call Z
| xz_dec_run (dec : Z) (input : list Byte.byte) (in_pos : Z) : call xz_step
| getpid : call Z
| load_kernel_info : call BootConfig
| access (path : string) (mode : Z) : call Z
| check_two_stage : call bool
| start_init (c : init_class) (argv : list string)
    (config : option BootConfig) : call control
| LOGD (msg : string) : call unit
| backup_init : call string
| rename (old new : string) : call Z
| rm_rf (path : string) : call unit
| exec_init : call control.

(** How the process ends without returning from [main]. *)
Inductive termination :=
| Exited (status : Z)   (* exit(status) *)
| Handed_over.          (* a call that did not come back *)

(** Programs: a tree of calls; [Loop body s k] is [do { body } while (...)]
    on the loop state [s], followed by [k]. The body says how the loop goes
    on: [inl s'] for another iteration, [inr t] to leave it with [t]. *)
Inductive io : Type -> Type :=
| Ret {R : Type} (r : R) : io R
| Stop {R : Type} (t : termination) : io R
| Vis {R X : Type} (c : call X) (k : X -> io R) : io R
| Loop {R S T : Type} (body : S -> io (S + T)) (s : S) (k : T -> io R) : io R.

Fixpoint bind {A B : Type} (p : io A) : (A -> io B) -> io B :=
  match p in io A' return (A' -> io B) -> io B with
  | Ret r => fun k => k r
  | Stop t => fun _ => Stop t
  | Vis c h => fun k => Vis c (fun x => bind (h x) k)
  | Loop body s h => fun k => Loop body s (fun t => bind (h t) k)
  end.

Definition perform {X : Type} (c : call X) : io X := Vis c Ret.

Definition exit {R : Type} (status : Z) : io R := Stop (Exited status).

(** A call that may not come back. *)
Definition hand_over (c : call control) : io unit :=
  Vis c (fun r => match r with
                  | Comes_back => Ret tt
                  | Gone => Stop Handed_over
                  end).

Declare Scope init_scope.
Delimit Scope init_scope with init.
Notation "x <- p ;; q" := (bind p (fun x => q))
  (at level 100, p at next level, q at level 200, right associativity)
  : init_scope.
Notation "p ;; q" := (bind p (fun _ => q))
  (at level 100, q at level 200, right associativity) : init_scope.

Inductive event :=
| Event {X : Type} (c : call X) (x : X).

Inductive outcome (R : Type) :=
| Returned (r : R)
| Stopped (t : termination)
| Running.   (* still inside the loop when the observation ends *)
Arguments Returned {R} r.
Arguments Stopped {R} t.
Arguments Running {R}.

Definition world := nat -> forall X : Type, call X -> X.

(** The loop: at most [r] iterations are observed. *)
Fixpoint iterate {S T : Type}
    (body : S -> nat -> list event * outcome (S + T))
    (r : nat) (s : S) (n : nat) : list event * outcome T :=
  match r with
  | O => ([], Running)
  | Datatypes.S r' =>
      let '(tr, out) := body s n in
      match out with
      | Returned (inl s') =>
          let '(tr', out') := iterate body r' s' (n + length tr)%nat in
          (tr ++ tr', out')
      | Returned (inr t) => (tr, Returned t)
      | Stopped t => (tr, Stopped t)
      | Running => (tr, Running)
      end
  end.

(** [run rounds w p n]: the trace and outcome of [p] in [w], its first call
    being call number [n]; a loop is observed for at most [rounds]
    iterations. *)
Fixpoint run {R : Type} (rounds : nat) (w : world) (p : io R) (n : nat)
    {struct p} : list event * outcome R :=
  match p in io R' return list event * outcome R' with
  | Ret r => ([], Returned r)
  | Stop t => ([], Stopped t)
  | Vis c k =>
      let x := w n _ c in
      let '(tr, out) := run rounds w (k x) (Datatypes.S n) in
      (Event c x :: tr, out)
  | Loop body s k =>
      let '(tr, out) :=
        iterate (fun s' n' => run rounds w (body s') n') rounds s n in
      match out with
      | Returned t =>
          let '(tr', out') := run rounds w (k t) (n + length tr)%nat in
          (tr ++ tr', out')
      | Stopped t => (tr, Stopped t)
      | Running => (tr, Running)
      end
  end.

(** What a trace writes to [fd], what the decoder produced in the runs that
    did not fail, and the descriptors closed. *)
Definition written_by (fd : Z) (e : event) : list Byte.byte :=
  match e with
  | Event c _ =>
      match c with
      | write fd' buf => if fd' =? fd then buf else []
      | _ => []
      end
  end.

Definition decoded_by (e : event) : list Byte.byte :=
  match e with
  | Event c x =>
      match c in call X return X -> list Byte.byte with
      | xz_dec_run _ _ _ => fun b => if xz_failed (ret b) then [] else out b
      | _ => fun _ => []
      end x
  end.

Definition closed_by (e : event) : list Z :=
  match e with
  | Event c _ => match c with close fd => [fd] | _ => [] end
  end.

(** A decoder run after which the loop of [unxz] goes on: no failure, and
    input left. *)
Definition goes_on (size : Z) (e : event) : bool :=
  match e with
  | Event c x =>
      match c in call X return X -> bool with
      | xz_dec_run _ _ _ =>
          fun b => negb (xz_failed (ret b)) && negb (in_pos b =? size)
      | _ => fun _ => true
      end x
  end.

Definition written (fd : Z) (tr : list event) : list Byte.byte :=
  concat (map (written_by fd) tr).
Definition decoded (tr : list event) : list Byte.byte :=
  concat (map decoded_by tr).
Definition closed (tr : list event) : list Z := concat (map closed_by tr).

Local Open Scope init_scope.

Section Programs.
(** [manager_xz] of [binaries.h]. *)
Context (manager_xz : list Byte.byte).

(** The body of the [do ... while (b.in_pos != size)] of [unxz]; the loop
    state is [b.in_pos], and [size] is the length of [buf], as in the one
    call of this file. *)
Definition unxz_step (fd dec : Z) (buf : list Byte.byte) (pos : Z)
    : io (Z + bool) :=
  b <- perform (xz_dec_run dec buf pos) ;;
  if xz_failed (ret b) then Ret (inr false)
  else
    perform (write fd (out b)) ;;
    if negb (in_pos b =? Z.of_nat (length buf)) then Ret (inl (in_pos b))
    else Ret (inr true).

Definition unxz (fd : Z) (buf : list Byte.byte) : io bool :=
  perform xz_crc32_init ;;
  dec <- perform (xz_dec_init XZ_DYNALLOC (Z.shiftl 1 26)) ;;
  Loop (unxz_step fd dec buf) 0 Ret.

Definition dump_manager (path : option string) (mode : Z) : io Z :=
  fd <- perform (xopen path
                   (Z.lor (Z.lor (Z.lor O_WRONLY O_CREAT) O_TRUNC) O_CLOEXEC)
                   mode) ;;
  if fd <? 0 then Ret 1
  else
    ok <- unxz fd manager_xz ;;
    if negb ok then Ret 1
    else
      perform (close fd) ;;
      Ret 0.

(** [RecoveryInit::start] *)
Definition RecoveryInit_start : io unit :=
  perform (LOGD ("Ramdisk is recovery, abort" ++
                 String (ascii_of_nat 10) EmptyString)%string) ;;
  backup <- perform backup_init ;;
  perform (rename backup "/init") ;;
  perform (rm_rf "/.backup") ;;
  hand_over exec_init.

(** The [init] object chosen by [main]; [RecoveryInit] has the constructor
    of [BaseInit], which keeps the two arguments. *)
Inductive chosen_init :=
| External (c : init_class) (config : option BootConfig)
| RecoveryInit (config : BootConfig).

Definition start (init : chosen_init) (argv : list string) : io unit :=
  match init with
  | External c config => hand_over (start_init c argv config)
  | RecoveryInit _ => RecoveryInit_start
  end.

(** [argv[i] == s] for [i < argc]. *)
Definition arg_is (argv : list string) (i : nat) (s : string) : bool :=
  match argv !! i with
  | Some a => String.eqb a s
  | None => false
  end.

(** Lines 78-94: the choice of the [init] object. The object is built
    where it is chosen and started afterwards; with nothing in between, the
    two are one call here. *)
Definition choose_init (argv : list string) : io chosen_init :=
  if (1 <? length argv)%nat && arg_is argv 1 "selinux_setup" then
    Ret (External SecondStageInit None)
  else
    config <- perform load_kernel_info ;;
    if skip_initramfs config then
      Ret (External LegacySARInit (Some config))
    else if force_normal_boot config then
      Ret (External FirstStageInit (Some config))
    else
      sbin <- perform (access "/sbin/recovery" F_OK) ;;
      recovery <- (if sbin =? 0 then Ret true
                   else sys <- perform (access "/system/bin/recovery" F_OK) ;;
                        Ret (sys =? 0)) ;;
      if recovery : bool then Ret (RecoveryInit config)
      else
        two_stage <- perform check_two_stage ;;
        if two_stage : bool then Ret (External FirstStageInit (Some config))
        else Ret (External RootFSInit (Some config)).

Definition main (argv : list string) : io Z :=
  perform (umask 0) ;;
  name <- perform (basename (argv !! 0%nat)) ;;
  if String.eqb name "magisk" then perform (magisk_proxy_main argv)
  else if (1 <? length argv)%nat && arg_is argv 1 "-x" then
    if (2 <? length argv)%nat && arg_is argv 2 "manager" then
      dump_manager (argv !! 3%nat) 420 (* 0644 *)
    else Ret 1
  else
    pid <- perform getpid ;;
    if negb (pid =? 1) then Ret 1
    else
      init <- choose_init argv ;;
      (* Run the main routine *)
      start init argv ;;
      exit 1.

End Programs.

(** *** A scenario: first boot as pid 1 *)

(** The decoder takes the input in two runs of two output bytes each; there
    is no recovery in [/sbin], but one in [/system/bin]. *)
Definition quiet (X : Type) (c : call X) : X :=
  match c in call X return X with
  | umask _ => 18
  | basename _ => "init"%string
  | magisk_proxy_main _ => 0
  | xopen _ _ _ => 3
  | close _ => 0
  | write _ buf => Z.of_nat (length buf)
  | xz_crc32_init => tt
  | xz_dec_init _ _ => 4096
  | xz_dec_run _ input pos =>
      if pos =? 0 then
        {| ret := XZ_OK; in_pos := 1; out := [Byte.x01; Byte.x02] |}
      else
        {| ret := XZ_STREAM_END; in_pos := Z.of_nat (length input);
           out := [Byte.x03; Byte.x04] |}
  | getpid => 1
  | load_kernel_info =>
      {| skip_initramfs := false; force_normal_boot := false |}
  | access path _ => if String.eqb path "/sbin/recovery" then -1 else 0
  | check_two_stage => false
  | start_init _ _ _ => Gone
  | LOGD _ => tt
  | backup_init => "/.backup/init"%string
  | rename _ _ => 0
  | rm_rf _ => tt
  | exec_init => Gone
  end.

Definition first_boot : world := fun _ X c => quiet X c.

(** The same, but the second run of the decoder finds corrupt data. *)
Definition corrupt_payload : world :=
  fun _ X c =>
    match c in call X return X with
    | xz_dec_run _ input pos =>
        if pos =? 0 then
          {| ret := XZ_OK; in_pos := 1; out := [Byte.x01; Byte.x02] |}
        else
          {| ret := XZ_DATA_ERROR; in_pos := 2; out := [Byte.x03] |}
    | c' => quiet _ c'
    end.

Definition example_payload : list Byte.byte :=
  [Byte.xfd; Byte.x37; Byte.x7a; Byte.x58].

End Init.

(** * Facts *)

Import Sanitizer Layout Sys Libc Zygisk Behaviour Examples.

(** * Facts about the sanitizer *)

(** One run of the scanning loop of [is_valid_environment_variable]. *)
Lemma scan_env_spec m name fuel :
  forall pos fe pos' fe',
    0 <= pos -> MAX_ENV_LEN - pos <= Z.of_nat fuel ->
    scan_env m fuel name pos fe = (pos', fe') ->
    pos <= pos' /\
    (pos <= MAX_ENV_LEN -> pos' <= MAX_ENV_LEN) /\
    (forall i, pos <= i < pos' -> deref m name i <> NUL) /\
    (pos' < MAX_ENV_LEN -> deref m name pos' = NUL) /\
    (0 <= fe -> fe' = fe) /\
    (fe < 0 ->
       (fe' = fe /\ forall i, pos <= i < pos' -> deref m name i <> "="%char) \/
       (pos <= fe' < pos' /\ deref m name fe' = "="%char /\
        forall i, pos <= i < fe' -> deref m name i <> "="%char)).
Proof.
  induction fuel as [|fuel IH]; intros pos fe pos' fe' Hpos Hfuel Hscan.
  - simpl in Hscan. injection Hscan as <- <-.
    repeat split; try lia. intros _. left. split; [reflexivity | lia].
  - simpl in Hscan.
    destruct (pos <? MAX_ENV_LEN) eqn:Hlt.
    2:{ injection Hscan as <- <-. apply Z.ltb_ge in Hlt.
        repeat split; try lia. intros _. left. split; [reflexivity | lia]. }
    apply Z.ltb_lt in Hlt.
    destruct (Ascii.eqb (deref m name pos) NUL) eqn:Hnul.
    { injection Hscan as <- <-. apply Ascii.eqb_eq in Hnul.
      repeat split; try lia; auto. intros _. left. split; [reflexivity | lia]. }
    apply Ascii.eqb_neq in Hnul.
    apply IH in Hscan; [|lia|lia].
    destruct Hscan as (H1 & H2 & H3 & H4 & H5 & H6).
    assert (Hstep : forall (P : Z -> Prop), P pos ->
              (forall i, pos + 1 <= i < pos' -> P i) ->
              forall i, pos <= i < pos' -> P i).
    { intros P Hp Hr i Hi. destruct (Z.eq_dec i pos) as [->|]; [exact Hp|].
      apply Hr. lia. }
    repeat split; try lia; auto.
    + apply (Hstep (fun i => deref m name i <> NUL)); auto.
    + intros Hfe. destruct (Ascii.eqb (deref m name pos) "=") eqn:Heq; simpl in *.
      * assert ((fe <? 0) = false) as Hn by (apply Z.ltb_ge; lia).
        rewrite Hn in H5. apply H5. lia.
      * apply H5. lia.
    + intros Hfe. destruct (Ascii.eqb (deref m name pos) "=") eqn:Heq; simpl in *.
      * assert ((fe <? 0) = true) as Hn by (apply Z.ltb_lt; lia).
        rewrite Hn in H5, H6. apply Ascii.eqb_eq in Heq.
        right. rewrite (H5 Hpos). repeat split; try lia; auto.
      * apply Ascii.eqb_neq in Heq.
        destruct (H6 Hfe) as [[-> Hno]|(Hr & He & Hno)].
        -- left. split; [reflexivity|].
           apply (Hstep (fun i => deref m name i <> "="%char)); auto.
        -- right. repeat split; try lia; auto.
           intros i Hi. destruct (Z.eq_dec i pos) as [->|]; [exact Heq|].
           apply Hno. lia.
Qed.

(** The scan from the start of an entry, with the fuel the code uses. *)
Lemma scan_env_start m name pos' fe' :
  scan_env m (Z.to_nat MAX_ENV_LEN) name 0 (-1) = (pos', fe') ->
  0 <= pos' <= MAX_ENV_LEN /\
  (forall i, 0 <= i < pos' -> deref m name i <> NUL) /\
  (pos' < MAX_ENV_LEN -> deref m name pos' = NUL) /\
  ((fe' = -1 /\ forall i, 0 <= i < pos' -> deref m name i <> "="%char) \/
   (0 <= fe' < pos' /\ first_equal_at m name fe')).
Proof.
  intros H. apply scan_env_spec in H; [|lia|].
  2:{ rewrite Z2Nat.id; unfold MAX_ENV_LEN; lia. }
  destruct H as (H1 & H2 & H3 & H4 & _ & H6).
  assert (0 <= MAX_ENV_LEN) by (unfold MAX_ENV_LEN; lia).
  repeat split; try lia; auto.
  destruct H6 as [[-> Hno]|(Hr & He & Hno)]; [lia| |].
  - left. auto.
  - right. unfold first_equal_at. repeat split; try lia; auto.
Qed.

Lemma is_valid_well_formed m p :
  is_valid_environment_variable m p = true <->
  p <> nullptr /\ well_formed m p.
Proof.
  unfold is_valid_environment_variable.
  destruct (p =? nullptr) eqn:Hp.
  { apply Z.eqb_eq in Hp. split; [discriminate | intros [? _]; contradiction]. }
  apply Z.eqb_neq in Hp.
  destruct (scan_env m (Z.to_nat MAX_ENV_LEN) p 0 (-1)) as [pos fe] eqn:Hscan.
  apply scan_env_start in Hscan.
  destruct Hscan as (Hr & Hnn & Hz & Heq).
  split.
  - destruct (pos >=? MAX_ENV_LEN) eqn:Hge; [discriminate|].
    destruct (fe <? 1) eqn:Hfe; [discriminate|]. intros _.
    assert (pos < MAX_ENV_LEN) by lia. apply Z.ltb_ge in Hfe.
    split; [exact Hp|]. exists pos, fe.
    destruct Heq as [[-> _]|[Hr' Hf]]; [lia|].
    unfold terminates_at. repeat split; try lia; auto; apply Hf.
  - intros (_ & n & k & (Hn0 & Hnz & Hnn') & Hlt & (Hk0 & Hke & Hkn) & Hk).
    assert (pos = n) as ->.
    { destruct (Z.lt_trichotomy pos n) as [Hc|[Hc|Hc]]; [|exact Hc|].
      - exfalso. apply (Hnn' pos); [lia|]. apply Hz. lia.
      - exfalso. apply (Hnn n); [lia|]. exact Hnz. }
    assert (fe = k) as ->.
    { destruct Heq as [[-> Hno]|[Hr' (Hf0 & Hfe & Hfn)]].
      - exfalso. apply (Hno k); [lia | exact Hke].
      - destruct (Z.lt_trichotomy fe k) as [Hc|[Hc|Hc]]; [|exact Hc|].
        + exfalso. apply (Hkn fe); [lia | exact Hfe].
        + exfalso. apply (Hfn k); [lia | exact Hke]. }
    replace (n >=? MAX_ENV_LEN) with false by (symmetry; lia).
    replace (k <? 1) with false by (symmetry; lia). reflexivity.
Qed.




(** ** [env_match] and the deny list *)

Lemma env_match_from_prefix m p d : forall i,
  free_of NUL d = true ->
  (exists q, env_match_from m p d i = Some q) <->
  has_prefix m (p + i) (d ++ "=")%string = true.
Proof.
  induction d as [|c d IH]; intros i Hfree; simpl.
  - unfold deref. destruct (Ascii.eqb (m (p + i)) "="); simpl;
      split; eauto; try discriminate; intros [q Hq]; discriminate.
  - simpl in Hfree. apply andb_true_iff in Hfree as [Hc Hd].
    apply negb_true_iff in Hc. rewrite Hc. unfold deref.
    destruct (Ascii.eqb (m (p + i)) c); simpl.
    + rewrite IH by exact Hd. rewrite Z.add_assoc. reflexivity.
    + split; [intros [q Hq]|]; discriminate.
Qed.

Lemma deny_list_clean :
  forallb (fun d => free_of NUL d && free_of "="%char d) UNSAFE_VARIABLE_NAMES
  = true.
Proof. vm_compute. reflexivity. Qed.

Lemma deny_listed_clean d :
  In d UNSAFE_VARIABLE_NAMES -> free_of NUL d = true /\ free_of "="%char d = true.
Proof.
  intros Hin. pose proof deny_list_clean as H.
  rewrite forallb_forall in H. apply H in Hin.
  apply andb_true_iff in Hin. exact Hin.
Qed.

Lemma is_unsafe_iff m p :
  is_unsafe_environment_variable m p = true <->
  exists d, In d UNSAFE_VARIABLE_NAMES /\ name_is m p d = true.
Proof.
  unfold is_unsafe_environment_variable. rewrite existsb_exists.
  split; intros (d & Hin & Hd); exists d; (split; [exact Hin|]).
  - destruct (deny_listed_clean d Hin) as [Hn He].
    unfold name_is. rewrite He. simpl.
    replace p with (p + 0) by lia. apply env_match_from_prefix; [exact Hn|].
    unfold env_match in Hd. destruct (env_match_from m p d 0); eauto; discriminate.
  - destruct (deny_listed_clean d Hin) as [Hn He].
    unfold name_is in Hd. apply andb_true_iff in Hd as [_ Hd].
    replace p with (p + 0) in Hd by lia.
    apply env_match_from_prefix in Hd; [|exact Hn].
    destruct Hd as [q Hq]. unfold env_match. rewrite Hq. reflexivity.
Qed.

(** The name of an entry is unique. *)
Lemma has_prefix_name_unique m a : forall p b,
  free_of "="%char a = true -> free_of "="%char b = true ->
  has_prefix m p (a ++ "=")%string = true ->
  has_prefix m p (b ++ "=")%string = true ->
  a = b.
Proof.
  induction a as [|c a IH]; intros p [|d b] Ha Hb Hpa Hpb; simpl in *.
  - reflexivity.
  - exfalso. apply andb_true_iff in Hpa as [Hpa _], Hpb as [Hpb _], Hb as [Hb _].
    apply Ascii.eqb_eq in Hpa, Hpb. apply negb_true_iff, Ascii.eqb_neq in Hb.
    congruence.
  - exfalso. apply andb_true_iff in Hpa as [Hpa _], Hpb as [Hpb _], Ha as [Ha _].
    apply Ascii.eqb_eq in Hpa, Hpb. apply negb_true_iff, Ascii.eqb_neq in Ha.
    congruence.
  - apply andb_true_iff in Hpa as [Hpa Hpa'], Hpb as [Hpb Hpb'],
      Ha as [_ Ha], Hb as [_ Hb].
    apply Ascii.eqb_eq in Hpa, Hpb. f_equal; [congruence|].
    eapply IH; eauto.
Qed.

Lemma name_is_unique m p a b :
  name_is m p a = true -> name_is m p b = true -> a = b.
Proof.
  unfold name_is. intros Ha Hb.
  apply andb_true_iff in Ha as [Ha Ha'], Hb as [Hb Hb'].
  eapply has_prefix_name_unique; eauto.
Qed.

(** Every entry with an ['='] has a name: the characters before the first
    one. *)
Lemma chars_at_name m n : forall p,
  m (p + Z.of_nat n) = "="%char ->
  (forall i, 0 <= i < Z.of_nat n -> m (p + i) <> "="%char) ->
  name_is m p (chars_at m p n) = true.
Proof.
  unfold name_is.
  induction n as [|n IH]; intros p Heq Hno.
  - simpl in *. rewrite Z.add_0_r in Heq. rewrite Heq. reflexivity.
  - cbn [chars_at free_of has_prefix append].
    assert (H0 : m p <> "="%char).
    { rewrite <- (Z.add_0_r p). apply Hno. lia. }
    apply Ascii.eqb_neq in H0. rewrite H0, Ascii.eqb_refl. simpl.
    apply IH.
    + rewrite <- Heq. f_equal. lia.
    + intros i Hi. replace (p + 1 + i) with (p + (i + 1)) by lia.
      apply Hno. lia.
Qed.

Lemma well_formed_has_name m p :
  well_formed m p -> exists name, name_is m p name = true.
Proof.
  intros (n & k & _ & _ & (Hk0 & Heq & Hno) & _).
  exists (chars_at m p (Z.to_nat k)). unfold deref in *.
  apply chars_at_name; rewrite Z2Nat.id by lia; assumption.
Qed.

Lemma is_unsafe_name m p name :
  name_is m p name = true ->
  (is_unsafe_environment_variable m p = true <-> In name UNSAFE_VARIABLE_NAMES).
Proof.
  intros Hname. rewrite is_unsafe_iff. split.
  - intros (d & Hin & Hd). rewrite (name_is_unique m p name d); auto.
  - intros Hin. exists name. auto.
Qed.

(** ** The in-place loop *)

Lemma sanitize_loop_spec m es : forall fuel env src dst rest,
  Forall (fun p => p <> nullptr) es ->
  drop src env = es ++ nullptr :: rest ->
  (dst <= src)%nat -> (length es < fuel)%nat ->
  sanitize_loop m fuel env src dst =
    Some (take dst env ++ List.filter (kept m) es ++
          nullptr :: drop (S (dst + length (List.filter (kept m) es))) env).
Proof.
  induction es as [|p es IH]; intros fuel env src dst rest Hnn Hdrop Hle Hfuel.
  - destruct fuel as [|fuel]; [simpl in Hfuel; lia|].
    assert (Hsrc : env !! src = Some nullptr).
    { rewrite <- (Nat.add_0_r src), <- lookup_drop, Hdrop. reflexivity. }
    cbn [sanitize_loop]. rewrite Hsrc. simpl. f_equal. rewrite Nat.add_0_r.
    apply insert_take_drop. apply lookup_lt_Some in Hsrc. lia.
  - destruct fuel as [|fuel]; [simpl in Hfuel; lia|]. simpl in Hfuel.
    assert (Hsrc : env !! src = Some p).
    { rewrite <- (Nat.add_0_r src), <- lookup_drop, Hdrop. reflexivity. }
    assert (Hnext : drop (S src) env = es ++ nullptr :: rest).
    { apply drop_S in Hsrc. rewrite Hdrop in Hsrc. simpl in Hsrc. congruence. }
    inversion Hnn as [|? ? Hp Hnn']; subst.
    cbn [sanitize_loop]. rewrite Hsrc.
    replace (p =? nullptr) with false by (symmetry; apply Z.eqb_neq; exact Hp).
    cbn [List.filter].
    assert (Hk : kept m p = is_valid_environment_variable m p &&
                            negb (is_unsafe_environment_variable m p))
      by reflexivity.
    rewrite Hk. clear Hk.
    destruct (is_valid_environment_variable m p); cbn [negb andb].
    2:{ apply (IH fuel env (S src) dst rest); auto; lia. }
    destruct (is_unsafe_environment_variable m p); cbn [negb].
    { apply (IH fuel env (S src) dst rest); auto; lia. }
    assert (Hlen : (src < length env)%nat) by (apply lookup_lt_Some in Hsrc; lia).
    rewrite (IH fuel (<[dst:=p]> env) (S src) (S dst) rest); auto; try lia.
    2:{ rewrite drop_insert_lt by lia. exact Hnext. }
    f_equal. rewrite drop_insert_lt by lia.
    assert (Hd : (<[dst:=p]> env) !! dst = Some p).
    { apply list_lookup_insert_eq. lia. }
    rewrite (take_S_r _ _ _ Hd), take_insert_ge by lia.
    rewrite <- app_assoc. simpl. repeat f_equal. lia.
Qed.

(** ** Arrays with a sentinel *)

Lemma until_null_nonnull env : Forall (fun p => p <> nullptr) (until_null env).
Proof.
  induction env as [|p env IH]; simpl; [constructor|].
  destruct (p =? nullptr) eqn:Hp; constructor; auto.
  apply Z.eqb_neq. exact Hp.
Qed.

Lemma until_null_split env :
  In nullptr env ->
  env = until_null env ++ nullptr :: drop (S (length (until_null env))) env.
Proof.
  induction env as [|p env IH]; simpl; [contradiction|].
  intros Hin. destruct (p =? nullptr) eqn:Hp.
  - apply Z.eqb_eq in Hp. subst p. simpl. rewrite drop_0. reflexivity.
  - apply Z.eqb_neq in Hp. destruct Hin as [Hin|Hin]; [congruence|].
    simpl. f_equal. apply IH. exact Hin.
Qed.

Lemma until_null_app es rest :
  Forall (fun p => p <> nullptr) es -> until_null (es ++ nullptr :: rest) = es.
Proof.
  induction 1 as [|p es Hp _ IH]; simpl; [reflexivity|].
  replace (p =? nullptr) with false by (symmetry; apply Z.eqb_neq; exact Hp).
  f_equal. exact IH.
Qed.

Lemma until_null_no_sentinel env : ~ In nullptr env -> until_null env = env.
Proof.
  induction env as [|p env IH]; simpl; [reflexivity|]. intros Hn.
  destruct (p =? nullptr) eqn:Hp.
  - apply Z.eqb_eq in Hp. tauto.
  - f_equal. apply IH. tauto.
Qed.

(** The whole function on an array that has a sentinel. *)
Lemma sanitize_spec m env :
  In nullptr env ->
  sanitize_environment_variables m env =
    Some (List.filter (kept m) (until_null env) ++
          nullptr ::
          drop (S (length (List.filter (kept m) (until_null env)))) env).
Proof.
  intros Hin. unfold sanitize_environment_variables.
  pose proof (until_null_split env Hin) as Hsplit.
  rewrite (sanitize_loop_spec m (until_null env) _ env 0 0
             (drop (S (length (until_null env))) env)).
  - reflexivity.
  - apply until_null_nonnull.
  - rewrite drop_0. exact Hsplit.
  - lia.
  - rewrite Hsplit at 2. rewrite length_app. simpl. lia.
Qed.

Lemma filter_nonnull (f : Z -> bool) es :
  Forall (fun p => p <> nullptr) es ->
  Forall (fun p => p <> nullptr) (List.filter f es).
Proof.
  induction 1; simpl; [constructor|]. destruct (f x); auto.
Qed.

Lemma filter_length_le (f : Z -> bool) es :
  (length (List.filter f es) <= length es)%nat.
Proof. induction es; simpl; [lia|]. destruct (f a); simpl; lia. Qed.

(** Without a sentinel the loop reads past the array. *)
Lemma sanitize_loop_no_sentinel m fuel : forall env src dst,
  ~ In nullptr (drop src env) -> (dst <= src)%nat ->
  sanitize_loop m fuel env src dst = None.
Proof.
  induction fuel as [|fuel IH]; intros env src dst Hno Hle; [reflexivity|].
  cbn [sanitize_loop]. destruct (env !! src) as [p|] eqn:Hsrc; [|reflexivity].
  pose proof (drop_S _ _ _ Hsrc) as Hd. rewrite Hd in Hno. simpl in Hno.
  destruct (p =? nullptr) eqn:Hp; [apply Z.eqb_eq in Hp; exfalso; auto|].
  destruct (negb (is_valid_environment_variable m p)); [apply IH; auto|].
  destruct (is_unsafe_environment_variable m p); [apply IH; auto|].
  apply IH; [|lia]. rewrite drop_insert_lt by lia. auto.
Qed.

Lemma sanitize_needs_sentinel m env :
  ~ In nullptr env -> sanitize_environment_variables m env = None.
Proof.
  intros Hno. apply sanitize_loop_no_sentinel; [|lia].
  rewrite drop_0. exact Hno.
Qed.

(** * Strings in memory *)

Lemma slen_nonneg s : 0 <= slen s.
Proof. unfold slen. lia. Qed.

Lemma slen_cons c s : slen (String c s) = slen s + 1.
Proof. unfold slen. simpl. lia. Qed.

Lemma slen_append a b : slen (a ++ b) = slen a + slen b.
Proof.
  unfold slen. induction a as [|c a IH]; simpl; [lia|].
  rewrite !Nat2Z.inj_succ. lia.
Qed.

Lemma has_prefix_ext m1 m2 s : forall p,
  (forall x, p <= x < p + slen s -> m1 x = m2 x) ->
  has_prefix m1 p s = has_prefix m2 p s.
Proof.
  induction s as [|c s IH]; intros p Hext; simpl; [reflexivity|].
  rewrite slen_cons in Hext. pose proof (slen_nonneg s).
  rewrite (Hext p) by lia. f_equal. apply IH. intros x Hx. apply Hext. lia.
Qed.

Lemma has_prefix_append m a b : forall p,
  has_prefix m p (a ++ b) = has_prefix m p a && has_prefix m (p + slen a) b.
Proof.
  induction a as [|c a IH]; intros p; simpl.
  - unfold slen. simpl. rewrite Z.add_0_r. reflexivity.
  - rewrite IH, slen_cons, <- andb_assoc.
    replace (p + 1 + slen a) with (p + (slen a + 1)) by lia. reflexivity.
Qed.

Lemma has_prefix_free m c s : forall p,
  has_prefix m p s = true -> free_of c s = true ->
  forall i, 0 <= i < slen s -> m (p + i) <> c.
Proof.
  induction s as [|d s IH]; intros p Hp Hf i Hi.
  - unfold slen in Hi. simpl in Hi. lia.
  - simpl in Hp, Hf. rewrite slen_cons in Hi.
    apply andb_true_iff in Hp as [Hd Hp], Hf as [Hdc Hf].
    apply Ascii.eqb_eq in Hd. apply negb_true_iff, Ascii.eqb_neq in Hdc.
    destruct (Z.eq_dec i 0) as [->|Hi0].
    + rewrite Z.add_0_r. congruence.
    + replace (p + i) with (p + 1 + (i - 1)) by lia. apply IH; auto. lia.
Qed.


Lemma store_string_prefix s : forall a m,
  has_prefix (store_string s a m) a s = true.
Proof.
  induction s as [|c s IH]; intros a m; simpl; [reflexivity|].
  rewrite Z.eqb_refl, Ascii.eqb_refl. simpl.
  rewrite <- (IH (a + 1) m). apply has_prefix_ext.
  intros x Hx. replace (x =? a) with false by (symmetry; lia). reflexivity.
Qed.

Lemma store_string_end s : forall a m,
  store_string s a m (a + slen s) = NUL.
Proof.
  induction s as [|c s IH]; intros a m; simpl.
  - unfold slen. simpl. rewrite Z.add_0_r, Z.eqb_refl. reflexivity.
  - rewrite slen_cons. pose proof (slen_nonneg s).
    replace (a + (slen s + 1) =? a) with false by (symmetry; lia).
    replace (a + (slen s + 1)) with (a + 1 + slen s) by lia. apply IH.
Qed.

Lemma holds_store s a m : holds (store_string s a m) a s.
Proof. split; [apply store_string_prefix | apply store_string_end]. Qed.


Lemma free_of_append c a b :
  free_of c (a ++ b) = free_of c a && free_of c b.
Proof.
  induction a as [|d a IH]; simpl; [reflexivity|].
  rewrite IH, andb_assoc. reflexivity.
Qed.

Lemma c_str_free s : free_of NUL (c_str s) = true.
Proof.
  induction s as [|c s IH]; simpl; [reflexivity|].
  destruct (Ascii.eqb c NUL) eqn:Hc; simpl; [reflexivity|].
  rewrite Hc, IH. reflexivity.
Qed.

(** An entry [name=value] stored at [p] is well formed when it is short
    enough. *)
Lemma holds_entry_well_formed m p name value :
  holds m p (name ++ "=" ++ value) ->
  free_of NUL name = true -> free_of NUL value = true ->
  free_of "="%char name = true ->
  name <> EmptyString ->
  slen name + 1 + slen value < MAX_ENV_LEN ->
  well_formed m p /\ name_is m p name = true.
Proof.
  intros [Hp He] Hn Hv Heq Hne Hlen.
  pose proof (slen_nonneg name). pose proof (slen_nonneg value).
  assert (Hl : slen (name ++ "=" ++ value) = slen name + 1 + slen value).
  { rewrite !slen_append. unfold slen at 2. simpl. lia. }
  assert (Hpos : 1 <= slen name).
  { destruct name; [contradiction|]. rewrite slen_cons.
    pose proof (slen_nonneg name). lia. }
  pose proof Hp as Hp'. rewrite has_prefix_append in Hp'.
  apply andb_true_iff in Hp' as [Hpn Hrest]. simpl in Hrest.
  apply andb_true_iff in Hrest as [Hsep _]. apply Ascii.eqb_eq in Hsep.
  split.
  - exists (slen name + 1 + slen value), (slen name).
    split; [|split; [exact Hlen|split; [|lia]]].
    + unfold terminates_at, deref. rewrite <- Hl. split; [lia|].
      split; [exact He|]. intros i Hi.
      apply (has_prefix_free m NUL _ p Hp); [|exact Hi].
      rewrite !free_of_append, Hn, Hv. reflexivity.
    + unfold first_equal_at, deref. split; [lia|]. split; [exact Hsep|].
      intros i Hi. apply (has_prefix_free m "="%char _ p Hpn Heq). exact Hi.
  - unfold name_is. rewrite Heq. simpl.
    rewrite has_prefix_append. rewrite Hpn. simpl. rewrite Hsep.
    rewrite Ascii.eqb_refl. reflexivity.
Qed.

(** * [setenv] *)

Lemma set_entry_new m name p : forall env,
  p <> nullptr -> In p (until_null (set_entry m env name p)).
Proof.
  intros env Hp. assert (Hpb : (p =? nullptr) = false) by (apply Z.eqb_neq; exact Hp).
  induction env as [|q env IH]; simpl.
  - rewrite Hpb. simpl. auto.
  - destruct (q =? nullptr) eqn:Hq; [simpl; rewrite Hpb; simpl; auto|].
    destruct (env_match m q name); simpl.
    + rewrite Hpb. simpl. auto.
    + rewrite Hq. simpl. auto.
Qed.


Lemma set_entry_sentinel m name p : forall env,
  In nullptr env -> In nullptr (set_entry m env name p).
Proof.
  intros env. induction env as [|q env IH]; simpl; [auto|].
  intros Hin. destruct (q =? nullptr) eqn:Hq; [simpl; auto|].
  apply Z.eqb_neq in Hq. destruct Hin as [Hin|Hin]; [congruence|].
  destruct (env_match m q name); simpl; auto.
Qed.

Lemma env_match_name_is m p name :
  free_of NUL name = true -> free_of "="%char name = true ->
  (exists v, env_match m p name = Some v) -> name_is m p name = true.
Proof.
  intros Hn He Hm. unfold name_is. rewrite He. simpl.
  replace p with (p + 0) by lia. apply env_match_from_prefix; assumption.
Qed.

Section Setenv.
Context (st : process) (name value : string).
Hypothesis name_nonempty : c_str name <> EmptyString.
Hypothesis name_clean : free_of "="%char (c_str name) = true.
Hypothesis heap : 0 < brk st.

Lemma setenv_unfold :
  setenv st name value =
  {| mem := store_string (entry_of name value) (brk st) (mem st);
     environ := set_entry (mem st) (environ st) (c_str name) (brk st);
     brk := brk st + slen (entry_of name value) + 1 |}.
Proof using name_nonempty name_clean.
  unfold setenv. rewrite name_clean. simpl.
  destruct (String.eqb_spec (c_str name) EmptyString) as [H|_];
    [contradiction | reflexivity].
Qed.

Lemma setenv_holds : holds (mem (setenv st name value)) (brk st) (entry_of name value).
Proof using name_nonempty name_clean.
  rewrite setenv_unfold. apply holds_store.
Qed.

Lemma setenv_in : In (brk st) (until_null (environ (setenv st name value))).
Proof using name_nonempty name_clean heap.
  rewrite setenv_unfold. simpl. apply set_entry_new. unfold nullptr. lia.
Qed.


Lemma setenv_brk : brk st < brk (setenv st name value).
Proof using name_nonempty name_clean.
  rewrite setenv_unfold. simpl. pose proof (slen_nonneg (entry_of name value)). lia.
Qed.



End Setenv.



(** * What the sanitizer keeps *)

Lemma LD_PRELOAD_not_denied : ~ In "LD_PRELOAD"%string UNSAFE_VARIABLE_NAMES.
Proof.
  intros H. assert (E : existsb (String.eqb "LD_PRELOAD") UNSAFE_VARIABLE_NAMES = true).
  { apply existsb_exists. exists "LD_PRELOAD"%string. split; [exact H|].
    apply String.eqb_refl. }
  vm_compute in E. discriminate.
Qed.

Lemma kept_iff m p :
  kept m p = true <->
  is_valid_environment_variable m p = true /\
  is_unsafe_environment_variable m p = false.
Proof.
  unfold kept. rewrite andb_true_iff, negb_true_iff. reflexivity.
Qed.

Lemma sanitize_survivors m env :
  In nullptr env ->
  exists env',
    sanitize_environment_variables m env = Some env' /\
    until_null env' = List.filter (kept m) (until_null env) /\
    length env' = length env /\
    env' !! length (until_null env') = Some nullptr /\
    drop (S (length (until_null env'))) env' =
      drop (S (length (until_null env'))) env.
Proof.
  intros Hin. rewrite (sanitize_spec m env Hin).
  set (kept_entries := List.filter (kept m) (until_null env)).
  assert (Hnn : Forall (fun p => p <> nullptr) kept_entries).
  { apply filter_nonnull, until_null_nonnull. }
  assert (Hle : (length kept_entries <= length (until_null env))%nat)
    by apply filter_length_le.
  assert (Hlen : (length (until_null env) < length env)%nat).
  { rewrite (until_null_split env Hin) at 2. rewrite length_app. simpl. lia. }
  eexists. split; [reflexivity|].
  rewrite (until_null_app _ _ Hnn). split; [reflexivity|]. split; [|split].
  - rewrite length_app. simpl. rewrite length_drop. lia.
  - rewrite lookup_app_r by lia. rewrite Nat.sub_diag. reflexivity.
  - rewrite drop_app_ge by lia.
    replace (S (length kept_entries) - length kept_entries)%nat with 1%nat by lia.
    reflexivity.
Qed.

Lemma well_formed_safe_survives m env p :
  In nullptr env -> In p (until_null env) ->
  well_formed m p -> is_unsafe_environment_variable m p = false ->
  exists env',
    sanitize_environment_variables m env = Some env' /\ In p (until_null env').
Proof.
  intros Hs Hin Hwf Hsafe.
  destruct (sanitize_survivors m env Hs) as (env' & Hrun & Hsurv & _).
  exists env'. split; [exact Hrun|]. rewrite Hsurv.
  apply filter_In. split; [exact Hin|]. apply kept_iff. split; [|exact Hsafe].
  apply is_valid_well_formed. split; [|exact Hwf].
  pose proof (until_null_nonnull env) as Hnn.
  rewrite Forall_forall in Hnn. apply Hnn. apply list_elem_of_In. exact Hin.
Qed.

Section Preload.
Context (b : build) (st : process) (tmp : string).
Hypothesis heap : 0 < brk st.
Hypothesis terminated : In nullptr (environ st).
Hypothesis other_name : c_str (MAGISKTMP_ENV b) <> "LD_PRELOAD"%string.
Hypothesis short :
  slen (c_str (preload_value b st)) + 11 < MAX_ENV_LEN.

Lemma preload_name_ok :
  c_str "LD_PRELOAD" <> EmptyString /\
  free_of "="%char (c_str "LD_PRELOAD") = true.
Proof. split; [discriminate | reflexivity]. Qed.





End Preload.

(** * Facts about running programs *)

Lemma iterate_never_returns {A B : Type} body r : forall n,
  @iterate B body r n =
  (fst (@iterate A body r n),
   match snd (@iterate A body r n) with
   | Returned _ => Running
   | Stopped t => Stopped t
   | Running => Running
   end) /\
  (forall a, snd (@iterate A body r n) <> Returned a).
Proof.
  induction r as [|r IH]; intros n; simpl.
  - split; [reflexivity | intros a; discriminate].
  - destruct (body n) as [tr out]. destruct out as [[]|t|]; simpl.
    + destruct (IH (n + length tr)%nat) as [IH1 IH2]. rewrite IH1.
      destruct (@iterate A body r (n + length tr)%nat) as [tr' out']; simpl in *.
      split; [reflexivity|]. exact IH2.
    + split; [reflexivity | intros a; discriminate].
    + split; [reflexivity | intros a; discriminate].
Qed.

Lemma run_bind {A B : Type} (p : io A) : forall (k : A -> io B) rounds w n,
  run rounds w (bind p k) n = continue rounds w k n (run rounds w p n).
Proof.
  unfold continue.
  induction p as [R r|R t|R X c h IH|R task _ h IH|R body _];
    intros k rounds w n; cbn [bind run].
  - simpl. rewrite Nat.add_0_r. destruct (run rounds w (k r) n). reflexivity.
  - reflexivity.
  - rewrite IH. destruct (run rounds w (h (w n X c)) (S n)) as [tr out].
    simpl. destruct out as [a|t|]; try reflexivity.
    rewrite Nat.add_succ_r.
    destruct (run rounds w (k a) (S (n + length tr))). reflexivity.
  - rewrite IH. destruct (run rounds w h (S n)) as [tr out].
    simpl. destruct out as [a|t|]; try reflexivity.
    rewrite Nat.add_succ_r.
    destruct (run rounds w (k a) (S (n + length tr))). reflexivity.
  - destruct (@iterate_never_returns R B (run rounds w body) rounds n) as [H1 H2].
    rewrite H1.
    destruct (@iterate R (run rounds w body) rounds n) as [tr out]; simpl in *.
    destruct out as [a|t|]; try reflexivity. exfalso. apply (H2 a). reflexivity.
Qed.

Lemma run_perform {X : Type} (c : call X) rounds w n :
  run rounds w (perform c) n = ([Event c (w n X c)], Returned (w n X c)).
Proof. reflexivity. Qed.


Ltac run_step := cbn [bind perform run exec exit exec_task fst snd].

(** Answers of type [unit] are [tt]. *)
Ltac unit_answers :=
  repeat match goal with
         | |- context [?w ?n unit ?c] => destruct (w n unit c)
         end.

Section Daemon.
Context (b : build).

(** C9. At startup the companion daemon checks its caller: when [getuid()]
    is not 0 it exits with status -1 at once, without even looking at the
    control connection; when the control descriptor is not open
    ([fcntl(socket, F_GETFD) < 0]) it exits with status -1 as well. In both
    cases nothing is sent on the control connection and no module descriptor
    is received. Only when both checks pass does it go on to receive the
    batch of module descriptors, the first step of building the registry. *)
Theorem zygiskd_refuses_unauthenticated (rounds : nat) (w : world) (n : nat)
    (socket : Z) :
  let r := run rounds w (zygiskd b socket) n in
  exists uid,
    (uid <> 0 /\
     fst r = [Event getuid uid] /\ snd r = Stopped (Exited (-1))) \/
    (uid = 0 /\ exists ok,
       (ok < 0 /\
        fst r = [Event getuid uid; Event (fcntl socket F_GETFD 0) ok] /\
        snd r = Stopped (Exited (-1))) \/
       (0 <= ok /\ exists name msg module_fds rest,
          fst r = Event getuid uid :: Event (fcntl socket F_GETFD 0) ok ::
                  Event (set_nice_name name) tt :: Event (LOGI msg) tt ::
                  Event (recv_fds socket) module_fds :: rest)).
Proof.
  intros r. subst r. exists (w n Z getuid).
  unfold zygiskd, startup. run_step.
  destruct (w n Z getuid =? 0) eqn:Huid.
  - right. split; [apply Z.eqb_eq; exact Huid|].
    exists (w (S n) Z (fcntl socket F_GETFD 0)).
    run_step. cbn [negb].
    destruct (w (S n) Z (fcntl socket F_GETFD 0) <? 0) eqn:Hok; run_step;
      rewrite ?Hok; run_step.
    + left. apply Z.ltb_lt in Hok. auto.
    + right. apply Z.ltb_ge in Hok. split; [exact Hok|].
      match goal with |- context [run rounds w ?p ?k] =>
        destruct (run rounds w p k) as [tr out] end.
      unit_answers. do 3 eexists. exists tr. reflexivity.
  - left. run_step. split; [apply Z.eqb_neq; exact Huid | auto].
Qed.

(** ** Building the registry *)

Lemma load_module_run rounds w n fd :
  exists entry tr,
    run rounds w (load_module fd) n = (tr, Returned entry) /\
    slot_trace fd entry tr.
Proof.
  unfold load_module, slot_trace. run_step.
  destruct (w n (Z * stat)%type (fstat fd)) as [rc s] eqn:Hs. cbn [fst snd].
  destruct (rc =? 0) eqn:Hrc; cbn [andb].
  2:{ run_step. do 2 eexists. split; [reflexivity|].
      exists rc, s. eexists. left. apply Z.eqb_neq in Hrc. auto. }
  apply Z.eqb_eq in Hrc.
  destruct (S_ISREG (st_mode s)) eqn:Hreg.
  2:{ run_step. do 2 eexists. split; [reflexivity|].
      exists rc, s. eexists. left. auto. }
  run_step.
  destruct (w (S n) Z (android_dlopen_ext "/jit-cache" RTLD_LAZY
                         ANDROID_DLEXT_USE_LIBRARY_FD fd) =? 0) eqn:Hh;
    cbn [negb]; run_step.
  - unit_answers. do 2 eexists. split; [reflexivity|].
    exists rc, s. eexists. right. repeat split; auto.
    eexists. left. apply Z.eqb_eq in Hh. rewrite Hh.
    repeat split; eauto.
  - do 2 eexists. split; [reflexivity|].
    exists rc, s. eexists. right. repeat split; auto.
    eexists. right. apply Z.eqb_neq in Hh. split; [exact Hh | reflexivity].
Qed.

Lemma load_modules_run rounds w fds : forall n modules0,
  exists modules tr,
    run rounds w (load_modules fds modules0) n =
      (tr, Returned (modules0 ++ modules)) /\
    registry_trace fds modules tr.
Proof.
  induction fds as [|fd fds IH]; intros n modules0.
  - exists [], []. simpl. rewrite app_nil_r. split; [reflexivity | constructor].
  - cbn [load_modules]. rewrite run_bind. unfold continue.
    destruct (load_module_run rounds w n fd) as (entry & tr & Hrun & Hslot).
    rewrite Hrun. cbn [fst snd].
    destruct (IH (n + length tr)%nat (modules0 ++ [entry]))
      as (modules & rest & Hrest & Hreg).
    rewrite Hrest. exists (entry :: modules), (tr ++ rest).
    rewrite <- app_assoc. split; [reflexivity|].
    constructor; assumption.
Qed.

Lemma registry_trace_length fds modules tr :
  registry_trace fds modules tr -> length modules = length fds.
Proof. induction 1; simpl; congruence. Qed.

Lemma startup_run rounds w n socket :
  exists module_fds modules loading,
    registry_trace module_fds modules loading /\
    run rounds w (startup socket) n =
      (Event (recv_fds socket) module_fds :: loading ++
       [Event (write_int socket 0) tt], Returned modules).
Proof.
  unfold startup. run_step.
  set (module_fds := w n (list Z) (recv_fds socket)).
  rewrite run_bind. unfold continue.
  destruct (load_modules_run rounds w module_fds (S n) [])
    as (modules & loading & Hrun & Hreg).
  rewrite Hrun. cbn [fst snd app]. run_step. unit_answers.
  exists module_fds, modules, loading. split; [exact Hreg | reflexivity].
Qed.

Lemma sent_app tr1 tr2 : sent (tr1 ++ tr2) = sent tr1 ++ sent tr2.
Proof. apply omap_app. Qed.

Lemma slot_trace_sends_nothing fd entry tr :
  slot_trace fd entry tr -> sent tr = [].
Proof.
  intros (rc & s & closed & [(_ & _ & ->)|(_ & _ & h & [(_ & _ & msg & ->)|(_ & ->)])]);
    reflexivity.
Qed.

Lemma registry_trace_sends_nothing fds modules tr :
  registry_trace fds modules tr -> sent tr = [].
Proof.
  induction 1 as [|fd entry tr fds modules rest Hslot _ IH]; [reflexivity|].
  rewrite sent_app, IH, (slot_trace_sends_nothing _ _ _ Hslot). reflexivity.
Qed.

(** ** One round of the service loop *)

Lemma serve_sends_nothing rounds w n socket modules :
  sent (fst (run rounds w (serve socket modules) n)) = [].
Proof.
  unfold serve. run_step.
  destruct (negb (w n Z (poll socket POLLIN) =? 0) &&
            (Z.land (w n Z (poll socket POLLIN)) POLLIN =? 0));
    run_step; [reflexivity|].
  destruct (w (S n) Z (recv_fd socket) <? 0); run_step; [reflexivity|].
  match goal with |- context [if ?c then _ else _] => destruct c end;
    run_step; reflexivity.
Qed.

Lemma iterate_sends_nothing {R : Type} body r : forall n,
  (forall k, sent (fst (body k)) = []) ->
  sent (fst (@iterate R body r n)) = [].
Proof.
  induction r as [|r IH]; intros n Hbody; simpl; [reflexivity|].
  specialize (Hbody n) as Hn. destruct (body n) as [tr out]. simpl in Hn.
  destruct out as [[]|t|]; simpl; auto.
  specialize (IH (n + length tr)%nat Hbody).
  destruct (iterate body r (n + length tr)) as [tr' out']. simpl in *.
  rewrite sent_app, Hn, IH. reflexivity.
Qed.

(** C8. After the caller is accepted, the daemon receives the batch of module
    descriptors and appends one registry slot per descriptor, in the order of
    arrival, so the registry is as long as the batch. A descriptor whose
    [fstat] fails or is not a regular file, or that [android_dlopen_ext]
    cannot load, gives the empty slot; for a loaded module the slot is what
    [dlsym] finds for [zygisk_companion_entry] (null when the symbol is
    absent). None of this ends the startup. Only after the last module does
    the daemon send its single acknowledgment, the integer 0, and enter the
    service loop, in which it sends nothing more. *)
Theorem zygiskd_builds_registry_then_acknowledges (rounds : nat) (w : world)
    (n : nat) (socket : Z) :
  w n Z getuid = 0 ->
  0 <= w (S n) Z (fcntl socket F_GETFD 0) ->
  exists name msg module_fds modules loading,
    registry_trace module_fds modules loading /\
    length modules = length module_fds /\
    let before :=
      [Event getuid 0;
       Event (fcntl socket F_GETFD 0) (w (S n) Z (fcntl socket F_GETFD 0));
       Event (set_nice_name name) tt; Event (LOGI msg) tt;
       Event (recv_fds socket) module_fds] ++
      loading ++ [Event (write_int socket 0) tt] in
    let loop :=
      run rounds w (Forever (serve socket modules) : io unit)
          (n + length before) in
    run rounds w (zygiskd b socket) n = (before ++ fst loop, snd loop) /\
    sent before = [(socket, Int 0)] /\
    sent (fst loop) = [].
Proof.
  intros Huid Hok.
  destruct (startup_run rounds w (S (S (S (S n)))) socket)
    as (module_fds & modules & loading & Hreg & Hrun).
  exists (if LP64 b then "zygiskd64" else "zygiskd32")%string,
         (if LP64 b then "* Launching zygiskd64" ++ newline
          else "* Launching zygiskd32" ++ newline)%string,
         module_fds, modules, loading.
  split; [exact Hreg|]. split; [eapply registry_trace_length; eauto|].
  cbv zeta.
  set (before := (_ :: _ :: _ :: _ :: _ :: nil) ++ loading ++ _).
  split; [|split].
  - unfold zygiskd. run_step. rewrite Huid. cbn [Z.eqb negb]. run_step.
    replace (w (S n) Z (fcntl socket F_GETFD 0) <? 0) with false
      by (symmetry; apply Z.ltb_ge; exact Hok).
    run_step. rewrite run_bind, Hrun. unfold continue. cbn [fst snd].
    unit_answers.
    match goal with |- context [run rounds w (Forever ?p) ?k] =>
      replace k with (n + length before)%nat
        by (subst before; cbn [length app]; rewrite !length_app;
            cbn [length]; lia)
    end.
    cbn [run].
    destruct (iterate (run rounds w (serve socket modules)) rounds _)
      as [tr out].
    subst before. cbn [app fst snd]. rewrite <- !app_assoc. reflexivity.
  - subst before.
    rewrite !sent_app, (registry_trace_sends_nothing _ _ _ Hreg). reflexivity.
  - cbn [run]. apply iterate_sends_nothing. intros k.
    apply serve_sends_nothing.
Qed.

(** C4. The task of a dispatched client takes [fstat] of the client
    descriptor, calls the entry point, and takes [fstat] again. It closes the
    descriptor exactly when the second [fstat] succeeds and its device and its
    inode equal those of the first. In particular, when the descriptor number
    now names another file (the module closed it and the number was taken
    again), or names nothing any more, the daemon closes nothing. *)
Theorem companion_task_closes_same_file_only (rounds : nat) (w : world)
    (n : nat) (entry client : Z) :
  let r := run rounds w (companion_task entry client) n in
  let before := w n (Z * stat)%type (fstat client) in
  let after := w (S (S n)) (Z * stat)%type (fstat client) in
  let same_file :=
    fst after = 0 /\
    st_dev (snd before) = st_dev (snd after) /\
    st_ino (snd before) = st_ino (snd after) in
  let checked :=
    [Event (fstat client) before;
     Event (companion_entry entry client) tt;
     Event (fstat client) after] in
  snd r = Returned tt /\
  (same_file -> exists closed,
     fst r = checked ++ [Event (close client) closed] /\
     closes (fst r) = [client]) /\
  (~ same_file -> fst r = checked /\ closes (fst r) = []) /\
  (fst after = 0 ->
   st_dev (snd before) <> st_dev (snd after) \/
   st_ino (snd before) <> st_ino (snd after) ->
   closes (fst r) = []) /\
  (fst after <> 0 -> closes (fst r) = []).
Proof.
  intros r before after. subst r before after.
  unfold companion_task. run_step.
  destruct (w n (Z * stat)%type (fstat client)) as [rc1 s1].
  destruct (w (S (S n)) (Z * stat)%type (fstat client)) as [rc2 s2].
  unit_answers. cbn [fst snd]. cbv zeta.
  destruct (rc2 =? 0) eqn:Hrc;
    [apply Z.eqb_eq in Hrc | apply Z.eqb_neq in Hrc].
  1: destruct (st_dev s1 =? st_dev s2) eqn:Hdev;
    [apply Z.eqb_eq in Hdev | apply Z.eqb_neq in Hdev]; cbn [andb].
  1: destruct (st_ino s1 =? st_ino s2) eqn:Hino;
    [apply Z.eqb_eq in Hino | apply Z.eqb_neq in Hino].
  all: run_step; repeat split; try reflexivity; try tauto;
    try (intros; eexists; split; reflexivity).
Qed.

Lemma companion_task_calls_entry_once rounds w n entry client :
  entry_calls (fst (run rounds w (companion_task entry client) n)) =
  [(entry, client)].
Proof.
  unfold companion_task. run_step.
  destruct (fst (w (S (S n)) (Z * stat)%type (fstat client)) =? 0);
    [|reflexivity].
  destruct ((st_dev (snd (w n (Z * stat)%type (fstat client))) =?
             st_dev (snd (w (S (S n)) (Z * stat)%type (fstat client)))) &&
            (st_ino (snd (w n (Z * stat)%type (fstat client))) =?
             st_ino (snd (w (S (S n)) (Z * stat)%type (fstat client)))));
    reflexivity.
Qed.

Lemma nth_populated (modules : list Z) (i : nat) :
  (nth i modules nullptr =? nullptr) = false ->
  exists entry, modules !! i = Some entry /\ entry <> nullptr /\
                nth i modules nullptr = entry.
Proof.
  intros H. apply Z.eqb_neq in H. rewrite nth_lookup in *.
  destruct (modules !! i) as [entry|]; simpl in *; [|contradiction].
  exists entry. auto.
Qed.

(** C5. One round of the service loop, for a client descriptor received from
    the control connection and the module id read from that client: when the
    id is negative, at or beyond the length of the registry, or indexes an
    empty slot, the daemon closes the client and dispatches no task; when it
    indexes a populated slot, the daemon dispatches one task, closes nothing
    itself, and the task calls the entry point of exactly that slot exactly
    once, with the client descriptor. (A failed poll or receive ends the
    daemon with status 0.) *)
Theorem serve_dispatches_or_closes (rounds : nat) (w : world) (n : nat)
    (socket : Z) (modules : list Z) :
  let r := run rounds w (serve socket modules) n in
  exists revents,
    (revents <> 0 /\ Z.land revents POLLIN = 0 /\
     fst r = [Event (poll socket POLLIN) revents] /\
     snd r = Stopped (Exited 0)) \/
    ((revents = 0 \/ Z.land revents POLLIN <> 0) /\
     exists client,
       (client < 0 /\
        fst r = [Event (poll socket POLLIN) revents;
                 Event (recv_fd socket) client] /\
        snd r = Stopped (Exited 0)) \/
       (0 <= client /\
        exists module_id,
          let received :=
            [Event (poll socket POLLIN) revents;
             Event (recv_fd socket) client;
             Event (read_int client) module_id] in
          ((module_id < 0 \/ Z.of_nat (length modules) <= module_id \/
            modules !! Z.to_nat module_id = Some nullptr) /\
           exists closed,
             fst r = received ++ [Event (close client) closed] /\
             dispatches (fst r) = [] /\
             closes (fst r) = [client] /\
             snd r = Returned tt) \/
          (exists entry,
             0 <= module_id /\
             modules !! Z.to_nat module_id = Some entry /\
             entry <> nullptr /\
             fst r = received ++ [Spawned (companion_task entry client)] /\
             dispatches (fst r) = [companion_task entry client] /\
             closes (fst r) = [] /\
             snd r = Returned tt /\
             forall rounds' w' n',
               entry_calls
                 (fst (run rounds' w' (companion_task entry client) n')) =
               [(entry, client)]))).
Proof.
  intros r. subst r. exists (w n Z (poll socket POLLIN)).
  unfold serve. run_step.
  set (revents := w n Z (poll socket POLLIN)).
  destruct (revents =? 0) eqn:Hz; cbn [negb andb].
  2: destruct (Z.land revents POLLIN =? 0) eqn:Hin.
  2:{ left. apply Z.eqb_neq in Hz. apply Z.eqb_eq in Hin. run_step. auto. }
  all: right; split;
    [first [left; apply Z.eqb_eq; exact Hz | right; apply Z.eqb_neq; exact Hin]|].
  all: exists (w (S n) Z (recv_fd socket)); run_step;
    set (client := w (S n) Z (recv_fd socket));
    destruct (client <? 0) eqn:Hc; run_step;
    [left; apply Z.ltb_lt in Hc; auto|];
    right; apply Z.ltb_ge in Hc; (split; [exact Hc|]);
    exists (w (S (S n)) Z (read_int client));
    set (module_id := w (S (S n)) Z (read_int client)); cbv zeta;
    destruct (module_id >=? 0) eqn:Hge; cbn [andb];
    [|run_step; left; split; [left; lia|]; eexists; repeat split; reflexivity];
    destruct (module_id <? Z.of_nat (length modules)) eqn:Hlt; cbn [andb];
    [|run_step; left; split; [right; left; lia|]; eexists; repeat split;
      reflexivity];
    destruct (nth (Z.to_nat module_id) modules nullptr =? nullptr) eqn:He;
    cbn [negb].
  all: try (run_step; left; split;
            [right; right; apply Z.eqb_eq in He; rewrite nth_lookup in He;
             destruct (modules !! Z.to_nat module_id) as [e|] eqn:Hl;
             [simpl in He; congruence|
              apply lookup_ge_None in Hl; lia]
            | eexists; repeat split; reflexivity]).
  all: destruct (nth_populated _ _ He) as (entry & Hl & Hne & Hnth);
    rewrite Hnth; run_step; right; exists entry;
    repeat split; auto; try lia;
    intros; apply companion_task_calls_entry_once.
Qed.

(** ** The passthrough helper *)

(** Every behaviour of the helper. *)
Lemma passthrough_run rounds w n client is_64_bit :
  let r := run rounds w (passthrough b client is_64_bit) n in
  exists valid,
    let checked := [Event (fcntl client F_GETFD 0) valid] in
    (valid < 0 /\ r = (checked, Returned 1)) \/
    (0 <= valid /\
     exists magiskd,
       let connected :=
         checked ++ [Event (connect_daemon ZYGISK_PASSTHROUGH) magiskd] in
       (magiskd < 0 /\
        r = (connected ++ [Event (write_int client 1) tt], Returned 0)) \/
       (0 <= magiskd /\
        exists status,
          let asked :=
            connected ++
            [Event (write_int magiskd (request_code b PASSTHROUGH)) tt;
             Event (write_int magiskd is_64_bit) tt;
             Event (read_int magiskd) status] in
          (status <> 0 /\
           r = (asked ++ [Event (write_int client 1) tt], Returned 0)) \/
          (status = 0 /\
           exists real_app_fd rc,
             r = (asked ++ [Event (write_int client 0) tt;
                            Event (recv_fd magiskd) real_app_fd;
                            Event (send_fd client real_app_fd) rc],
                  Returned 0)))).
Proof.
  intros r. subst r. unfold passthrough. run_step.
  exists (w n Z (fcntl client F_GETFD 0)). cbv zeta.
  destruct (w n Z (fcntl client F_GETFD 0) <? 0) eqn:Hv; run_step.
  { left. apply Z.ltb_lt in Hv. auto. }
  right. apply Z.ltb_ge in Hv. split; [exact Hv|].
  exists (w (S n) Z (connect_daemon ZYGISK_PASSTHROUGH)).
  set (magiskd := w (S n) Z (connect_daemon ZYGISK_PASSTHROUGH)).
  destruct (magiskd >=? 0) eqn:Hm; run_step; unit_answers.
  2:{ left. split; [lia|]. reflexivity. }
  right. split; [lia|].
  exists (w (S (S (S (S n)))) Z (read_int magiskd)).
  destruct (w (S (S (S (S n)))) Z (read_int magiskd) =? 0) eqn:Hs;
    cbn [negb]; run_step; unit_answers.
  - right. apply Z.eqb_eq in Hs. split; [exact Hs|].
    do 2 eexists. reflexivity.
  - left. apply Z.eqb_neq in Hs. auto.
Qed.


(** C6. The passthrough helper, on a client descriptor that is open: when
    [connect_daemon] fails, the helper writes 1 to the client and sends
    nothing else; otherwise it sends the PASSTHROUGH request code and then the
    bitness selector to the daemon and reads the status; on a non-zero status
    it writes 1 to the client and no descriptor; on status 0 it writes 0 to
    the client, receives one descriptor from the daemon and sends that same
    descriptor to the client. *)
Theorem passthrough_relays_status_and_descriptor (rounds : nat) (w : world)
    (n : nat) (arg0 arg2 arg3 : string) :
  let client := parse_int b arg2 in
  let is_64_bit := parse_int b arg3 in
  let r := run rounds w
             (zygisk_main b [arg0; "passthrough"%string; arg2; arg3]) n in
  exists valid,
    let checked :=
      [Event android_logging tt; Event (fcntl client F_GETFD 0) valid] in
    (valid < 0 /\ fst r = checked /\ snd r = Returned 1) \/
    (0 <= valid /\
     exists magiskd,
       let connected :=
         checked ++ [Event (connect_daemon ZYGISK_PASSTHROUGH) magiskd] in
       (magiskd < 0 /\
        fst r = connected ++ [Event (write_int client 1) tt] /\
        sent (fst r) = [(client, Int 1)] /\
        snd r = Returned 0) \/
       (0 <= magiskd /\
        exists status,
          let asked :=
            connected ++
            [Event (write_int magiskd (request_code b PASSTHROUGH)) tt;
             Event (write_int magiskd is_64_bit) tt;
             Event (read_int magiskd) status] in
          (status <> 0 /\
           fst r = asked ++ [Event (write_int client 1) tt] /\
           sent (fst r) = [(magiskd, Int (request_code b PASSTHROUGH));
                           (magiskd, Int is_64_bit); (client, Int 1)] /\
           snd r = Returned 0) \/
          (status = 0 /\
           exists real_app_fd rc,
             fst r = asked ++ [Event (write_int client 0) tt;
                               Event (recv_fd magiskd) real_app_fd;
                               Event (send_fd client real_app_fd) rc] /\
             sent (fst r) = [(magiskd, Int (request_code b PASSTHROUGH));
                             (magiskd, Int is_64_bit); (client, Int 0);
                             (client, Fd real_app_fd)] /\
             snd r = Returned 0))).
Proof.
  intros client is_64_bit r.
  assert (Hr : r = (Event android_logging tt ::
                    fst (run rounds w (passthrough b client is_64_bit) (S n)),
                    snd (run rounds w (passthrough b client is_64_bit) (S n)))).
  { subst r. unfold zygisk_main.
    cbn [length Nat.eqb nth andb String.eqb Ascii.eqb Bool.eqb].
    run_step. unit_answers.
    destruct (run rounds w (passthrough b _ _) (S n)). reflexivity. }
  clearbody r. subst r.
  destruct (passthrough_run rounds w (S n) client is_64_bit)
    as (valid & Hcases).
  cbv zeta in Hcases. exists valid. cbv zeta.
  destruct Hcases as [(Hv & ->)|(Hv & magiskd & Hcases)];
    [left; auto|right; split; [exact Hv|]].
  exists magiskd.
  destruct Hcases as [(Hm & ->)|(Hm & status & Hcases)];
    [left; auto|right; split; [exact Hm|]].
  exists status.
  destruct Hcases as [(Hs & ->)|(Hs & fd & rc & ->)];
    [left; auto|right; split; [exact Hs|]].
  exists fd, rc. auto.
Qed.

End Daemon.

(** * The entry protocol *)

Section Entry.
Context (b : build).

(** Every behaviour of the [do { ... } while (false)] block. *)
Lemma setup_block_run rounds w n socket argv st :
  let r := run rounds w (setup_block b socket argv st) n in
  exists status,
    (status <> 0 /\ r = ([Event (read_int socket) status], Returned st)) \/
    (status = 0 /\
     exists written app_proc_fd,
       let offered :=
         [Event (read_int socket) 0;
          Event (write_int socket (loader_size b)) tt;
          Event (xwrite socket (zygisk_ld b)) written;
          Event (recv_fd socket) app_proc_fd] in
       (app_proc_fd < 0 /\ r = (offered, Returned st)) \/
       (0 <= app_proc_fd /\
        exists tmp closed cloexec fp,
          let st2 :=
            setenv (setenv st "LD_PRELOAD" (preload_value b st))
                   (MAGISKTMP_ENV b) tmp in
          let prepared :=
            offered ++
            [Event (read_string socket) tmp;
             Event (close socket) closed;
             Event (fcntl app_proc_fd F_SETFD FD_CLOEXEC) cloexec;
             Event (xopen_file "/proc/self/attr/current" "w") fp;
             Event (fprintf (file_ptr fp) "u:r:init:s0") tt] in
          match sanitize_environment_variables (mem st2) (environ st2) with
          | None => r = (prepared, Stopped Undefined)
          | Some env =>
              let st3 :=
                {| mem := mem st2; environ := env; brk := brk st2 |} in
              exists res,
                r = (prepared ++ [Event (fexecve app_proc_fd argv st3) res],
                     match res with
                     | ImageReplaced => Stopped Replaced
                     | ExecFailed _ => Returned st3
                     end)
          end)).
Proof.
  intros r. subst r. unfold setup_block. run_step.
  exists (w n Z (read_int socket)).
  destruct (w n Z (read_int socket) =? 0) eqn:Hs; cbn [negb]; run_step.
  2:{ left. apply Z.eqb_neq in Hs. auto. }
  right. apply Z.eqb_eq in Hs. split; [exact Hs|]. rewrite Hs.
  exists (w (S (S n)) Z (xwrite socket (zygisk_ld b))),
         (w (S (S (S n))) Z (recv_fd socket)).
  set (app_proc_fd := w (S (S (S n))) Z (recv_fd socket)).
  unit_answers. cbv zeta. fold (loader_size b).
  destruct (app_proc_fd <? 0) eqn:Hfd; run_step.
  { left. apply Z.ltb_lt in Hfd. auto. }
  right. apply Z.ltb_ge in Hfd. split; [exact Hfd|].
  exists (w (S (S (S (S n)))) string (read_string socket)),
         (w (S (S (S (S (S n))))) Z (close socket)),
         (w (S (S (S (S (S (S n)))))) Z
            (fcntl app_proc_fd F_SETFD FD_CLOEXEC)),
         (w (S (S (S (S (S (S (S n))))))) Z
            (xopen_file "/proc/self/attr/current" "w")).
  destruct (sanitize_environment_variables _ _) as [env|].
  - run_step. unit_answers.
    match goal with
    | |- context [w ?k exec_result ?c] =>
        exists (w k exec_result c); destruct (w k exec_result c)
    end; run_step; reflexivity.
  - run_step. unit_answers. reflexivity.
Qed.

(** The same by the answers of the daemon: the status is the answer to call
    [n], the descriptor the answer to call [3 + n]. *)
Lemma setup_block_cases rounds (w : world) n socket argv st :
  let r := run rounds w (setup_block b socket argv st) n in
  let status := w n Z (read_int socket) in
  let written := w (2 + n)%nat Z (xwrite socket (zygisk_ld b)) in
  let app_proc_fd := w (3 + n)%nat Z (recv_fd socket) in
  let tmp := w (4 + n)%nat string (read_string socket) in
  let offered :=
    [Event (read_int socket) 0;
     Event (write_int socket (loader_size b)) tt;
     Event (xwrite socket (zygisk_ld b)) written;
     Event (recv_fd socket) app_proc_fd] in
  (status <> 0 -> r = ([Event (read_int socket) status], Returned st)) /\
  (status = 0 -> app_proc_fd < 0 -> r = (offered, Returned st)) /\
  (status = 0 -> 0 <= app_proc_fd ->
   exists closed cloexec fp,
     let st2 :=
       setenv (setenv st "LD_PRELOAD" (preload_value b st))
              (MAGISKTMP_ENV b) tmp in
     let prepared :=
       offered ++
       [Event (read_string socket) tmp;
        Event (close socket) closed;
        Event (fcntl app_proc_fd F_SETFD FD_CLOEXEC) cloexec;
        Event (xopen_file "/proc/self/attr/current" "w") fp;
        Event (fprintf (file_ptr fp) "u:r:init:s0") tt] in
     match sanitize_environment_variables (mem st2) (environ st2) with
     | None => r = (prepared, Stopped Undefined)
     | Some env =>
         let st3 :=
           {| mem := mem st2; environ := env; brk := brk st2 |} in
         exists res,
           r = (prepared ++ [Event (fexecve app_proc_fd argv st3) res],
                match res with
                | ImageReplaced => Stopped Replaced
                | ExecFailed _ => Returned st3
                end)
     end).
Proof.
  intros r status written app_proc_fd tmp offered.
  subst r offered. unfold setup_block. run_step. fold status.
  split; [|split].
  - intros Hst. apply Z.eqb_neq in Hst. rewrite Hst. reflexivity.
  - intros Hst Hfd. rewrite Hst. cbn [Z.eqb negb]. run_step.
    cbn [Nat.add] in *. fold written. fold app_proc_fd.
    replace (app_proc_fd <? 0) with true by (symmetry; lia).
    unit_answers. reflexivity.
  - intros Hst Hfd. rewrite Hst. cbn [Z.eqb negb]. run_step.
    cbn [Nat.add] in *. fold written. fold app_proc_fd.
    replace (app_proc_fd <? 0) with false by (symmetry; lia).
    run_step. fold tmp.
    exists (w (S (S (S (S (S n))))) Z (close socket)),
           (w (S (S (S (S (S (S n)))))) Z
              (fcntl app_proc_fd F_SETFD FD_CLOEXEC)),
           (w (S (S (S (S (S (S (S n))))))) Z
              (xopen_file "/proc/self/attr/current" "w")).
    cbv zeta.
    destruct (sanitize_environment_variables _ _) as [env|].
    + run_step. unit_answers.
      match goal with
      | |- context [w ?k exec_result ?c] =>
          exists (w k exec_result c); destruct (w k exec_result c)
      end; run_step; reflexivity.
    + run_step. unit_answers. reflexivity.
Qed.

Lemma fallback_run rounds w n argv st :
  exists tail out,
    run rounds w (fallback argv st) n = (tail, out) /\
    falls_back argv st tail out.
Proof.
  unfold fallback, falls_back. run_step.
  destruct (w (S (S n)) exec_result
              (execve (w n string (xreadlink "/proc/self/exe")) argv st))
    eqn:Hres; run_step.
  all: do 2 eexists; (split; [reflexivity|]); do 3 eexists;
    (split; [reflexivity|]); reflexivity.
Qed.

(** C7. In the zygote branch, with [socket] the answer to
    [zygisk_request(SETUP)], [status] the integer then read from it and
    [app_proc_fd] the descriptor then received: when the connection fails
    ([socket < 0]), when the daemon refuses ([status != 0]), and when no
    descriptor arrives ([app_proc_fd < 0]), the run is exactly the calls made
    so far, [close(socket)] when there is a socket, and the fallback:
    [xreadlink] of [/proc/self/exe], [xumount2] of [/proc/self/exe] with
    [MNT_DETACH] whatever its result, and [execve] of the link target with
    the arguments given and the process exactly as it was at entry (memory
    and [environ] untouched: no [LD_PRELOAD], no runtime directory variable,
    no sanitizer). *)
Theorem refused_setup_falls_back_unchanged (rounds : nat) (w : world)
    (n : nat) (argv : list string) (st : process) :
  let r := run rounds w (setup_branch b argv st) n in
  let socket := w n Z (zygisk_request SETUP) in
  let status := w (1 + n)%nat Z (read_int socket) in
  let written := w (3 + n)%nat Z (xwrite socket (zygisk_ld b)) in
  let app_proc_fd := w (4 + n)%nat Z (recv_fd socket) in
  (socket < 0 ->
   exists tail,
     fst r = Event (zygisk_request SETUP) socket :: tail /\
     falls_back argv st tail (snd r)) /\
  (0 <= socket -> status <> 0 ->
   exists closed tail,
     fst r = [Event (zygisk_request SETUP) socket;
              Event (read_int socket) status;
              Event (close socket) closed] ++ tail /\
     falls_back argv st tail (snd r)) /\
  (0 <= socket -> status = 0 -> app_proc_fd < 0 ->
   exists closed tail,
     fst r = [Event (zygisk_request SETUP) socket;
              Event (read_int socket) 0;
              Event (write_int socket (loader_size b)) tt;
              Event (xwrite socket (zygisk_ld b)) written;
              Event (recv_fd socket) app_proc_fd;
              Event (close socket) closed] ++ tail /\
     falls_back argv st tail (snd r)).
Proof.
  intros r socket status written app_proc_fd. subst r.
  unfold setup_branch. cbn [bind perform run]. fold socket.
  destruct (setup_block_cases rounds w (S n) socket argv st)
    as (Hrefused & Hnone & _).
  cbv zeta in Hrefused, Hnone. cbn [Nat.add] in *.
  fold status in Hrefused, Hnone. fold written app_proc_fd in Hnone.
  split; [|split].
  - intros Hsock. replace (socket >=? 0) with false by (symmetry; lia).
    cbn [bind].
    destruct (fallback_run rounds w (S n) argv st)
      as (tail & out & Hrun & Hfb).
    rewrite Hrun. exists tail. auto.
  - intros Hsock Hst. replace (socket >=? 0) with true by (symmetry; lia).
    rewrite run_bind. unfold continue. rewrite run_bind. unfold continue.
    rewrite (Hrefused Hst). cbn [fst snd length]. run_step.
    match goal with
    | |- context [run rounds w (fallback argv ?s) ?k] =>
        destruct (fallback_run rounds w k argv s) as (tail & out & Hrun' & Hfb)
    end.
    rewrite Hrun'. cbn [fst snd app]. do 2 eexists. split; [reflexivity|].
    exact Hfb.
  - intros Hsock Hst Hfd.
    replace (socket >=? 0) with true by (symmetry; lia).
    rewrite run_bind. unfold continue. rewrite run_bind. unfold continue.
    rewrite (Hnone Hst Hfd). cbn [fst snd length]. run_step.
    match goal with
    | |- context [run rounds w (fallback argv ?s) ?k] =>
        destruct (fallback_run rounds w k argv s) as (tail & out & Hrun' & Hfb)
    end.
    rewrite Hrun'. cbn [fst snd app]. do 2 eexists. split; [reflexivity|].
    exact Hfb.
Qed.

Lemma exchange_app fd tr1 tr2 :
  exchange fd (tr1 ++ tr2) = exchange fd tr1 ++ exchange fd tr2.
Proof.
  induction tr1 as [|e tr1 IH]; [reflexivity|]. simpl.
  destruct (transfer e) as [[fd' msg]|]; [|exact IH].
  destruct (fd' =? fd); simpl; rewrite IH; reflexivity.
Qed.

Lemma falls_back_exchange argv st tail out fd :
  falls_back argv st tail out -> exchange fd tail = [].
Proof. intros (buf & rc & res & -> & _). reflexivity. Qed.

Lemma to_int_small n : 0 <= n < 2 ^ 31 -> to_int n = n.
Proof.
  intros H. unfold to_int. rewrite Z.mod_small; lia.
Qed.

(** C1 (amended). On a SETUP request answered with status 0, the exchange over
    the daemon connection is: the loader payload sent by the process to the
    daemon, as the integer [sizeof(zygisk_ld)] followed by that many raw
    bytes; then one passed descriptor for the target binary, received by the
    process; then, when that descriptor is not negative, the runtime directory
    path, read by the process as a string; in that order. With a non-zero
    status the exchange ends after the status. *)
Theorem setup_exchange_sends_loader (rounds : nat) (w : world) (n : nat)
    (argv : list string) (st : process) :
  let r := run rounds w (setup_branch b argv st) n in
  (Z.of_nat (length (zygisk_ld b)) < 2 ^ 31 ->
   (loader_size b) = Z.of_nat (length (zygisk_ld b))) /\
  exists socket rest,
    fst r = Event (zygisk_request SETUP) socket :: rest /\
    (0 <= socket ->
     exists status,
       (status <> 0 /\ exchange socket rest = [(Received, Int status)]) \/
       (status = 0 /\
        exists app_proc_fd,
          (app_proc_fd < 0 /\
           exchange socket rest =
             [(Received, Int 0); (Sent, Int (loader_size b));
              (Sent, Bytes (zygisk_ld b)); (Received, Fd app_proc_fd)]) \/
          (0 <= app_proc_fd /\
           exists tmp,
             exchange socket rest =
               [(Received, Int 0); (Sent, Int (loader_size b));
                (Sent, Bytes (zygisk_ld b)); (Received, Fd app_proc_fd);
                (Received, Str tmp)]))).
Proof.
  intros r. subst r. split.
  { intros H. apply to_int_small. lia. }
  unfold setup_branch. cbn [bind perform run].
  set (socket := w n Z (zygisk_request SETUP)).
  match goal with
  | |- context [run rounds w ?p (S n)] =>
      destruct (run rounds w p (S n)) as [rest out] eqn:Hrest
  end.
  exists socket, rest. split; [reflexivity|]. intros Hsock.
  replace (socket >=? 0) with true in Hrest by (symmetry; lia).
  rewrite run_bind in Hrest. unfold continue in Hrest.
  rewrite run_bind in Hrest. unfold continue in Hrest.
  destruct (setup_block_run rounds w (S n) socket argv st)
    as (status & [(Hst & Hrun)|(Hst & written & fd & Hcases)]).
  - exists status. left. split; [exact Hst|].
    cbv zeta in Hrun. rewrite Hrun in Hrest. cbn [fst snd length] in Hrest.
    run_step. cbn [bind perform run fst snd] in Hrest.
    match type of Hrest with
    | context [run rounds w (fallback argv ?s) ?k] =>
        destruct (fallback_run rounds w k argv s)
          as (tail & out' & Hrun' & Hfb)
    end.
    rewrite Hrun' in Hrest. cbn [fst snd app] in Hrest.
    injection Hrest as <- _.
    change (Event (read_int socket) status :: ?x) with
      ([Event (read_int socket) status] ++ x).
    cbn [exchange transfer app]. rewrite Z.eqb_refl.
    rewrite (falls_back_exchange _ _ _ _ socket Hfb). reflexivity.
  - exists status. right. split; [exact Hst|]. exists fd.
    cbv zeta in Hcases.
    destruct Hcases as [(Hfd & Hrun)|(Hfd & tmp & closed & cloexec & fp & Hrun)].
    + left. split; [exact Hfd|].
      rewrite Hrun in Hrest. cbn [fst snd length] in Hrest.
      cbn [bind perform run fst snd] in Hrest.
      match type of Hrest with
      | context [run rounds w (fallback argv ?s) ?k] =>
          destruct (fallback_run rounds w k argv s)
            as (tail & out' & Hrun' & Hfb)
      end.
      rewrite Hrun' in Hrest. cbn [fst snd app] in Hrest.
      injection Hrest as <- _.
      cbn [exchange transfer app]. rewrite !Z.eqb_refl.
      rewrite (falls_back_exchange _ _ _ _ socket Hfb). reflexivity.
    + right. split; [exact Hfd|]. exists tmp.
      destruct (sanitize_environment_variables _ _) as [env|].
      * destruct Hrun as [res Hrun]. rewrite Hrun in Hrest.
        cbn [fst snd] in Hrest.
        destruct res.
        -- injection Hrest as <- _.
           cbn [exchange transfer app]. rewrite !Z.eqb_refl. reflexivity.
        -- cbn [bind perform run fst snd] in Hrest.
           match type of Hrest with
           | context [run rounds w (fallback argv ?s) ?k] =>
               destruct (fallback_run rounds w k argv s)
                 as (tail & out' & Hrun' & Hfb)
           end.
           rewrite Hrun' in Hrest. cbn [fst snd app] in Hrest.
           injection Hrest as <- _.
           rewrite ?exchange_app.
           cbn [exchange transfer app]. rewrite !Z.eqb_refl.
           rewrite (falls_back_exchange _ _ _ _ socket Hfb). reflexivity.
      * rewrite Hrun in Hrest. cbn [fst snd] in Hrest.
        injection Hrest as <- _.
        cbn [exchange transfer app]. rewrite !Z.eqb_refl. reflexivity.
Qed.


End Entry.

(** * The sanitizer as a whole *)

Lemma survivor_iff m env env' p :
  In nullptr env ->
  sanitize_environment_variables m env = Some env' ->
  (In p (until_null env') <->
   In p (until_null env) /\ kept m p = true).
Proof.
  intros Hs Hrun.
  destruct (sanitize_survivors m env Hs) as (env0 & Hrun0 & Hsurv & _).
  assert (env' = env0) as -> by congruence.
  rewrite Hsurv. apply filter_In.
Qed.

Lemma filter_kept_twice m es :
  List.filter (kept m) (List.filter (kept m) es) = List.filter (kept m) es.
Proof.
  induction es as [|p es IH]; simpl; [reflexivity|].
  destruct (kept m p) eqn:Hk; simpl; rewrite ?Hk, IH; reflexivity.
Qed.

(** Sanitizing a sanitized record changes nothing. *)
Lemma sanitize_idempotent m env env' :
  In nullptr env ->
  sanitize_environment_variables m env = Some env' ->
  sanitize_environment_variables m env' = Some env'.
Proof.
  intros Hs Hrun.
  destruct (sanitize_survivors m env Hs)
    as (env0 & Hrun0 & Hsurv & Hlen & Hsent & Hrest).
  assert (env0 = env') as -> by congruence.
  assert (Hs' : In nullptr env').
  { apply list_elem_of_In, list_elem_of_lookup. eauto. }
  rewrite (sanitize_spec m env' Hs'), Hsurv, filter_kept_twice, <- Hsurv.
  f_equal. symmetry. apply until_null_split. exact Hs'.
Qed.

(** C2 (amended). For every well-formed entry of an environment record,
    sanitization removes the entry if and only if the substring before its
    first ['='] is exactly (byte for byte) one of the deny-listed names,
    whatever the value after ['=']; an entry whose name has a deny-listed name
    as a strict prefix, or is a strict prefix of a deny-listed name, is
    retained unless its name is itself a deny-listed name. *)
Theorem sanitizer_removes_exactly_denied_names (m : memory) (env : list ptr)
    (p : ptr) (name : string) :
  In nullptr env -> In p (until_null env) ->
  well_formed m p -> name_is m p name = true ->
  exists env',
    sanitize_environment_variables m env = Some env' /\
    (~ In p (until_null env') <-> In name UNSAFE_VARIABLE_NAMES) /\
    (forall d,
       In d UNSAFE_VARIABLE_NAMES ->
       strict_prefix d name = true \/ strict_prefix name d = true ->
       ~ In name UNSAFE_VARIABLE_NAMES ->
       In p (until_null env')).
Proof.
  intros Hs Hin Hwf Hname.
  destruct (sanitize_survivors m env Hs) as (env' & Hrun & _).
  exists env'. split; [exact Hrun|].
  assert (Hvalid : is_valid_environment_variable m p = true).
  { apply is_valid_well_formed. split; [|exact Hwf].
    pose proof (until_null_nonnull env) as Hnn.
    rewrite Forall_forall in Hnn. apply Hnn, list_elem_of_In, Hin. }
  pose proof (survivor_iff m env env' p Hs Hrun) as Hsurv.
  pose proof (is_unsafe_name m p name Hname) as Hunsafe.
  unfold kept in Hsurv. rewrite Hvalid in Hsurv. simpl in Hsurv.
  destruct (is_unsafe_environment_variable m p) eqn:Hu; simpl in Hsurv.
  - split.
    + split; [intros _; apply Hunsafe; reflexivity|].
      intros _ H. apply Hsurv in H. destruct H as [_ H]. discriminate.
    + intros d _ _ Hnot. exfalso. apply Hnot, Hunsafe. reflexivity.
  - assert (Hyes : In p (until_null env')) by (apply Hsurv; auto).
    split.
    + split; [intros H; contradiction|].
      intros H. apply Hunsafe in H. discriminate.
    + intros; exact Hyes.
Qed.


(** [getenv] reads the record only. *)
Lemma find_value_until_null m name : forall env,
  find_value m env name = find_value m (until_null env) name.
Proof.
  induction env as [|p env IH]; simpl; [reflexivity|].
  destruct (p =? nullptr) eqn:Hp; simpl; [reflexivity|].
  rewrite Hp, IH. reflexivity.
Qed.

Lemma find_value_none m name : forall es,
  (forall p, In p es -> env_match m p name = None) ->
  find_value m es name = None.
Proof.
  induction es as [|p es IH]; intros H; simpl; [reflexivity|].
  destruct (p =? nullptr); [reflexivity|].
  rewrite (H p); [|left; reflexivity].
  apply IH. intros q Hq. apply H. right. exact Hq.
Qed.

Lemma setenv_keeps_sentinel st name value :
  In nullptr (environ st) -> In nullptr (environ (setenv st name value)).
Proof.
  intros Hs. unfold setenv.
  destruct (String.eqb (c_str name) "" || negb (free_of "=" (c_str name)));
    [exact Hs|].
  cbn [environ]. apply set_entry_sentinel. exact Hs.
Qed.






(** * Concrete runs *)

Ltac in_list := vm_compute; repeat (first [left; reflexivity | right]).

Ltac not_in_list H :=
  vm_compute in H;
  repeat match type of H with
         | _ \/ _ => destruct H as [H|H]
         end;
  try discriminate H; try contradiction.

Lemma example_well_formed (p : ptr) :
  is_valid_environment_variable example_memory p = true ->
  well_formed example_memory p.
Proof. intros H. apply is_valid_well_formed in H. apply H. Qed.

(** C1, counterexample. With status 0 the loader payload does not come from
    the daemon: the process sends it. And when no descriptor arrives, no
    path is read. *)
Lemma loader_payload_goes_to_the_daemon :
  (let r := run 1 obliging_world
              (setup_branch example_build ["app_process64"%string] example_process)
              0 in
   exchange 5 (tl (fst r)) =
     [(Received, Int 0); (Sent, Int 12);
      (Sent, Bytes (repeat Byte.x7f 12));
      (Received, Fd 7); (Received, Str "/data/x"%string)] /\
   ~ payload_from_daemon (exchange 5 (tl (fst r)))) /\
  (let r := run 1 no_descriptor_world
              (setup_branch example_build ["app_process64"%string] example_process)
              0 in
   exchange 5 (tl (fst r)) =
     [(Received, Int 0); (Sent, Int 12);
      (Sent, Bytes (repeat Byte.x7f 12));
      (Received, Fd (-1))] /\
   ~ payload_from_daemon (exchange 5 (tl (fst r)))).
Proof.
  split; cbv zeta.
  - assert (E : exchange 5 (tl (fst (run 1 obliging_world
                   (setup_branch example_build ["app_process64"%string]
                      example_process) 0))) =
                [(Received, Int 0); (Sent, Int 12);
                 (Sent, Bytes (repeat Byte.x7f 12));
                 (Received, Fd 7); (Received, Str "/data/x"%string)])
      by (vm_compute; reflexivity).
    split; [exact E|]. rewrite E.
    intros (len & payload & fd & path & _ & H). discriminate H.
  - assert (E : exchange 5 (tl (fst (run 1 no_descriptor_world
                   (setup_branch example_build ["app_process64"%string]
                      example_process) 0))) =
                [(Received, Int 0); (Sent, Int 12);
                 (Sent, Bytes (repeat Byte.x7f 12));
                 (Received, Fd (-1))])
      by (vm_compute; reflexivity).
    split; [exact E|]. rewrite E.
    intros (len & payload & fd & path & _ & H). discriminate H.
Qed.

(** C2, counterexample. The name of LD_DEBUG_OUTPUT=1 (at address 28672) has
    the deny-listed LD_DEBUG as a strict prefix, the name of LD_DEBUG=1 (at
    32768) is a strict prefix of the deny-listed LD_DEBUG_OUTPUT, and both
    entries are removed, their names being deny-listed themselves. *)
Lemma prefix_rule_has_exceptions :
  (well_formed example_memory 28672 /\
   name_is example_memory 28672 "LD_DEBUG_OUTPUT" = true /\
   In 28672 (until_null example_environ) /\
   In "LD_DEBUG"%string UNSAFE_VARIABLE_NAMES /\
   strict_prefix "LD_DEBUG" "LD_DEBUG_OUTPUT" = true /\
   exists env',
     sanitize_environment_variables example_memory example_environ =
       Some env' /\
     ~ In 28672 (until_null env')) /\
  (well_formed example_memory 32768 /\
   name_is example_memory 32768 "LD_DEBUG" = true /\
   In 32768 (until_null example_environ) /\
   In "LD_DEBUG_OUTPUT"%string UNSAFE_VARIABLE_NAMES /\
   strict_prefix "LD_DEBUG" "LD_DEBUG_OUTPUT" = true /\
   exists env',
     sanitize_environment_variables example_memory example_environ =
       Some env' /\
     ~ In 32768 (until_null env')) /\
  ~ prefix_rule_without_exception.
Proof.
  assert (Hrun : sanitize_environment_variables example_memory
                   example_environ =
                 Some [4096; 20480; 24576; 36864; 0; 24576; 28672; 32768;
                       36864; 0; 77; 78]) by (vm_compute; reflexivity).
  assert (Hwf1 : well_formed example_memory 28672)
    by (apply example_well_formed; vm_compute; reflexivity).
  assert (Hwf2 : well_formed example_memory 32768)
    by (apply example_well_formed; vm_compute; reflexivity).
  assert (Hin1 : In 28672 (until_null example_environ)) by in_list.
  assert (Hin2 : In 32768 (until_null example_environ)) by in_list.
  assert (Hd1 : In "LD_DEBUG"%string UNSAFE_VARIABLE_NAMES) by in_list.
  assert (Hd2 : In "LD_DEBUG_OUTPUT"%string UNSAFE_VARIABLE_NAMES) by in_list.
  assert (Hout1 : ~ In 28672 (until_null
                     [4096; 20480; 24576; 36864; 0; 24576; 28672; 32768;
                      36864; 0; 77; 78])) by (intros H; not_in_list H).
  assert (Hout2 : ~ In 32768 (until_null
                     [4096; 20480; 24576; 36864; 0; 24576; 28672; 32768;
                      36864; 0; 77; 78])) by (intros H; not_in_list H).
  split; [|split].
  - repeat (split; [first [assumption | vm_compute; reflexivity]|]).
    eexists. split; [exact Hrun | exact Hout1].
  - repeat (split; [first [assumption | vm_compute; reflexivity]|]).
    eexists. split; [exact Hrun | exact Hout2].
  - intros H. apply Hout1.
    apply (H example_memory example_environ _ 28672
             "LD_DEBUG_OUTPUT"%string "LD_DEBUG"%string);
      [in_list | exact Hin1 | exact Hwf1 | vm_compute; reflexivity
      | exact Hd1 | left; vm_compute; reflexivity | exact Hrun].
Qed.

(** C1 on the example: status 0, descriptor 7, path /data/x. *)
Lemma setup_exchange_on_example :
  let r := run 1 obliging_world
             (setup_branch example_build ["app_process64"%string] example_process)
             0 in
  (Z.of_nat (length (zygisk_ld example_build)) < 2 ^ 31 ->
   loader_size example_build = Z.of_nat (length (zygisk_ld example_build))) /\
  exists socket rest,
    fst r = Event (zygisk_request SETUP) socket :: rest /\
    (0 <= socket ->
     exists status,
       (status <> 0 /\ exchange socket rest = [(Received, Int status)]) \/
       (status = 0 /\
        exists app_proc_fd,
          (app_proc_fd < 0 /\
           exchange socket rest =
             [(Received, Int 0); (Sent, Int (loader_size example_build));
              (Sent, Bytes (zygisk_ld example_build));
              (Received, Fd app_proc_fd)]) \/
          (0 <= app_proc_fd /\
           exists tmp,
             exchange socket rest =
               [(Received, Int 0); (Sent, Int (loader_size example_build));
                (Sent, Bytes (zygisk_ld example_build));
                (Received, Fd app_proc_fd); (Received, Str tmp)]))).
Proof.
  exact (setup_exchange_sends_loader example_build 1 obliging_world 0
           ["app_process64"%string] example_process).
Defined.

(** C2 on LD_LIBRARY_PATHOLOGY=1, the entry at address 20480. *)
Lemma pathology_entry_is_judged_by_its_name :
  In nullptr example_environ /\
  In 20480 (until_null example_environ) /\
  well_formed example_memory 20480 /\
  name_is example_memory 20480 "LD_LIBRARY_PATHOLOGY" = true /\
  exists env',
    sanitize_environment_variables example_memory example_environ =
      Some env' /\
    (~ In 20480 (until_null env') <->
     In "LD_LIBRARY_PATHOLOGY"%string UNSAFE_VARIABLE_NAMES) /\
    (forall d,
       In d UNSAFE_VARIABLE_NAMES ->
       strict_prefix d "LD_LIBRARY_PATHOLOGY" = true \/
       strict_prefix "LD_LIBRARY_PATHOLOGY" d = true ->
       ~ In "LD_LIBRARY_PATHOLOGY"%string UNSAFE_VARIABLE_NAMES ->
       In 20480 (until_null env')).
Proof.
  assert (H1 : In nullptr example_environ) by in_list.
  assert (H2 : In 20480 (until_null example_environ)) by in_list.
  assert (H3 : well_formed example_memory 20480)
    by (apply example_well_formed; vm_compute; reflexivity).
  assert (H4 : name_is example_memory 20480 "LD_LIBRARY_PATHOLOGY" = true)
    by (vm_compute; reflexivity).
  repeat (split; [assumption|]).
  exact (sanitizer_removes_exactly_denied_names example_memory
           example_environ 20480 "LD_LIBRARY_PATHOLOGY" H1 H2 H3 H4).
Defined.


(** C4 on a descriptor that the module closed and that was taken again. *)
Lemma reused_descriptor_is_left_open :
  closes (fst (run 1 reused_descriptor_world (companion_task 8192 9) 0)) = [].
Proof.
  destruct (companion_task_closes_same_file_only 1 reused_descriptor_world 0
              8192 9) as (_ & _ & _ & Hreused & _).
  apply Hreused.
  - vm_compute. reflexivity.
  - right. vm_compute. discriminate.
Defined.

(** C8 on a batch of two modules. *)
Lemma two_modules_are_registered_then_acknowledged :
  obliging_world 0%nat Z getuid = 0 /\
  0 <= obliging_world 1%nat Z (fcntl 9 F_GETFD 0) /\
  exists name msg module_fds modules loading,
    registry_trace module_fds modules loading /\
    length modules = length module_fds /\
    let before :=
      [Event getuid 0;
       Event (fcntl 9 F_GETFD 0) (obliging_world 1%nat Z (fcntl 9 F_GETFD 0));
       Event (set_nice_name name) tt; Event (LOGI msg) tt;
       Event (recv_fds 9) module_fds] ++
      loading ++ [Event (write_int 9 0) tt] in
    let loop :=
      run 2 obliging_world (Forever (serve 9 modules) : io unit)
          (0 + length before) in
    run 2 obliging_world (zygiskd example_build 9) 0 =
      (before ++ fst loop, snd loop) /\
    sent before = [(9, Int 0)] /\
    sent (fst loop) = [].
Proof.
  assert (H1 : obliging_world 0%nat Z getuid = 0) by reflexivity.
  assert (H2 : 0 <= obliging_world 1%nat Z (fcntl 9 F_GETFD 0))
    by (vm_compute; discriminate).
  repeat (split; [assumption|]).
  exact (zygiskd_builds_registry_then_acknowledges example_build 2
           obliging_world 0 9 H1 H2).
Defined.


(** C7 when no descriptor arrives. *)
Lemma setup_without_descriptor_falls_back :
  let argv := ["app_process64"%string] in
  let r := run 1 no_descriptor_world
             (setup_branch example_build argv example_process) 0 in
  0 <= no_descriptor_world 0%nat Z (zygisk_request SETUP) /\
  no_descriptor_world 1%nat Z (read_int 5) = 0 /\
  no_descriptor_world 4%nat Z (recv_fd 5) < 0 /\
  exists closed tail,
    fst r = [Event (zygisk_request SETUP) 5;
             Event (read_int 5) 0;
             Event (write_int 5 (loader_size example_build)) tt;
             Event (xwrite 5 (zygisk_ld example_build)) 12;
             Event (recv_fd 5) (-1);
             Event (close 5) closed] ++ tail /\
    falls_back argv example_process tail (snd r).
Proof.
  intros argv r.
  assert (H1 : 0 <= no_descriptor_world 0%nat Z (zygisk_request SETUP))
    by (vm_compute; discriminate).
  assert (H2 : no_descriptor_world 1%nat Z (read_int 5) = 0) by reflexivity.
  assert (H3 : no_descriptor_world 4%nat Z (recv_fd 5) < 0) by reflexivity.
  split; [exact H1|]. split; [exact H2|]. split; [exact H3|].
  destruct (refused_setup_falls_back_unchanged example_build 1
              no_descriptor_world 0 argv example_process) as (_ & _ & Hnone).
  exact (Hnone H1 H2 H3).
Defined.


(** The end-to-end scenarios on concrete inputs. *)

Example passthrough_scenario :
  run 1 obliging_world
      (zygisk_main example_build [""; "passthrough"; "9"; "1"]%string) 0 =
  ([Event android_logging tt; Event (fcntl 9 F_GETFD 0) 0;
    Event (connect_daemon ZYGISK_PASSTHROUGH) 6;
    Event (write_int 6 5) tt; Event (write_int 6 1) tt;
    Event (read_int 6) 0; Event (write_int 9 0) tt;
    Event (recv_fd 6) 7; Event (send_fd 9 7) 0],
   Returned 0).
Proof. vm_compute. reflexivity. Qed.

Example setup_scenario_preload :
  preload_value example_build example_process =
  "/system/bin/appwidget:/system/bin/appwidget"%string.
Proof. vm_compute. reflexivity. Qed.

Example sanitize_example :
  sanitize_environment_variables example_memory example_environ =
  Some [4096; 20480; 24576; 36864; 0; 24576; 28672; 32768; 36864; 0; 77; 78].
Proof. vm_compute. reflexivity. Qed.

Example unterminated_example :
  unterminated endless 4096 /\
  is_valid_environment_variable endless 4096 = false.
Proof.
  split; [intros i _; discriminate | vm_compute; reflexivity].
Qed.


Example empty_name_is_refused :
  is_valid_environment_variable
    (store_string "=A=B" 4096 (fun _ => NUL)) 4096 = false.
Proof. vm_compute. reflexivity. Qed.

Example refused_setup_scenario :
  run 1 (fun n X c =>
           match c in call X return X with
           | read_int _ => 1
           | c' => obliging _ c'
           end)
      (setup_branch example_build ["app_process64"%string] example_process)
      0 =
  ([Event (zygisk_request SETUP) 5; Event (read_int 5) 1;
    Event (close 5) 0;
    Event (xreadlink "/proc/self/exe") "/system/bin/app_process64"%string;
    Event (xumount2 "/proc/self/exe" MNT_DETACH) 0;
    Event (execve "/system/bin/app_process64" ["app_process64"%string]
             example_process) ImageReplaced],
   Stopped Replaced).
Proof. vm_compute. reflexivity. Qed.

(** * Further properties of the code *)

Import Outcomes Scenarios.

(** * More about the sanitizer *)

Lemma holds_terminates m p s :
  holds m p s -> free_of NUL s = true -> terminates_at m p (slen s).
Proof.
  intros [Hp He] Hfree. unfold terminates_at, deref.
  split; [apply slen_nonneg|]. split; [exact He|].
  intros i Hi. apply (has_prefix_free m NUL s p Hp Hfree). exact Hi.
Qed.

Lemma terminates_at_unique m p n n' :
  terminates_at m p n -> terminates_at m p n' -> n = n'.
Proof.
  intros (H0 & Hz & Hnz) (H0' & Hz' & Hnz').
  destruct (Z.lt_trichotomy n n') as [Hc|[Hc|Hc]]; [|exact Hc|]; exfalso.
  - apply (Hnz' n); [lia | exact Hz].
  - apply (Hnz n'); [lia | exact Hz'].
Qed.

(** X1. [is_valid_environment_variable] refuses the null pointer. For any
    other pointer it answers true exactly when the string stored there ends
    (has its first NUL) at an index [n] below [MAX_ENV_LEN] and has its first
    ['='] at an index [k] with [1 <= k < n]. *)
Theorem is_valid_environment_variable_iff (m : memory) (p : ptr) :
  is_valid_environment_variable m nullptr = false /\
  (is_valid_environment_variable m p = true <->
   p <> nullptr /\
   exists n k,
     terminates_at m p n /\ n < MAX_ENV_LEN /\
     first_equal_at m p k /\ 1 <= k < n).
Proof.
  split; [reflexivity|].
  rewrite is_valid_well_formed. unfold well_formed. reflexivity.
Qed.

(** X2. The bound of the validity check: an entry [name=value] stored at a
    non-null pointer, with a non-empty name free of ['='], is valid exactly
    when it is at most 131071 characters long (name, ['='] and value
    together), that is, shorter than [MAX_ENV_LEN = 32*4096]. *)
Theorem entry_is_valid_up_to_the_bound (m : memory) (p : ptr)
    (name value : string) :
  p <> nullptr ->
  holds m p (name ++ "=" ++ value) ->
  free_of NUL name = true -> free_of NUL value = true ->
  free_of "="%char name = true -> name <> EmptyString ->
  (is_valid_environment_variable m p = true <->
   slen (name ++ "=" ++ value) <= 131071).
Proof.
  intros Hp Hholds Hn Hv He Hne.
  assert (Hl : slen (name ++ "=" ++ value) = slen name + 1 + slen value).
  { rewrite !slen_append. unfold slen at 2. simpl. lia. }
  split.
  - intros Hvalid. apply is_valid_well_formed in Hvalid.
    destruct Hvalid as (_ & n & k & Hterm & Hlt & _).
    assert (Hterm' : terminates_at m p (slen (name ++ "=" ++ value))).
    { apply holds_terminates; [exact Hholds|].
      rewrite !free_of_append, Hn, Hv. reflexivity. }
    rewrite (terminates_at_unique _ _ _ _ Hterm' Hterm).
    unfold MAX_ENV_LEN in Hlt. lia.
  - intros Hlen. apply is_valid_well_formed. split; [exact Hp|].
    apply (holds_entry_well_formed m p name value); auto.
    unfold MAX_ENV_LEN. lia.
Qed.

Lemma env_match_from_value m p name : forall i v,
  env_match_from m p name i = Some v ->
  v = p + i + slen (c_str name) + 1.
Proof.
  induction name as [|c name IH]; intros i v; simpl.
  - destruct (Ascii.eqb (deref m p i) "="); [|discriminate].
    intros [= <-]. unfold slen. simpl. lia.
  - destruct (Ascii.eqb c NUL).
    + destruct (Ascii.eqb (deref m p i) "="); [|discriminate].
      intros [= <-]. unfold slen. simpl. lia.
    + destruct (Ascii.eqb (deref m p i) c); [|discriminate].
      intros H. apply IH in H. rewrite slen_cons. lia.
Qed.

Lemma env_match_from_c_str m p name : forall i,
  env_match_from m p name i = env_match_from m p (c_str name) i.
Proof.
  induction name as [|c name IH]; intros i; simpl; [reflexivity|].
  destruct (Ascii.eqb c NUL) eqn:Hc; simpl; [reflexivity|].
  rewrite Hc. destruct (Ascii.eqb (deref m p i) c); [apply IH | reflexivity].
Qed.

(** X3. [env_match(envstr, name)] returns a non-null pointer exactly when the
    characters of [name] (up to its terminating NUL) followed by ['='] are
    stored at [envstr]; the pointer returned is then the address just after
    that ['='], the start of the value. *)
Theorem env_match_points_to_the_value (m : memory) (envstr : ptr)
    (name : string) (value : ptr) :
  env_match m envstr name = Some value <->
  has_prefix m envstr (c_str name ++ "=") = true /\
  value = envstr + slen (c_str name) + 1.
Proof.
  unfold env_match. split.
  - intros H. split.
    + rewrite env_match_from_c_str in H.
      replace envstr with (envstr + 0) by lia.
      apply env_match_from_prefix; [apply c_str_free | eauto].
    + apply env_match_from_value in H. lia.
  - intros [Hp ->].
    replace envstr with (envstr + 0) in Hp by lia.
    apply env_match_from_prefix in Hp; [|apply c_str_free].
    destruct Hp as [q Hq]. rewrite env_match_from_c_str, Hq. f_equal.
    rewrite <- env_match_from_c_str in Hq.
    apply env_match_from_value in Hq. lia.
Qed.

(** X4. Sanitizing twice changes nothing: the array that
    [sanitize_environment_variables] leaves is left as it is by a second
    pass, and every entry of its record passes both tests. *)
Theorem sanitizing_twice_changes_nothing (m : memory) (env env' : list ptr) :
  In nullptr env ->
  sanitize_environment_variables m env = Some env' ->
  sanitize_environment_variables m env' = Some env' /\
  until_null env' = List.filter (kept m) (until_null env').
Proof.
  intros Hs Hrun. split; [eapply sanitize_idempotent; eauto|].
  destruct (sanitize_survivors m env Hs) as (env0 & Hrun0 & Hsurv & _).
  assert (env0 = env') as -> by congruence.
  rewrite Hsurv, filter_kept_twice. reflexivity.
Qed.

(** X2 on the entry PATH=/system/bin at address 4096. *)
Lemma path_entry_is_within_the_bound :
  4096 <> nullptr /\
  holds example_memory 4096 ("PATH" ++ "=" ++ "/system/bin") /\
  (is_valid_environment_variable example_memory 4096 = true <->
   slen ("PATH" ++ "=" ++ "/system/bin") <= 131071).
Proof.
  assert (H1 : 4096 <> nullptr) by (vm_compute; discriminate).
  assert (H2 : holds example_memory 4096 ("PATH" ++ "=" ++ "/system/bin"))
    by (split; vm_compute; reflexivity).
  repeat (split; [assumption|]).
  apply (entry_is_valid_up_to_the_bound example_memory 4096 "PATH"
           "/system/bin" H1 H2);
    [reflexivity | reflexivity | reflexivity | discriminate].
Defined.

(** X4 on the example environment. *)
Lemma example_environment_sanitized_twice :
  In nullptr example_environ /\
  sanitize_environment_variables example_memory example_environ =
    Some [4096; 20480; 24576; 36864; 0; 24576; 28672; 32768; 36864; 0; 77; 78] /\
  sanitize_environment_variables example_memory
    [4096; 20480; 24576; 36864; 0; 24576; 28672; 32768; 36864; 0; 77; 78] =
    Some [4096; 20480; 24576; 36864; 0; 24576; 28672; 32768; 36864; 0; 77; 78] /\
  until_null [4096; 20480; 24576; 36864; 0; 24576; 28672; 32768; 36864; 0; 77; 78] =
    List.filter (kept example_memory)
      (until_null
         [4096; 20480; 24576; 36864; 0; 24576; 28672; 32768; 36864; 0; 77; 78]).
Proof.
  assert (H1 : In nullptr example_environ) by in_list.
  assert (H2 : sanitize_environment_variables example_memory example_environ =
               Some [4096; 20480; 24576; 36864; 0; 24576; 28672; 32768;
                     36864; 0; 77; 78])
    by (vm_compute; reflexivity).
  split; [exact H1|]. split; [exact H2|].
  exact (sanitizing_twice_changes_nothing example_memory example_environ _
           H1 H2).
Defined.

Lemma find_value_filter m name (f : Z -> bool) : forall es,
  Forall (fun p => p <> nullptr) es ->
  (forall p, In p es -> env_match m p name <> None -> f p = true) ->
  find_value m (List.filter f es) name = find_value m es name.
Proof.
  induction es as [|p es IH]; intros Hnn Hf; simpl; [reflexivity|].
  inversion Hnn as [|? ? Hp Hes]; subst.
  apply Z.eqb_neq in Hp. rewrite Hp.
  assert (IH' : find_value m (List.filter f es) name = find_value m es name).
  { apply IH; [exact Hes|]. intros q Hq. apply Hf. right. exact Hq. }
  destruct (env_match m p name) as [v|] eqn:Hm.
  - rewrite (Hf p); [|left; reflexivity | rewrite Hm; discriminate].
    simpl. rewrite Hp, Hm. reflexivity.
  - destruct (f p); simpl; [rewrite Hp, Hm|]; exact IH'.
Qed.

Lemma unsafe_false_no_match m p d :
  is_unsafe_environment_variable m p = false ->
  In d UNSAFE_VARIABLE_NAMES -> env_match m p d = None.
Proof.
  unfold is_unsafe_environment_variable. intros Hu Hd.
  destruct (env_match m p d) as [v|] eqn:Hm; [|reflexivity].
  exfalso. rewrite <- not_true_iff_false in Hu. apply Hu.
  apply existsb_exists. exists d. split; [exact Hd|]. rewrite Hm. reflexivity.
Qed.

(** X5. After [sanitize_environment_variables], no entry of the record
    defines a deny-listed name: looking such a name up (as [getenv] does, with
    [env_match] on each entry before the sentinel) finds nothing, however
    many entries defined it before. *)
Theorem denied_names_are_unset_after_sanitizing (m : memory)
    (env env' : list ptr) (d : string) :
  In nullptr env ->
  sanitize_environment_variables m env = Some env' ->
  In d UNSAFE_VARIABLE_NAMES ->
  find_value m env' d = None.
Proof.
  intros Hs Hrun Hd. rewrite find_value_until_null.
  apply find_value_none. intros p Hp.
  apply (survivor_iff m env env' p Hs Hrun) in Hp. destruct Hp as [_ Hk].
  apply kept_iff in Hk. destruct Hk as [_ Hu].
  apply unsafe_false_no_match; assumption.
Qed.

(** X5 on the example environment: LD_LIBRARY_PATH was set, and is not set
    any more. *)
Lemma library_path_is_unset_after_sanitizing :
  In nullptr example_environ /\
  find_value example_memory example_environ "LD_LIBRARY_PATH" = Some 8208 /\
  find_value example_memory
    [4096; 20480; 24576; 36864; 0; 24576; 28672; 32768; 36864; 0; 77; 78]
    "LD_LIBRARY_PATH" = None.
Proof.
  assert (H1 : In nullptr example_environ) by in_list.
  split; [exact H1|]. split; [vm_compute; reflexivity|].
  apply (denied_names_are_unset_after_sanitizing example_memory
           example_environ _ "LD_LIBRARY_PATH" H1);
    [vm_compute; reflexivity | in_list].
Defined.

(** X6. The sanitizer does not disturb other variables: for a name that is
    not deny-listed (and has no ['='] or NUL), when every entry that defines
    it passes [is_valid_environment_variable], looking the name up gives the
    same pointer after sanitization as before (or nothing in both). *)
Theorem other_names_keep_their_value (m : memory) (env env' : list ptr)
    (name : string) :
  In nullptr env ->
  sanitize_environment_variables m env = Some env' ->
  free_of NUL name = true -> free_of "="%char name = true ->
  ~ In name UNSAFE_VARIABLE_NAMES ->
  (forall p, In p (until_null env) -> env_match m p name <> None ->
             is_valid_environment_variable m p = true) ->
  find_value m env' name = find_value m env name.
Proof.
  intros Hs Hrun Hn He Hsafe Hvalid.
  destruct (sanitize_survivors m env Hs) as (env0 & Hrun0 & Hsurv & _).
  assert (env0 = env') as -> by congruence.
  rewrite (find_value_until_null m name env'), Hsurv,
    (find_value_until_null m name env).
  apply find_value_filter; [apply until_null_nonnull|].
  intros p Hp Hm. apply kept_iff. split; [apply Hvalid; assumption|].
  apply not_true_iff_false. intros Hu.
  assert (Hname : name_is m p name = true).
  { apply env_match_name_is; [exact Hn | exact He|].
    destruct (env_match m p name) as [v|]; [eauto | contradiction]. }
  apply (is_unsafe_name m p name Hname) in Hu. contradiction.
Qed.

(** X6 on the example environment and LD_PRELOAD. *)
Lemma preload_value_is_kept_by_the_sanitizer :
  In nullptr example_environ /\
  find_value example_memory
    [4096; 20480; 24576; 36864; 0; 24576; 28672; 32768; 36864; 0; 77; 78]
    "LD_PRELOAD" =
  find_value example_memory example_environ "LD_PRELOAD".
Proof.
  assert (H1 : In nullptr example_environ) by in_list.
  split; [exact H1|].
  apply (other_names_keep_their_value example_memory example_environ _
           "LD_PRELOAD" H1);
    [vm_compute; reflexivity | reflexivity | reflexivity
    | apply LD_PRELOAD_not_denied |].
  intros p Hp Hm. vm_compute in Hp.
  repeat match type of Hp with
         | _ \/ _ => destruct Hp as [<-|Hp]
         end;
    try contradiction; try (vm_compute; reflexivity);
    exfalso; apply Hm; vm_compute; reflexivity.
Defined.

(** * More about the entry protocol *)

Ltac pair_eq := apply f_equal2; [reflexivity | reflexivity].

Section EntryMore.
Context (b : build).

(** X7. How [app_process_main] decides whether it is the zygote. With SELinux
    disabled it is the zygote exactly when one of its arguments is
    [--zygote]. With SELinux enabled the arguments are not looked at: the
    process reads one word from [/proc/self/attr/current] and is the zygote
    exactly when that word is [u:r:zygote:s0]; when the file cannot be
    opened, it is not the zygote and nothing is read. *)
Theorem is_zygote_by_context_or_flag (rounds : nat) (w : world) (n : nat)
    (argv : list string) :
  let r := run rounds w (is_zygote argv) n in
  exists se,
    (se = false /\
     fst r = [Event selinux_enabled se] /\
     exists zygote,
       snd r = Returned zygote /\
       (zygote = true <-> In "--zygote"%string argv)) \/
    (se = true /\
     exists fp,
       (fp = 0 /\
        fst r = [Event selinux_enabled se;
                 Event (open_file "/proc/self/attr/current" "r") fp] /\
        snd r = Returned false) \/
       (fp <> 0 /\
        exists buf zygote,
          fst r = [Event selinux_enabled se;
                   Event (open_file "/proc/self/attr/current" "r") fp;
                   Event (fscanf_s fp) buf] /\
          snd r = Returned zygote /\
          (zygote = true <-> buf = "u:r:zygote:s0"%string))).
Proof.
  intros r. subst r. unfold is_zygote. run_step.
  exists (w n bool selinux_enabled).
  destruct (w n bool selinux_enabled) eqn:Hse; cbn [negb]; run_step.
  - right. split; [reflexivity|].
    exists (w (S n) Z (open_file "/proc/self/attr/current" "r")).
    destruct (w (S n) Z (open_file "/proc/self/attr/current" "r") =? 0)
      eqn:Hfp; run_step.
    + left. apply Z.eqb_eq in Hfp. auto.
    + right. apply Z.eqb_neq in Hfp. split; [exact Hfp|].
      do 2 eexists. split; [reflexivity|]. split; [reflexivity|].
      apply String.eqb_eq.
  - left. split; [reflexivity|]. split; [reflexivity|].
    eexists. split; [reflexivity|].
    rewrite existsb_exists. split.
    + intros (arg & Hin & Heq). apply String.eqb_eq in Heq. subst arg.
      exact Hin.
    + intros Hin. exists "--zygote"%string. split; [exact Hin|].
      apply String.eqb_refl.
Qed.

(** Every behaviour of the branch that is not the zygote. *)
Lemma passthrough_branch_run rounds w n argv st :
  let r := run rounds w (passthrough_branch b argv st) n in
  exists fds pid,
    let forked :=
      [Event (socketpair AF_UNIX (Z.lor SOCK_STREAM SOCK_CLOEXEC) 0) fds;
       Event fork_dont_care pid] in
    (pid = 0 /\
     exists kept_open res,
       r = (forked ++
            [Event (fcntl (snd fds) F_SETFD 0) kept_open;
             Event (execlp "magisk"
                      [""; "zygisk"; "passthrough"; decimal (snd fds);
                       if LP64 b then "1" else "0"]%string) res],
            match res with
            | ImageReplaced => Stopped Replaced
            | ExecFailed _ => Stopped (Exited (-1))
            end)) \/
    (pid <> 0 /\
     exists closed status,
       let waited :=
         forked ++ [Event (close (snd fds)) closed;
                    Event (read_int (fst fds)) status] in
       (status <> 0 /\
        r = (waited ++
             [Event (fprintf stderr
                       ("Failed to connect magiskd, try umount " ++
                        percent_s (argv !! 0%nat) ++ " or reboot." ++ newline)%string) tt],
             Returned 1)) \/
       (status = 0 /\
        exists app_proc_fd,
          (app_proc_fd < 0 /\
           r = (waited ++ [Event (recv_fd (fst fds)) app_proc_fd],
                Returned 1)) \/
          (0 <= app_proc_fd /\
           exists closed' cloexec res,
             r = (waited ++
                  [Event (recv_fd (fst fds)) app_proc_fd;
                   Event (close (fst fds)) closed';
                   Event (fcntl app_proc_fd F_SETFD FD_CLOEXEC) cloexec;
                   Event (fexecve app_proc_fd argv st) res],
                  match res with
                  | ImageReplaced => Stopped Replaced
                  | ExecFailed _ => Returned 1
                  end)))).
Proof.
  intros r. subst r. unfold passthrough_branch. run_step.
  set (fds := w n (Z * Z)%type
                (socketpair AF_UNIX (Z.lor SOCK_STREAM SOCK_CLOEXEC) 0)).
  exists fds, (w (S n) Z fork_dont_care). cbv zeta.
  destruct (w (S n) Z fork_dont_care =? 0) eqn:Hpid; run_step.
  - left. apply Z.eqb_eq in Hpid. split; [exact Hpid|]. rewrite Hpid.
    match goal with
    | |- context [w ?k exec_result ?c] => destruct (w k exec_result c)
    end; run_step; do 2 eexists; pair_eq.
  - right. apply Z.eqb_neq in Hpid. split; [exact Hpid|].
    exists (w (S (S n)) Z (close (snd fds))),
           (w (S (S (S n))) Z (read_int (fst fds))).
    destruct (w (S (S (S n))) Z (read_int (fst fds)) =? 0) eqn:Hst;
      cbn [negb]; run_step.
    + right. apply Z.eqb_eq in Hst. split; [exact Hst|]. rewrite Hst.
      exists (w (S (S (S (S n)))) Z (recv_fd (fst fds))).
      destruct (w (S (S (S (S n)))) Z (recv_fd (fst fds)) <? 0) eqn:Hfd;
        run_step.
      * left. apply Z.ltb_lt in Hfd. auto.
      * right. apply Z.ltb_ge in Hfd. split; [exact Hfd|].
        match goal with
        | |- context [w ?k exec_result ?c] => destruct (w k exec_result c)
        end; run_step; do 3 eexists; pair_eq.
    + left. apply Z.eqb_neq in Hst. split; [exact Hst|].
      unit_answers. reflexivity.
Qed.

(** X8. The branch of a process that is not the zygote. It makes a socket
    pair and forks. The child clears close-on-exec on [fds[1]] and executes
    [magisk] with the arguments ["", "zygisk", "passthrough", fds[1] in
    decimal, "1" or "0" for the word size]; when that fails it exits with -1,
    having closed nothing. The parent closes [fds[1]] and reads a status from
    [fds[0]]: on a non-zero status it prints the hint to unmount [argv[0]] on
    stderr ([(null)] for the null [argv[0]] of a process without arguments)
    and returns 1; on status 0 it receives a descriptor; when that is
    negative it returns 1; otherwise it closes [fds[0]], sets close-on-exec
    on the descriptor and calls [fexecve] on it with its own arguments and
    its process (memory and environment) untouched, returning 1 only when
    [fexecve] fails. *)
Theorem passthrough_branch_behaviour (rounds : nat) (w : world) (n : nat)
    (argv : list string) (st : process) :
  let r := run rounds w (passthrough_branch b argv st) n in
  exists fds pid,
    let forked :=
      [Event (socketpair AF_UNIX (Z.lor SOCK_STREAM SOCK_CLOEXEC) 0) fds;
       Event fork_dont_care pid] in
    (pid = 0 /\
     exists kept_open res,
       fst r = forked ++
               [Event (fcntl (snd fds) F_SETFD 0) kept_open;
                Event (execlp "magisk"
                         [""; "zygisk"; "passthrough"; decimal (snd fds);
                          if LP64 b then "1" else "0"]%string) res] /\
       closes (fst r) = [] /\
       snd r = match res with
               | ImageReplaced => Stopped Replaced
               | ExecFailed _ => Stopped (Exited (-1))
               end) \/
    (pid <> 0 /\
     exists closed status,
       let waited :=
         forked ++ [Event (close (snd fds)) closed;
                    Event (read_int (fst fds)) status] in
       (status <> 0 /\
        fst r = waited ++
                [Event (fprintf stderr
                          ("Failed to connect magiskd, try umount " ++
                           percent_s (argv !! 0%nat) ++ " or reboot." ++ newline)%string)
                       tt] /\
        closes (fst r) = [snd fds] /\
        snd r = Returned 1) \/
       (status = 0 /\
        exists app_proc_fd,
          (app_proc_fd < 0 /\
           fst r = waited ++ [Event (recv_fd (fst fds)) app_proc_fd] /\
           closes (fst r) = [snd fds] /\
           snd r = Returned 1) \/
          (0 <= app_proc_fd /\
           exists closed' cloexec res,
             fst r = waited ++
                     [Event (recv_fd (fst fds)) app_proc_fd;
                      Event (close (fst fds)) closed';
                      Event (fcntl app_proc_fd F_SETFD FD_CLOEXEC) cloexec;
                      Event (fexecve app_proc_fd argv st) res] /\
             closes (fst r) = [snd fds; fst fds] /\
             snd r = match res with
                     | ImageReplaced => Stopped Replaced
                     | ExecFailed _ => Returned 1
                     end))).
Proof.
  intros r.
  destruct (passthrough_branch_run rounds w n argv st) as (fds & pid & H).
  fold r in H. cbv zeta in H. exists fds, pid. cbv zeta.
  destruct H as [(Hpid & kept_open & res & Hr)
                |(Hpid & closed & status & H)].
  - left. split; [exact Hpid|]. exists kept_open, res. rewrite Hr.
    split; [reflexivity|]. split; reflexivity.
  - right. split; [exact Hpid|]. exists closed, status.
    destruct H as [(Hst & Hr)|(Hst & fd & H)].
    + left. split; [exact Hst|]. rewrite Hr.
      split; [reflexivity|]. split; reflexivity.
    + right. split; [exact Hst|]. exists fd.
      destruct H as [(Hfd & Hr)|(Hfd & closed' & cloexec & res & Hr)].
      * left. split; [exact Hfd|]. rewrite Hr.
        split; [reflexivity|]. split; reflexivity.
      * right. split; [exact Hfd|]. exists closed', cloexec, res. rewrite Hr.
        split; [reflexivity|]. split; reflexivity.
Qed.

(** Without arguments ([argc] is 0) the hint names [(null)]. *)
Example refused_helper_without_arguments :
  run 1 (fun n X c =>
           match c in call X return X with
           | read_int _ => 1
           | c' => obliging _ c'
           end)
      (passthrough_branch example_build [] example_process) 0 =
  ([Event (socketpair AF_UNIX (Z.lor SOCK_STREAM SOCK_CLOEXEC) 0) (3, 4);
    Event fork_dont_care 1; Event (close 4) 0; Event (read_int 3) 1;
    Event (fprintf stderr
             ("Failed to connect magiskd, try umount (null) or reboot." ++
              newline)%string) tt],
   Returned 1).
Proof. vm_compute. reflexivity. Qed.









(** X11. The runtime directory reaches the new image: when the name in
    [MAGISKTMP_ENV] is a usable variable name (non-empty, no ['=']) that is
    not deny-listed and the entry is shorter than [MAX_ENV_LEN], the entry
    [MAGISKTMP_ENV=tmp] that the second [setenv] stores, with the path [tmp]
    read from the daemon, is in the record that the sanitizer leaves for
    [fexecve]. *)
Theorem runtime_directory_reaches_the_image (st : process) (tmp : string) :
  0 < brk st ->
  In nullptr (environ st) ->
  c_str (MAGISKTMP_ENV b) <> EmptyString ->
  free_of "="%char (c_str (MAGISKTMP_ENV b)) = true ->
  ~ In (c_str (MAGISKTMP_ENV b)) UNSAFE_VARIABLE_NAMES ->
  slen (entry_of (MAGISKTMP_ENV b) tmp) < MAX_ENV_LEN ->
  exists env,
    sanitize_environment_variables (mem (prepared b st tmp))
      (environ (prepared b st tmp)) = Some env /\
    In (brk (with_preload b st)) (until_null env) /\
    holds (mem (prepared b st tmp)) (brk (with_preload b st))
      (entry_of (MAGISKTMP_ENV b) tmp) /\
    name_is (mem (prepared b st tmp)) (brk (with_preload b st))
      (c_str (MAGISKTMP_ENV b)) = true.
Proof.
  intros Hheap Hs Hne Hclean Hsafe Hshort.
  set (st1 := with_preload b st).
  assert (Hheap1 : 0 < brk st1).
  { destruct preload_name_ok as [H1 H2].
    pose proof (setenv_brk st "LD_PRELOAD" (preload_value b st) H1 H2).
    unfold st1, with_preload. lia. }
  assert (Hs1 : In nullptr (environ st1)).
  { apply setenv_keeps_sentinel. exact Hs. }
  assert (Hholds : holds (mem (prepared b st tmp)) (brk st1)
                     (entry_of (MAGISKTMP_ENV b) tmp)).
  { apply (setenv_holds st1 (MAGISKTMP_ENV b) tmp Hne Hclean). }
  assert (Hin : In (brk st1) (until_null (environ (prepared b st tmp)))).
  { apply (setenv_in st1 (MAGISKTMP_ENV b) tmp Hne Hclean Hheap1). }
  assert (Hs2 : In nullptr (environ (prepared b st tmp))).
  { apply setenv_keeps_sentinel. exact Hs1. }
  assert (Hwf : well_formed (mem (prepared b st tmp)) (brk st1) /\
                name_is (mem (prepared b st tmp)) (brk st1)
                  (c_str (MAGISKTMP_ENV b)) = true).
  { apply (holds_entry_well_formed _ _ (c_str (MAGISKTMP_ENV b)) (c_str tmp));
      [exact Hholds | apply c_str_free | apply c_str_free | exact Hclean
      | exact Hne |].
    unfold entry_of in Hshort. rewrite !slen_append in Hshort.
    change (slen "=") with 1 in Hshort. lia. }
  destruct Hwf as [Hwf Hname].
  destruct (well_formed_safe_survives (mem (prepared b st tmp))
              (environ (prepared b st tmp)) (brk st1) Hs2 Hin Hwf)
    as (env & Hrun & Hsurv).
  - apply not_true_iff_false. intros Hu.
    apply (is_unsafe_name _ _ _ Hname) in Hu. contradiction.
  - exists env. auto.
Qed.

Lemma string_from_holds m s : forall limit p,
  has_prefix m p s = true -> m (p + slen s) = NUL -> free_of NUL s = true ->
  (String.length s <= limit)%nat ->
  string_from m limit p = s.
Proof.
  induction s as [|c s IH]; intros limit p Hp He Hfree Hlen.
  - unfold slen in He. simpl in He. rewrite Z.add_0_r in He.
    destruct limit; simpl; [reflexivity|]. rewrite He. reflexivity.
  - simpl in Hp, Hfree, Hlen.
    apply andb_prop in Hp. destruct Hp as [Hc Hp].
    apply andb_prop in Hfree. destruct Hfree as [Hnz Hfree].
    apply Ascii.eqb_eq in Hc.
    destruct limit as [|limit]; [lia|]. simpl. rewrite Hc.
    apply negb_true_iff in Hnz. rewrite Hnz. f_equal.
    apply IH; [exact Hp | | exact Hfree | lia].
    rewrite slen_cons in He. rewrite <- He. f_equal. lia.
Qed.

Lemma find_value_first m name p v after : forall before,
  Forall (fun q => q <> nullptr /\ env_match m q name = None) before ->
  p <> nullptr -> env_match m p name = Some v ->
  find_value m (before ++ p :: after) name = Some v.
Proof.
  induction before as [|q before IH]; intros Hb Hp Hm; simpl.
  - apply Z.eqb_neq in Hp. rewrite Hp, Hm. reflexivity.
  - inversion Hb as [|? ? [Hq Hnone] Hrest]; subst.
    apply Z.eqb_neq in Hq. rewrite Hq, Hnone. apply IH; assumption.
Qed.

(** X12. The value given to [LD_PRELOAD] when the variable is set already:
    when the first entry of the environment that defines [LD_PRELOAD] holds
    the value [old] (possibly empty; stored in allocated memory), the new
    value is [old], a [':'] and [HIJACK_BIN]. *)
Theorem preload_is_appended_to_previous_value (st : process)
    (before after : list ptr) (p : ptr) (old : string) :
  environ st = before ++ p :: after ->
  Forall (fun q => q <> nullptr /\
                   env_match (mem st) q "LD_PRELOAD" = None) before ->
  p <> nullptr ->
  holds (mem st) p ("LD_PRELOAD=" ++ old) ->
  free_of NUL old = true ->
  p + 11 + slen old <= brk st ->
  preload_value b st = (old ++ ":" ++ HIJACK_BIN b)%string.
Proof.
  intros Henv Hbefore Hp [Hpre Hend] Hfree Hbrk.
  rewrite has_prefix_append in Hpre. apply andb_prop in Hpre.
  destruct Hpre as [Hname Hold].
  change (slen "LD_PRELOAD=") with 11 in Hold.
  rewrite slen_append in Hend. change (slen "LD_PRELOAD=") with 11 in Hend.
  assert (Hm : env_match (mem st) p "LD_PRELOAD" = Some (p + 11)).
  { destruct (proj2 (env_match_from_prefix (mem st) p "LD_PRELOAD" 0
                       eq_refl)) as [v Hv].
    - rewrite Z.add_0_r. exact Hname.
    - unfold env_match. rewrite Hv. f_equal.
      apply env_match_from_value in Hv. change (slen (c_str "LD_PRELOAD"))
        with 10 in Hv. lia. }
  unfold preload_value, getenv. rewrite Henv.
  rewrite (find_value_first _ _ _ _ _ _ Hbefore Hp Hm).
  f_equal. unfold string_at.
  apply string_from_holds; [exact Hold | | exact Hfree |].
  - rewrite <- Hend. f_equal. lia.
  - unfold slen in Hbrk. lia.
Qed.

(** X13. The value given to [LD_PRELOAD] when the variable is not set: when
    no entry of the record defines [LD_PRELOAD], the new value is
    [HIJACK_BIN] alone. *)
Theorem preload_is_the_hijack_path_when_unset (st : process) :
  (forall q, In q (until_null (environ st)) ->
             env_match (mem st) q "LD_PRELOAD" = None) ->
  preload_value b st = HIJACK_BIN b.
Proof.
  intros Hnone. unfold preload_value, getenv.
  rewrite find_value_until_null, (find_value_none _ _ _ Hnone). reflexivity.
Qed.

End EntryMore.

(** * More about the companion daemon *)

Lemma closes_app tr1 tr2 : closes (tr1 ++ tr2) = closes tr1 ++ closes tr2.
Proof. apply omap_app. Qed.

Lemma dispatches_app tr1 tr2 :
  dispatches (tr1 ++ tr2) = dispatches tr1 ++ dispatches tr2.
Proof. apply omap_app. Qed.

Lemma slot_trace_closes fd entry tr :
  slot_trace fd entry tr -> closes tr = [fd] /\ dispatches tr = [].
Proof.
  intros (rc & s & closed & [(_ & _ & ->)|(_ & _ & h & H)]);
    [split; reflexivity|].
  destruct H as [(_ & _ & msg & ->)|(_ & ->)]; split; reflexivity.
Qed.

Lemma registry_trace_closes fds modules tr :
  registry_trace fds modules tr -> closes tr = fds /\ dispatches tr = [].
Proof.
  induction 1 as [|fd entry tr fds modules rest Hslot _ [IHc IHd]];
    [split; reflexivity|].
  destruct (slot_trace_closes _ _ _ Hslot) as [Hc Hd].
  rewrite closes_app, dispatches_app, Hc, Hd, IHc, IHd. split; reflexivity.
Qed.

(** What holds of every iteration holds of the loop. *)
Lemma iterate_trace {R : Type} (P : list event -> Prop) body r :
  P [] -> (forall a c, P a -> P c -> P (a ++ c)) ->
  (forall k, P (fst (body k))) ->
  forall n, P (fst (@iterate R body r n)).
Proof.
  intros Hnil Happ Hbody.
  induction r as [|r IH]; intros n; simpl; [exact Hnil|].
  specialize (Hbody n) as Hn. destruct (body n) as [tr out]. simpl in Hn.
  destruct out as [[]|t|]; simpl; auto.
  specialize (IH (n + length tr)%nat).
  destruct (iterate body r (n + length tr)) as [tr' out']. simpl in *.
  apply Happ; assumption.
Qed.

Lemma iterate_stops {R : Type} (t0 : termination) body r :
  (forall k, snd (body k) = Returned tt \/ snd (body k) = Stopped t0) ->
  forall n,
    snd (@iterate R body r n) = Running \/
    snd (@iterate R body r n) = Stopped t0.
Proof.
  intros Hbody.
  induction r as [|r IH]; intros n; simpl; [left; reflexivity|].
  specialize (Hbody n) as Hn. destruct (body n) as [tr out]. simpl in Hn.
  destruct Hn as [-> | ->]; simpl; [|right; reflexivity].
  specialize (IH (n + length tr)%nat).
  destruct (iterate body r (n + length tr)) as [tr' out']. exact IH.
Qed.

Lemma serve_outcome rounds w n socket modules :
  let out := snd (run rounds w (serve socket modules) n) in
  out = Returned tt \/ out = Stopped (Exited 0).
Proof.
  unfold serve. run_step.
  destruct (negb (w n Z (poll socket POLLIN) =? 0) &&
            (Z.land (w n Z (poll socket POLLIN)) POLLIN =? 0));
    run_step; [right; reflexivity|].
  destruct (w (S n) Z (recv_fd socket) <? 0); run_step; [right; reflexivity|].
  match goal with |- context [if ?c then _ else _] => destruct c end;
    run_step; left; reflexivity.
Qed.

Lemma serve_dispatches_registered rounds w n socket modules :
  Forall (registered_task modules)
    (dispatches (fst (run rounds w (serve socket modules) n))).
Proof.
  unfold serve. run_step.
  destruct (negb (w n Z (poll socket POLLIN) =? 0) &&
            (Z.land (w n Z (poll socket POLLIN)) POLLIN =? 0));
    run_step; [constructor|].
  set (client := w (S n) Z (recv_fd socket)).
  destruct (client <? 0) eqn:Hclient; run_step; [constructor|].
  set (module_id := w (S (S n)) Z (read_int client)).
  destruct ((module_id >=? 0) &&
            (module_id <? Z.of_nat (length modules)) &&
            negb (nth (Z.to_nat module_id) modules nullptr =? nullptr))
    eqn:Hslot; run_step; [|constructor].
  apply andb_prop in Hslot. destruct Hslot as [_ Hpop].
  apply negb_true_iff in Hpop.
  destruct (nth_populated modules (Z.to_nat module_id) Hpop)
    as (entry & Hlook & Hnn & Hnth).
  rewrite Hnth. cbn [dispatches omap spawned_task].
  constructor; [|constructor].
  exists (Z.to_nat module_id), entry, client.
  split; [exact Hlook|]. split; [exact Hnn|]. split; [lia | reflexivity].
Qed.

Section DaemonMore.
Context (b : build).

(** The daemon either refuses its caller or builds the registry and
    serves. *)
Lemma zygiskd_run rounds w n socket :
  let r := run rounds w (zygiskd b socket) n in
  (exists tr,
     r = (tr, Stopped (Exited (-1))) /\ closes tr = [] /\
     dispatches tr = []) \/
  (exists module_fds modules before k,
     length modules = length module_fds /\
     closes before = module_fds /\ dispatches before = [] /\
     let loop := iterate (run rounds w (serve socket modules)) rounds k in
     r = (before ++ fst loop, snd loop)).
Proof.
  intros r. subst r. unfold zygiskd. run_step.
  destruct (w n Z getuid =? 0) eqn:Huid; cbn [negb]; run_step.
  2:{ left. eexists. split; [reflexivity|]. split; reflexivity. }
  destruct (w (S n) Z (fcntl socket F_GETFD 0) <? 0) eqn:Hok; run_step.
  { left. eexists. split; [reflexivity|]. split; reflexivity. }
  right.
  destruct (startup_run rounds w (S (S (S (S n)))) socket)
    as (module_fds & modules & loading & Hreg & Hrun).
  rewrite run_bind, Hrun. unfold continue. cbn [fst snd].
  unit_answers. cbn [run].
  destruct (registry_trace_closes _ _ _ Hreg) as [Hc Hd].
  match goal with
  | |- context [iterate _ rounds ?k] =>
      exists module_fds, modules,
        ([Event getuid (w n Z getuid);
          Event (fcntl socket F_GETFD 0) (w (S n) Z (fcntl socket F_GETFD 0));
          Event (set_nice_name
                   (if LP64 b then "zygiskd64" else "zygiskd32")%string) tt;
          Event (LOGI (if LP64 b then "* Launching zygiskd64" ++ newline
                       else "* Launching zygiskd32" ++ newline)%string) tt;
          Event (recv_fds socket) module_fds] ++
         loading ++ [Event (write_int socket 0) tt]), k
  end.
  split; [eapply registry_trace_length; eauto|].
  split; [rewrite !closes_app, Hc; cbn; apply app_nil_r|].
  split; [rewrite !dispatches_app, Hd; reflexivity|].
  cbv zeta.
  destruct (iterate (run rounds w (serve socket modules)) rounds _)
    as [tr out].
  cbn [app fst snd]. rewrite <- !app_assoc. reflexivity.
Qed.

(** X14. [zygisk_main] with the arguments of the companion ([argc == 3],
    [argv[1] == "companion"]) runs [zygiskd] on the descriptor parsed from
    [argv[2]] and never returns from it: the run ends with [exit(-1)] (the
    caller was refused), with [exit(0)] (the control connection failed), or
    is still serving; the [return 0] behind the call is never reached. *)
Theorem companion_daemon_never_returns (rounds : nat) (w : world) (n : nat)
    (arg0 arg2 : string) :
  let d := run rounds w (zygiskd b (parse_int b arg2)) (S n) in
  let r := run rounds w (zygisk_main b [arg0; "companion"%string; arg2]) n in
  fst r = Event android_logging tt :: fst d /\
  (snd r = Stopped (Exited (-1)) \/ snd r = Stopped (Exited 0) \/
   snd r = Running).
Proof.
  intros d r. subst r. unfold zygisk_main.
  cbn [length Nat.eqb nth String.eqb Ascii.eqb Bool.eqb andb].
  cbn [bind perform run]. unit_answers. rewrite run_bind.
  fold d. unfold continue.
  assert (Hd : snd d = Stopped (Exited (-1)) \/ snd d = Stopped (Exited 0) \/
               snd d = Running).
  { destruct (zygiskd_run rounds w (S n) (parse_int b arg2))
      as [(tr & Hr & _)|(fds & modules & before & k & _ & _ & _ & Hr)];
      cbv zeta in Hr; fold d in Hr; rewrite Hr; cbn [snd]; [auto|].
    destruct (iterate_stops (R:=unit) (Exited 0)
                (run rounds w (serve (parse_int b arg2) modules)) rounds
                (fun k' => serve_outcome rounds w k' _ modules) k)
      as [-> | ->]; auto. }
  destruct d as [tr out]. cbn [fst snd] in *.
  destruct Hd as [-> | [-> | ->]]; cbn [fst snd]; auto.
Qed.

(** X15. Building the registry, the daemon closes every module descriptor of
    the batch it received, each exactly once and in the order of arrival,
    whether or not the module could be loaded; it closes nothing else,
    dispatches no task, and returns a registry as long as the batch. *)
Theorem startup_closes_every_module_descriptor (rounds : nat) (w : world)
    (n : nat) (socket : Z) :
  let r := run rounds w (startup socket) n in
  exists module_fds modules rest,
    fst r = Event (recv_fds socket) module_fds :: rest /\
    snd r = Returned modules /\
    length modules = length module_fds /\
    closes (fst r) = module_fds /\
    dispatches (fst r) = [].
Proof.
  intros r. subst r.
  destruct (startup_run rounds w n socket)
    as (module_fds & modules & loading & Hreg & Hrun).
  rewrite Hrun. cbn [fst snd].
  destruct (registry_trace_closes _ _ _ Hreg) as [Hc Hd].
  exists module_fds, modules, (loading ++ [Event (write_int socket 0) tt]).
  split; [reflexivity|]. split; [reflexivity|].
  split; [eapply registry_trace_length; eauto|].
  change (Event (recv_fds socket) module_fds :: ?x) with
    ([Event (recv_fds socket) module_fds] ++ x).
  rewrite !closes_app, !dispatches_app, Hc, Hd. split; [|reflexivity].
  cbn. apply app_nil_r.
Qed.

(** X16. However long the service loop runs, every task it hands to the
    thread pool is the closure of a populated slot of the registry: it calls
    a non-null entry point taken from the registry, with a client descriptor
    that is not negative. *)
Theorem service_loop_dispatches_registered_entries (rounds : nat)
    (w : world) (n : nat) (socket : Z) (modules : list Z) (task : io unit) :
  let loop := run rounds w (Forever (serve socket modules) : io unit) n in
  In task (dispatches (fst loop)) ->
  exists id entry client,
    modules !! id = Some entry /\ entry <> nullptr /\ 0 <= client /\
    task = companion_task entry client.
Proof.
  intros loop Hin. subst loop. cbn [run] in Hin.
  assert (H : Forall (registered_task modules)
                (dispatches
                   (fst (iterate (R:=unit)
                           (run rounds w (serve socket modules)) rounds n)))).
  { apply (iterate_trace
             (fun tr => Forall (registered_task modules) (dispatches tr))).
    - constructor.
    - intros a c Ha Hc. rewrite dispatches_app. apply Forall_app. auto.
    - intros k. apply serve_dispatches_registered. }
  rewrite List.Forall_forall in H. exact (H task Hin).
Qed.

(** X17. With any other arguments (neither three arguments with
    [argv[1] == "companion"] nor four with [argv[1] == "passthrough"])
    [zygisk_main] only sets up logging and returns 0. *)
Theorem zygisk_main_ignores_other_arguments (rounds : nat) (w : world)
    (n : nat) (argv : list string) :
  ~ (length argv = 3%nat /\ nth 1 argv ""%string = "companion"%string) ->
  ~ (length argv = 4%nat /\ nth 1 argv ""%string = "passthrough"%string) ->
  run rounds w (zygisk_main b argv) n =
    ([Event android_logging tt], Returned 0).
Proof.
  intros Hc Hp. unfold zygisk_main. cbn [bind perform run]. unit_answers.
  destruct ((length argv =? 3)%nat &&
            String.eqb (nth 1 argv ""%string) "companion") eqn:H3.
  { exfalso. apply Hc. apply andb_prop in H3. destruct H3 as [Hl He].
    apply Nat.eqb_eq in Hl. apply String.eqb_eq in He. auto. }
  destruct ((length argv =? 4)%nat &&
            String.eqb (nth 1 argv ""%string) "passthrough") eqn:H4.
  { exfalso. apply Hp. apply andb_prop in H4. destruct H4 as [Hl He].
    apply Nat.eqb_eq in Hl. apply String.eqb_eq in He. auto. }
  reflexivity.
Qed.

End DaemonMore.

(** * The same on the examples *)



(** X11 on the example process and the path /data/x. *)
Lemma example_runtime_directory_reaches_the_image :
  0 < brk example_process /\
  In nullptr (environ example_process) /\
  slen (entry_of (MAGISKTMP_ENV example_build) "/data/x") < MAX_ENV_LEN /\
  exists env,
    sanitize_environment_variables
      (mem (prepared example_build example_process "/data/x"))
      (environ (prepared example_build example_process "/data/x")) =
      Some env /\
    In (brk (with_preload example_build example_process)) (until_null env) /\
    holds (mem (prepared example_build example_process "/data/x"))
      (brk (with_preload example_build example_process))
      (entry_of (MAGISKTMP_ENV example_build) "/data/x") /\
    name_is (mem (prepared example_build example_process "/data/x"))
      (brk (with_preload example_build example_process))
      (c_str (MAGISKTMP_ENV example_build)) = true.
Proof.
  assert (H1 : 0 < brk example_process) by reflexivity.
  assert (H2 : In nullptr (environ example_process)) by in_list.
  assert (H3 : slen (entry_of (MAGISKTMP_ENV example_build) "/data/x")
               < MAX_ENV_LEN) by reflexivity.
  split; [exact H1|]. split; [exact H2|]. split; [exact H3|].
  apply (runtime_directory_reaches_the_image example_build example_process
           "/data/x" H1 H2);
    [discriminate | reflexivity | | exact H3].
  intros H. not_in_list H.
Defined.

(** X12 on the example process, whose sixth entry sets LD_PRELOAD. *)
Lemma example_preload_is_appended :
  environ example_process =
    [4096; 8192; 12288; 16384; 20480] ++ 24576 ::
    [28672; 32768; 36864; 0; 77; 78] /\
  holds (mem example_process) 24576
    ("LD_PRELOAD=" ++ "/system/bin/appwidget") /\
  preload_value example_build example_process =
    "/system/bin/appwidget:/system/bin/appwidget"%string.
Proof.
  assert (H1 : environ example_process =
               [4096; 8192; 12288; 16384; 20480] ++ 24576 ::
               [28672; 32768; 36864; 0; 77; 78]) by reflexivity.
  assert (H2 : holds (mem example_process) 24576
                 ("LD_PRELOAD=" ++ "/system/bin/appwidget"))
    by (split; vm_compute; reflexivity).
  split; [exact H1|]. split; [exact H2|].
  apply (preload_is_appended_to_previous_value example_build example_process
           _ _ 24576 "/system/bin/appwidget" H1);
    [ | vm_compute; discriminate | exact H2 | reflexivity
      | vm_compute; discriminate].
  repeat constructor; try (vm_compute; discriminate);
    vm_compute; reflexivity.
Defined.

(** X13 on a process whose only entry is PATH=/system/bin. *)
Lemma bare_process_gets_the_hijack_path :
  (forall q, In q (until_null (environ bare_process)) ->
             env_match (mem bare_process) q "LD_PRELOAD" = None) /\
  preload_value example_build bare_process = "/system/bin/appwidget"%string.
Proof.
  assert (H1 : forall q, In q (until_null (environ bare_process)) ->
                         env_match (mem bare_process) q "LD_PRELOAD" = None).
  { intros q Hq. vm_compute in Hq. destruct Hq as [<-|[]].
    vm_compute. reflexivity. }
  split; [exact H1|].
  exact (preload_is_the_hijack_path_when_unset example_build bare_process H1).
Defined.

(** X16 on a registry of one module, for one round of the loop. *)
Lemma example_loop_dispatches_the_registered_entry :
  In (companion_task 8192 7)
     (dispatches
        (fst (run 1 obliging_world (Forever (serve 9 [8192]) : io unit) 0))) /\
  exists id entry client,
    [8192] !! id = Some entry /\ entry <> nullptr /\ 0 <= client /\
    companion_task 8192 7 = companion_task entry client.
Proof.
  assert (H1 : In (companion_task 8192 7)
                 (dispatches
                    (fst (run 1 obliging_world
                            (Forever (serve 9 [8192]) : io unit) 0))))
    by (left; reflexivity).
  split; [exact H1|].
  exact (service_loop_dispatches_registered_entries 1 obliging_world 0 9
           [8192] (companion_task 8192 7) H1).
Defined.

(** X17 on the two arguments zygisk, companion. *)
Lemma companion_without_socket_does_nothing :
  ~ (length ["zygisk"; "companion"]%string = 3%nat /\
     nth 1 ["zygisk"; "companion"]%string ""%string = "companion"%string) /\
  run 1 obliging_world
    (zygisk_main example_build ["zygisk"; "companion"]%string) 0 =
    ([Event android_logging tt], Returned 0).
Proof.
  assert (H1 : ~ (length ["zygisk"; "companion"]%string = 3%nat /\
                  nth 1 ["zygisk"; "companion"]%string ""%string =
                    "companion"%string))
    by (intros [H _]; discriminate H).
  split; [exact H1|].
  apply (zygisk_main_ignores_other_arguments example_build 1 obliging_world 0
           ["zygisk"; "companion"]%string H1).
  intros [H _]. discriminate H.
Defined.

(** * The entry point of init *)

Section InitFacts.
Import Init.

Ltac init_step := cbn [bind perform run exit hand_over fst snd].

Lemma init_run_bind {A B : Type} (p : io A) :
  forall (k : A -> io B) rounds w n,
    run rounds w (bind p k) n =
    let '(tr, out) := run rounds w p n in
    match out with
    | Returned a =>
        let '(tr', out') := run rounds w (k a) (n + length tr)%nat in
        (tr ++ tr', out')
    | Stopped t => (tr, Stopped t)
    | Running => (tr, Running)
    end.
Proof.
  induction p as [R r|R t|R X c h IH|R S0 T body _ s h IH];
    intros k rounds w n; cbn [bind run].
  - rewrite Nat.add_0_r. destruct (run rounds w (k r) n). reflexivity.
  - reflexivity.
  - rewrite IH.
    destruct (run rounds w (h (w n X c)) (S n)) as [tr out].
    destruct out as [a|t|]; try reflexivity.
    cbn [length]. replace (n + S (length tr))%nat with (S n + length tr)%nat
      by lia.
    destruct (run rounds w (k a) (S n + length tr)). reflexivity.
  - destruct (iterate _ rounds s n) as [tr out].
    destruct out as [t|t|]; try reflexivity.
    rewrite IH.
    destruct (run rounds w (h t) (n + length tr)) as [tr1 out1].
    destruct out1 as [a|t1|]; try reflexivity.
    rewrite length_app, Nat.add_assoc.
    destruct (run rounds w (k a) (n + length tr + length tr1)).
    rewrite app_assoc. reflexivity.
Qed.

Lemma written_app fd tr1 tr2 :
  written fd (tr1 ++ tr2) = written fd tr1 ++ written fd tr2.
Proof. unfold written. rewrite map_app, concat_app. reflexivity. Qed.

Lemma decoded_app tr1 tr2 : decoded (tr1 ++ tr2) = decoded tr1 ++ decoded tr2.
Proof. unfold decoded. rewrite map_app, concat_app. reflexivity. Qed.

Lemma closed_app tr1 tr2 : closed (tr1 ++ tr2) = closed tr1 ++ closed tr2.
Proof. unfold closed. rewrite map_app, concat_app. reflexivity. Qed.

(** One iteration of the loop of [unxz]. *)
Lemma unxz_step_run rounds (w : world) n fd dec buf pos :
  let b := w n xz_step (xz_dec_run dec buf pos) in
  run rounds w (unxz_step fd dec buf pos) n =
  if xz_failed (ret b) then
    ([Event (xz_dec_run dec buf pos) b], Returned (inr false))
  else
    ([Event (xz_dec_run dec buf pos) b;
      Event (write fd (out b)) (w (S n) Z (write fd (out b)))],
     Returned (if negb (in_pos b =? Z.of_nat (length buf))
               then inl (in_pos b) else inr true)).
Proof.
  intros b. unfold unxz_step. init_step. fold b.
  destruct (xz_failed (ret b)); init_step; [reflexivity|].
  destruct (negb (in_pos b =? Z.of_nat (length buf))); reflexivity.
Qed.

(** The loop of [unxz], observed for [r] iterations. *)
Lemma unxz_loop rounds (w : world) fd dec buf : forall r pos n,
  let res :=
    iterate (fun s' n' => run rounds w (unxz_step fd dec buf s') n') r pos n in
  written fd (fst res) = decoded (fst res) /\
  closed (fst res) = [] /\
  match snd res with
  | Returned true =>
      exists tr p b rc,
        fst res = tr ++ [Event (xz_dec_run dec buf p) b;
                         Event (write fd (out b)) rc] /\
        xz_failed (ret b) = false /\ in_pos b = Z.of_nat (length buf)
  | Returned false =>
      exists tr p b,
        fst res = tr ++ [Event (xz_dec_run dec buf p) b] /\
        xz_failed (ret b) = true
  | Stopped _ => False
  | Running =>
      length (fst res) = (2 * r)%nat /\
      forallb (goes_on (Z.of_nat (length buf))) (fst res) = true
  end.
Proof.
  induction r as [|r IH]; intros pos n; cbn [iterate].
  { cbn. auto. }
  rewrite unxz_step_run.
  set (b := w n xz_step (xz_dec_run dec buf pos)).
  destruct (xz_failed (ret b)) eqn:Hfail.
  { cbn [fst snd]. split; [|split].
    - unfold written, decoded. cbn. rewrite Hfail. reflexivity.
    - reflexivity.
    - exists [], pos, b. auto. }
  set (rc := w (S n) Z (write fd (out b))).
  assert (Hw : written fd [Event (xz_dec_run dec buf pos) b;
                           Event (write fd (out b)) rc] =
               decoded [Event (xz_dec_run dec buf pos) b;
                        Event (write fd (out b)) rc]).
  { unfold written, decoded. cbn. rewrite Hfail, Z.eqb_refl. reflexivity. }
  destruct (in_pos b =? Z.of_nat (length buf)) eqn:Hend; cbn [negb].
  { cbn [fst snd]. split; [exact Hw|]. split; [reflexivity|].
    exists [], pos, b, rc. apply Z.eqb_eq in Hend. auto. }
  specialize (IH (in_pos b) (n + 2)%nat). cbv zeta in IH. cbn [length].
  destruct (iterate _ r (in_pos b) (n + 2)) as [tr out] eqn:Hrest.
  cbn [fst snd] in *. destruct IH as (IHw & IHc & IHout).
  split; [|split].
  - change (?a :: ?c :: tr) with ([a; c] ++ tr).
    rewrite written_app, decoded_app, Hw, IHw. reflexivity.
  - exact IHc.
  - destruct out as [[|]|t|].
    + destruct IHout as (tr0 & p & b0 & rc0 & -> & H).
      exists (Event (xz_dec_run dec buf pos) b :: Event (write fd (out b)) rc
              :: tr0), p, b0, rc0. auto.
    + destruct IHout as (tr0 & p & b0 & -> & H).
      exists (Event (xz_dec_run dec buf pos) b :: Event (write fd (out b)) rc
              :: tr0), p, b0. auto.
    + exact IHout.
    + destruct IHout as [Hlen Hall]. split; [cbn [fst length app]; lia|].
      cbn [fst app forallb goes_on]. rewrite Hfail, Hend, Hall. reflexivity.
Qed.

(** [unxz] as a whole. *)
Lemma unxz_run rounds (w : world) n fd buf :
  let dec := w (S n) Z (xz_dec_init XZ_DYNALLOC (Z.shiftl 1 26)) in
  let res :=
    iterate (fun s' n' => run rounds w (unxz_step fd dec buf s') n')
      rounds 0 (S (S n)) in
  run rounds w (unxz fd buf) n =
    (Event xz_crc32_init tt ::
     Event (xz_dec_init XZ_DYNALLOC (Z.shiftl 1 26)) dec :: fst res,
     snd res).
Proof.
  intros dec res. unfold unxz. cbn [bind perform run]. fold dec.
  destruct (w n unit xz_crc32_init). fold res.
  destruct res as [tr out]. destruct out as [t|t|]; cbn [fst snd run].
  - rewrite app_nil_r. reflexivity.
  - reflexivity.
  - reflexivity.
Qed.

(** X18. Whatever [unxz] writes to the descriptor is the output of the
    decoder, run after run and in order, leaving out only a run that failed:
    the bytes written to [fd] are exactly the bytes produced by the runs of
    [xz_dec_run] that returned [XZ_OK] or [XZ_STREAM_END]. [unxz] never
    closes the descriptor. *)
Theorem unxz_writes_what_was_decoded (rounds : nat) (w : world) (n : nat)
    (fd : Z) (buf : list Byte.byte) :
  let r := run rounds w (unxz fd buf) n in
  written fd (fst r) = decoded (fst r) /\ closed (fst r) = [].
Proof.
  intros r. subst r. rewrite unxz_run. cbv zeta. cbn [fst].
  destruct (unxz_loop rounds w fd
              (w (S n) Z (xz_dec_init XZ_DYNALLOC (Z.shiftl 1 26))) buf
              rounds 0 (S (S n))) as (Hw & Hc & _).
  cbv zeta in Hw, Hc.
  change (?a :: ?c :: ?tr) with ([a; c] ++ tr).
  rewrite written_app, decoded_app, closed_app, Hw, Hc. split; reflexivity.
Qed.

(** X19. How [unxz] ends. It returns true only right after a run of the
    decoder that did not fail and left [in_pos == size], the output of which
    it has written. It returns false only right after a run that failed
    (any result but [XZ_OK] and [XZ_STREAM_END]), the output of which it has
    not written. It ends in no other way. And when it is still in its loop
    after the observed number of iterations, it has made that many runs and
    writes, and every run so far succeeded and left input unread: a decoder
    that fails or reaches the end of the input makes [unxz] return. *)
Theorem unxz_result (rounds : nat) (w : world) (n : nat) (fd : Z)
    (buf : list Byte.byte) :
  let r := run rounds w (unxz fd buf) n in
  let dec := w (S n) Z (xz_dec_init XZ_DYNALLOC (Z.shiftl 1 26)) in
  match snd r with
  | Returned true =>
      exists tr p b rc,
        fst r = tr ++ [Event (xz_dec_run dec buf p) b;
                       Event (write fd (out b)) rc] /\
        xz_failed (ret b) = false /\ in_pos b = Z.of_nat (length buf)
  | Returned false =>
      exists tr p b,
        fst r = tr ++ [Event (xz_dec_run dec buf p) b] /\
        xz_failed (ret b) = true
  | Stopped _ => False
  | Running =>
      length (fst r) = (2 + 2 * rounds)%nat /\
      forallb (goes_on (Z.of_nat (length buf))) (fst r) = true
  end.
Proof.
  intros r dec. subst r. rewrite unxz_run. cbv zeta. cbn [fst snd]. fold dec.
  destruct (unxz_loop rounds w fd dec buf rounds 0 (S (S n)))
    as (_ & _ & Hout).
  cbv zeta in Hout.
  destruct (iterate _ rounds 0 (S (S n))) as [tr out]. cbn [fst snd] in *.
  destruct out as [[|]|t|].
  - destruct Hout as (tr0 & p & b & rc & -> & H).
    exists (Event xz_crc32_init tt ::
            Event (xz_dec_init XZ_DYNALLOC (Z.shiftl 1 26)) dec :: tr0),
           p, b, rc. auto.
  - destruct Hout as (tr0 & p & b & -> & H).
    exists (Event xz_crc32_init tt ::
            Event (xz_dec_init XZ_DYNALLOC (Z.shiftl 1 26)) dec :: tr0),
           p, b. auto.
  - exact Hout.
  - destruct Hout as [Hlen Hall]. split; [cbn [length]; lia|].
    cbn [forallb goes_on]. exact Hall.
Qed.

Section Manager.
Context (manager_xz : list Byte.byte).

(** X20. [dump_manager] first opens the file (write only, create, truncate,
    close-on-exec, with the mode given). When that fails it returns 1 and
    does nothing else. Otherwise what it writes to the file is what the
    decoder produced without failing; it returns 0 only when the payload was
    decoded to its end, and the last thing it does then is closing the
    descriptor; it returns 1 right after a run of the decoder that failed,
    and then it has not closed the descriptor. *)
Theorem dump_manager_closes_only_on_success (rounds : nat) (w : world)
    (n : nat) (path : option string) (mode : Z) :
  let flags := Z.lor (Z.lor (Z.lor O_WRONLY O_CREAT) O_TRUNC) O_CLOEXEC in
  let fd := w n Z (xopen path flags mode) in
  let r := run rounds w (dump_manager manager_xz path mode) n in
  exists rest,
    fst r = Event (xopen path flags mode) fd :: rest /\
    (fd < 0 -> rest = [] /\ snd r = Returned 1) /\
    (0 <= fd ->
     written fd rest = decoded rest /\
     match snd r with
     | Returned v =>
         (v = 0 /\
          exists tr p dec b rc rc',
            rest = tr ++ [Event (xz_dec_run dec manager_xz p) b;
                          Event (write fd (out b)) rc;
                          Event (close fd) rc'] /\
            xz_failed (ret b) = false /\
            in_pos b = Z.of_nat (length manager_xz) /\
            closed rest = [fd]) \/
         (v = 1 /\
          exists tr p dec b,
            rest = tr ++ [Event (xz_dec_run dec manager_xz p) b] /\
            xz_failed (ret b) = true /\
            closed rest = [])
     | Stopped _ => False
     | Running => closed rest = []
     end).
Proof.
  intros flags fd r. subst r. unfold dump_manager.
  cbn [bind perform run]. fold flags. fold fd.
  destruct (fd <? 0) eqn:Hfd.
  { cbn [bind run]. exists []. split; [reflexivity|].
    split; [auto | lia]. }
  rewrite init_run_bind, unxz_run. cbv zeta.
  set (dec := w (S (S n)) Z (xz_dec_init XZ_DYNALLOC (Z.shiftl 1 26))).
  destruct (unxz_loop rounds w fd dec manager_xz rounds 0 (S (S (S n))))
    as (Hw & Hc & Hres).
  cbv zeta in Hw, Hc, Hres.
  destruct (iterate _ rounds 0 (S (S (S n)))) as [tr out].
  cbn [fst snd] in Hw, Hc, Hres.
  set (setup := [Event xz_crc32_init tt;
                 Event (xz_dec_init XZ_DYNALLOC (Z.shiftl 1 26)) dec]).
  change (Event xz_crc32_init tt ::
          Event (xz_dec_init XZ_DYNALLOC (Z.shiftl 1 26)) dec :: tr)
    with (setup ++ tr).
  assert (Hw' : written fd (setup ++ tr) = decoded (setup ++ tr)).
  { rewrite written_app, decoded_app, Hw. reflexivity. }
  assert (Hc' : closed (setup ++ tr) = []).
  { rewrite closed_app, Hc. reflexivity. }
  destruct out as [[|]|t|]; cbn [negb bind perform run fst snd].
  - match goal with
    | |- context [Event (close fd) ?x] =>
        exists ((setup ++ tr) ++ [Event (close fd) x])
    end.
    split; [reflexivity|]. split; [lia|]. intros _.
    split.
    { rewrite written_app, decoded_app, Hw'. reflexivity. }
    left. split; [reflexivity|].
    destruct Hres as (tr0 & p & b & rc & -> & Hok & Hend).
    exists (setup ++ tr0), p. do 4 eexists.
    split; [rewrite <- !app_assoc; reflexivity|].
    split; [exact Hok|]. split; [exact Hend|].
    rewrite closed_app, Hc'. reflexivity.
  - exists (setup ++ tr). split; [rewrite app_nil_r; reflexivity|].
    split; [lia|].
    intros _. split; [exact Hw'|]. right. split; [reflexivity|].
    destruct Hres as (tr0 & p & b & -> & Hbad).
    exists (setup ++ tr0), p. do 2 eexists.
    split; [rewrite <- app_assoc; reflexivity|]. auto.
  - contradiction.
  - exists (setup ++ tr). split; [reflexivity|]. split; [lia|]. intros _.
    split; [exact Hw' | exact Hc'].
Qed.

Lemma arg_test (argv : list string) (i : nat) (a : string) :
  (i <? length argv)%nat && arg_is argv i a = true <-> argv !! i = Some a.
Proof.
  unfold arg_is. destruct (argv !! i) as [x|] eqn:Hx.
  - apply lookup_lt_Some in Hx. apply Nat.ltb_lt in Hx. rewrite Hx.
    cbn [andb]. rewrite String.eqb_eq. split; [intros ->|intros [= ->]];
      reflexivity.
  - rewrite andb_false_r. split; discriminate.
Qed.

Lemma arg_test_false (argv : list string) (i : nat) (a : string) :
  argv !! i <> Some a -> (i <? length argv)%nat && arg_is argv i a = false.
Proof.
  intros H. apply not_true_iff_false. rewrite arg_test. exact H.
Qed.

(** X21. [main] before any init is chosen. [umask(0)] and
    [basename(argv[0])] come first. When the name is [magisk], the process
    is [magisk_proxy_main(argc, argv)] and returns its result. Otherwise,
    when [argv[1]] is [-x]: with [argv[2]] being [manager] the process is
    [dump_manager(argv[3], 0644)], whatever its pid, also when [argv[3]] is
    the null pointer that ends [argv]; with anything else it returns 1 at
    once. Otherwise, when the pid is not 1, it returns 1 and does nothing
    more. *)
Theorem main_before_init (rounds : nat) (w : world) (n : nat)
    (argv : list string) :
  let mask := w n Z (umask 0) in
  let name := w (S n) string (basename (argv !! 0%nat)) in
  let opening :=
    [Event (umask 0) mask; Event (basename (argv !! 0%nat)) name] in
  let r := run rounds w (main manager_xz argv) n in
  (name = "magisk"%string ->
   let rc := w (2 + n)%nat Z (magisk_proxy_main argv) in
   r = (opening ++ [Event (magisk_proxy_main argv) rc], Returned rc)) /\
  (name <> "magisk"%string -> argv !! 1%nat = Some "-x"%string ->
   (argv !! 2%nat = Some "manager"%string ->
    let d := run rounds w (dump_manager manager_xz (argv !! 3%nat) 420)
               (2 + n) in
    r = (opening ++ fst d, snd d)) /\
   (argv !! 2%nat <> Some "manager"%string -> r = (opening, Returned 1))) /\
  (name <> "magisk"%string -> argv !! 1%nat <> Some "-x"%string ->
   let pid := w (2 + n)%nat Z getpid in
   pid <> 1 -> r = (opening ++ [Event getpid pid], Returned 1)).
Proof.
  intros mask name opening r. subst r opening. unfold main.
  cbn [bind perform run]. fold mask. fold name.
  split; [|split].
  - intros Hname. rewrite Hname. cbn [String.eqb Ascii.eqb Bool.eqb].
    cbn [bind perform run]. reflexivity.
  - intros Hname Hx. apply String.eqb_neq in Hname. rewrite Hname.
    rewrite (proj2 (arg_test argv 1 "-x") Hx). split.
    + intros Hm. rewrite (proj2 (arg_test argv 2 "manager") Hm). cbv zeta.
      cbn [Nat.add].
      destruct (run rounds w (dump_manager manager_xz (argv !! 3%nat) 420)
                  (S (S n))) as [tr out].
      reflexivity.
    + intros Hm. rewrite (arg_test_false argv 2 "manager" Hm). reflexivity.
  - intros Hname Hx Hpid. apply String.eqb_neq in Hname. rewrite Hname.
    rewrite (arg_test_false argv 1 "-x" Hx). cbn [bind perform run].
    cbn [Nat.add] in *. apply Z.eqb_neq in Hpid. rewrite Hpid. reflexivity.
Qed.

(** X22. The order in which [main] chooses the init object. With [argv[1]]
    being [selinux_setup] it is [SecondStageInit], and the kernel
    information is not loaded. Otherwise [load_kernel_info] comes first;
    [skip_initramfs] gives [LegacySARInit] and [force_normal_boot] (without
    [skip_initramfs]) gives [FirstStageInit], both without looking for a
    recovery; else [/sbin/recovery] is probed and, only when it is absent,
    [/system/bin/recovery]; either one gives [RecoveryInit]; only when both
    are absent [check_two_stage] is asked, and gives [FirstStageInit] or
    [RootFSInit]. *)
Theorem choose_init_by_priority (rounds : nat) (w : world) (n : nat)
    (argv : list string) :
  let r := run rounds w (choose_init argv) n in
  let config := w n BootConfig load_kernel_info in
  let sbin := w (S n) Z (access "/sbin/recovery" F_OK) in
  let sys := w (2 + n)%nat Z (access "/system/bin/recovery" F_OK) in
  let loaded := Event load_kernel_info config in
  (argv !! 1%nat = Some "selinux_setup"%string ->
   r = ([], Returned (External SecondStageInit None))) /\
  (argv !! 1%nat <> Some "selinux_setup"%string ->
   (skip_initramfs config = true ->
    r = ([loaded], Returned (External LegacySARInit (Some config)))) /\
   (skip_initramfs config = false -> force_normal_boot config = true ->
    r = ([loaded], Returned (External FirstStageInit (Some config)))) /\
   (skip_initramfs config = false -> force_normal_boot config = false ->
    (sbin = 0 ->
     r = ([loaded; Event (access "/sbin/recovery" F_OK) sbin],
          Returned (RecoveryInit config))) /\
    (sbin <> 0 -> sys = 0 ->
     r = ([loaded; Event (access "/sbin/recovery" F_OK) sbin;
           Event (access "/system/bin/recovery" F_OK) sys],
          Returned (RecoveryInit config))) /\
    (sbin <> 0 -> sys <> 0 ->
     let two_stage := w (3 + n)%nat bool check_two_stage in
     r = ([loaded; Event (access "/sbin/recovery" F_OK) sbin;
           Event (access "/system/bin/recovery" F_OK) sys;
           Event check_two_stage two_stage],
          Returned (External (if two_stage then FirstStageInit
                              else RootFSInit) (Some config)))))).
Proof.
  intros r config sbin sys loaded. subst r loaded. unfold choose_init.
  split.
  { intros Hs. rewrite (proj2 (arg_test argv 1 "selinux_setup") Hs).
    reflexivity. }
  intros Hs. rewrite (arg_test_false argv 1 "selinux_setup" Hs).
  cbn [bind perform run]. fold config.
  split; [|split].
  - intros ->. reflexivity.
  - intros -> ->. reflexivity.
  - intros -> ->. cbn [bind perform run]. fold sbin.
    split; [|split].
    + intros Hsbin. rewrite Hsbin. reflexivity.
    + intros Hsbin Hsys. apply Z.eqb_neq in Hsbin. rewrite Hsbin.
      cbn [bind perform run].
      change (w (S (S n)) Z (access "/system/bin/recovery" F_OK)) with sys.
      rewrite Hsys. reflexivity.
    + intros Hsbin Hsys. apply Z.eqb_neq in Hsbin, Hsys.
      rewrite Hsbin. cbn [bind perform run].
      change (w (S (S n)) Z (access "/system/bin/recovery" F_OK)) with sys.
      rewrite Hsys. cbn [bind perform run Nat.add].
      destruct (w (S (S (S n))) bool check_two_stage); reflexivity.
Qed.

Lemma choose_init_returns rounds w n argv :
  exists choice init,
    run rounds w (choose_init argv) n = (choice, Returned init).
Proof.
  unfold choose_init.
  destruct ((1 <? length argv)%nat && arg_is argv 1 "selinux_setup");
    [cbn; eauto|].
  cbn [bind perform run].
  destruct (skip_initramfs _); [cbn; eauto|].
  destruct (force_normal_boot _); [cbn; eauto|].
  cbn [bind perform run].
  destruct (w (S n) Z (access "/sbin/recovery" F_OK) =? 0);
    cbn [bind perform run]; [eauto|].
  destruct (w (S (S n)) Z (access "/system/bin/recovery" F_OK) =? 0);
    cbn [bind perform run]; [eauto|].
  destruct (w (S (S (S n))) bool check_two_stage); eauto.
Qed.

Lemma start_outcome rounds w n init argv :
  let out := snd (run rounds w (start init argv) n) in
  out = Returned tt \/ out = Stopped Handed_over.
Proof.
  destruct init as [c config|config]; unfold start, RecoveryInit_start;
    init_step.
  - destruct (w n control (start_init c argv config)); init_step; auto.
  - destruct (w (S (S (S (S n)))) control exec_init); init_step; auto.
Qed.

(** X23. As pid 1 (not named [magisk], not called with [-x]) [main] never
    returns: it chooses the init object, starts it, and when [start] comes
    back it ends with [exit(1)]; when [start] does not come back, nothing
    follows. Nothing else happens in between. *)
Theorem main_as_pid_1_never_returns (rounds : nat) (w : world) (n : nat)
    (argv : list string) :
  let mask := w n Z (umask 0) in
  let name := w (S n) string (basename (argv !! 0%nat)) in
  let r := run rounds w (main manager_xz argv) n in
  name <> "magisk"%string ->
  argv !! 1%nat <> Some "-x"%string ->
  w (2 + n)%nat Z getpid = 1 ->
  exists choice init,
    run rounds w (choose_init argv) (3 + n) = (choice, Returned init) /\
    let s := run rounds w (start init argv) (3 + n + length choice) in
    fst r = [Event (umask 0) mask; Event (basename (argv !! 0%nat)) name;
             Event getpid 1] ++ choice ++ fst s /\
    (snd s = Returned tt /\ snd r = Stopped (Exited 1) \/
     snd s = Stopped Handed_over /\ snd r = Stopped Handed_over).
Proof.
  intros mask name r Hname Hx Hpid. subst r. unfold main.
  cbn [bind perform run]. fold mask. fold name.
  apply String.eqb_neq in Hname. rewrite Hname.
  rewrite (arg_test_false argv 1 "-x" Hx). cbn [bind perform run].
  cbn [Nat.add] in Hpid. rewrite Hpid. cbn [Z.eqb Pos.eqb negb].
  rewrite init_run_bind.
  destruct (choose_init_returns rounds w (S (S (S n))) argv)
    as (choice & init & Hchoice).
  exists choice, init. cbn [Nat.add]. split; [exact Hchoice|].
  rewrite Hchoice. cbv zeta. rewrite init_run_bind.
  match goal with
  | |- context [run rounds w (start init argv) ?k] =>
      pose proof (start_outcome rounds w k init argv) as Hout;
      cbv zeta in Hout;
      destruct (run rounds w (start init argv) k) as [started out]
  end.
  cbn [fst snd] in *.
  destruct Hout as [-> | ->]; cbn [run exit fst snd].
  - rewrite app_nil_r. split; [reflexivity|]. left. auto.
  - split; [reflexivity|]. right. auto.
Qed.

End Manager.

(** X18 on a payload that the decoder takes in two runs. *)
Lemma two_blocks_are_written_in_order :
  let r := run 4 first_boot (unxz 3 example_payload) 0 in
  written 3 (fst r) = decoded (fst r) /\ closed (fst r) = [] /\
  decoded (fst r) = [Byte.x01; Byte.x02; Byte.x03; Byte.x04].
Proof.
  intros r.
  destruct (unxz_writes_what_was_decoded 4 first_boot 0 3 example_payload)
    as [Hw Hc].
  split; [exact Hw|]. split; [exact Hc|]. vm_compute. reflexivity.
Defined.

(** X19 on the same payload: the second run reaches the end of the input,
    and [unxz] returns true. *)
Lemma two_blocks_make_unxz_return_true :
  let r := run 4 first_boot (unxz 3 example_payload) 0 in
  snd r = Returned true /\
  exists tr p b rc,
    fst r = tr ++ [Event (xz_dec_run 4096 example_payload p) b;
                   Event (write 3 (out b)) rc] /\
    xz_failed (ret b) = false /\
    in_pos b = Z.of_nat (length example_payload).
Proof.
  intros r.
  assert (Hout : snd r = Returned true) by (vm_compute; reflexivity).
  split; [exact Hout|].
  pose proof (unxz_result 4 first_boot 0 3 example_payload) as H.
  cbv zeta in H. fold r in H. rewrite Hout in H. exact H.
Defined.

(** X20 on a payload whose second block is corrupt: the first block stays
    written, the descriptor stays open, and the result is 1. *)
Lemma corrupt_payload_leaves_the_file_open :
  0 <= corrupt_payload 0%nat Z
         (xopen (Some "/data/stub.apk"%string)
            (Z.lor (Z.lor (Z.lor O_WRONLY O_CREAT) O_TRUNC) O_CLOEXEC) 420) /\
  let r := run 4 corrupt_payload
             (dump_manager example_payload (Some "/data/stub.apk"%string) 420)
             0 in
  snd r = Returned 1 /\ closed (fst r) = [] /\
  written 3 (fst r) = [Byte.x01; Byte.x02].
Proof.
  assert (H1 : 0 <= corrupt_payload 0%nat Z
                      (xopen (Some "/data/stub.apk"%string)
                         (Z.lor (Z.lor (Z.lor O_WRONLY O_CREAT) O_TRUNC)
                            O_CLOEXEC) 420))
    by (vm_compute; discriminate).
  split; [exact H1|]. intros r.
  assert (Hout : snd r = Returned 1) by (vm_compute; reflexivity).
  split; [exact Hout|].
  destruct (dump_manager_closes_only_on_success example_payload 4
              corrupt_payload 0 (Some "/data/stub.apk"%string) 420)
    as (rest & Hfst & _ & Hopen).
  fold r in Hfst, Hopen. destruct (Hopen H1) as [_ Hcases].
  rewrite Hout in Hcases.
  destruct Hcases as [(Hv & _)|(_ & tr & p & dec & b & _ & _ & Hclosed)];
    [discriminate Hv|].
  split; [|vm_compute; reflexivity].
  rewrite Hfst. exact Hclosed.
Defined.

(** X21 on the arguments /init -x manager: the path is the null pointer. *)
Lemma manager_without_path_opens_null :
  let argv := ["/init"; "-x"; "manager"]%string in
  let r := run 4 first_boot (main example_payload argv) 0 in
  let d := run 4 first_boot (dump_manager example_payload None 420) 2 in
  first_boot 1%nat string (basename (argv !! 0%nat)) <> "magisk"%string /\
  argv !! 1%nat = Some "-x"%string /\
  argv !! 2%nat = Some "manager"%string /\
  r = ([Event (umask 0) 18; Event (basename (Some "/init"%string)) "init"%string]
       ++ fst d, snd d).
Proof.
  intros argv r d.
  assert (H1 : first_boot 1%nat string (basename (argv !! 0%nat))
               <> "magisk"%string) by (vm_compute; discriminate).
  assert (H2 : argv !! 1%nat = Some "-x"%string) by reflexivity.
  assert (H3 : argv !! 2%nat = Some "manager"%string) by reflexivity.
  split; [exact H1|]. split; [exact H2|]. split; [exact H3|].
  destruct (main_before_init example_payload 4 first_boot 0 argv)
    as (_ & Hx & _).
  destruct (Hx H1 H2) as [Hm _]. exact (Hm H3).
Defined.

(** X22 on a device with a recovery in /system/bin only. *)
Lemma recovery_in_system_bin_is_found :
  let config := {| skip_initramfs := false; force_normal_boot := false |} in
  ["/init"%string] !! 1%nat <> Some "selinux_setup"%string /\
  run 1 first_boot (choose_init ["/init"%string]) 0 =
    ([Event load_kernel_info config;
      Event (access "/sbin/recovery" F_OK) (-1);
      Event (access "/system/bin/recovery" F_OK) 0],
     Returned (RecoveryInit config)).
Proof.
  intros config.
  assert (H1 : ["/init"%string] !! 1%nat <> Some "selinux_setup"%string)
    by discriminate.
  split; [exact H1|].
  destruct (choose_init_by_priority 1 first_boot 0 ["/init"%string])
    as (_ & Hother).
  destruct (Hother H1) as (_ & _ & Hprobe).
  destruct (Hprobe eq_refl eq_refl) as (_ & Hsys & _).
  apply Hsys; [vm_compute; discriminate | reflexivity].
Defined.

(** X23 on the same device. *)
Lemma first_boot_hands_over :
  let argv := ["/init"%string] in
  let r := run 1 first_boot (main example_payload argv) 0 in
  first_boot 1%nat string (basename (argv !! 0%nat)) <> "magisk"%string /\
  argv !! 1%nat <> Some "-x"%string /\
  first_boot 2%nat Z getpid = 1 /\
  exists choice init,
    run 1 first_boot (choose_init argv) 3 = (choice, Returned init) /\
    let s := run 1 first_boot (start init argv) (3 + length choice) in
    fst r = [Event (umask 0) (first_boot 0%nat Z (umask 0));
             Event (basename (argv !! 0%nat))
               (first_boot 1%nat string (basename (argv !! 0%nat)));
             Event getpid 1] ++ choice ++ fst s /\
    (snd s = Returned tt /\ snd r = Stopped (Exited 1) \/
     snd s = Stopped Handed_over /\ snd r = Stopped Handed_over).
Proof.
  intros argv r.
  assert (H1 : first_boot 1%nat string (basename (argv !! 0%nat))
               <> "magisk"%string) by (vm_compute; discriminate).
  assert (H2 : argv !! 1%nat <> Some "-x"%string) by discriminate.
  assert (H3 : first_boot 2%nat Z getpid = 1) by reflexivity.
  split; [exact H1|]. split; [exact H2|]. split; [exact H3|].
  exact (main_as_pid_1_never_returns example_payload 1 first_boot 0 argv
           H1 H2 H3).
Defined.

End InitFacts.
